(** * AI-PS backend: classification, labels, anomaly scoring and priority

    A shallow embedding of the decision logic of the backend
    ([process_classifier.py], [label_manager.py], [detector.py],
    [analyzer.py], [api_server.py.py], [collector.py]) together with the
    properties the specification states about it.

    Conventions of the embedding
    - Python [float] inputs ([cpu], [memory], thresholds, model scores) are
      rationals [Q]: every finite float is a rational and the source only
      compares them with constants, so the comparisons are exact.  The one
      float computation, [round(win / total, 2)], keeps the exact quotient
      where Python has the nearest float, and rounds it half-to-even to two
      decimals; the division raises [OverflowError] where the nearest float
      would not be finite.
    - Python [int] is [Z]; [str] is [string], and strings are ASCII:
      [str.lower] maps [A-Z] to [a-z], and [int] reads the ASCII numerals
      (sign, digits, underscores between digits, white space around).
    - A [dict] whose iteration order is observable (the score table, the
      keyword table, the performance-tag table) is an association list in
      insertion order; the label database, which the properties below
      observe only through lookups and membership, is a [gmap].
    - A raised exception is a value of [py_exn] in the [Raise] branch of
      [py_result]. *)

From Stdlib Require Import ZArith QArith String Ascii List Bool Lia Lqa.
From Stdlib Require Import DecimalString DecimalPos DecimalZ.
From stdpp Require Import base gmap sets list strings fin_maps.
Import ListNotations.

Local Open Scope string_scope.
Local Open Scope Z_scope.

(** ** Python values shared by the modules *)

Inductive py_exn : Type :=
| KeyError (key : string)
| ZeroDivisionError
| OverflowError
| IndexError
| ValueError.

Inductive py_result (A : Type) : Type :=
| Ok (a : A)
| Raise (e : py_exn).
Arguments Ok {A} a.
Arguments Raise {A} e.

Definition py_bind {A B} (m : py_result A) (k : A -> py_result B) : py_result B :=
  match m with
  | Ok a => k a
  | Raise e => Raise e
  end.

(** [x < y] and [x <= y] on floats, as booleans. *)
Definition Qleb (x y : Q) : bool := Qle_bool x y.
Definition Qltb (x y : Q) : bool := negb (Qle_bool y x).

(** [x in xs] for a list of strings. *)
Definition str_in (x : string) (xs : list string) : bool :=
  existsb (String.eqb x) xs.

(** The value under the key ['pid'] of a classification result: the integer
    of the sampler, or the string ['N/A'] that [batch_classify] puts there
    when the sample has none. *)
Inductive pid_value : Type :=
| PidInt (z : Z)
| PidStr (s : string).

(** Truth value of [if pid:] for the result of [result.get('pid')]. *)
Definition pid_truthy (p : option pid_value) : bool :=
  match p with
  | None => false
  | Some (PidInt z) => negb (z =? 0)
  | Some (PidStr s) => negb (String.eqb s "")
  end.

(** ** [process_classifier.py] *)

Module ProcessClassifier.

(** [str.lower] and [sub in s] *)
Definition lower_char (c : ascii) : ascii :=
  let n := nat_of_ascii c in
  if ((65 <=? n) && (n <=? 90))%nat then ascii_of_nat (n + 32) else c.

Fixpoint lower (s : string) : string :=
  match s with
  | EmptyString => EmptyString
  | String c s' => String (lower_char c) (lower s')
  end.

Fixpoint contains (sub s : string) : bool :=
  match s with
  | EmptyString => String.prefix sub EmptyString
  | String _ s' => String.prefix sub s || contains sub s'
  end.

(** The score table [category_scores]: a dict in insertion order. *)
Fixpoint dict_get (k : string) (d : list (string * Z)) : option Z :=
  match d with
  | [] => None
  | (k', v) :: d' => if String.eqb k' k then Some v else dict_get k d'
  end.

Fixpoint dict_set (k : string) (v : Z) (d : list (string * Z)) : list (string * Z) :=
  match d with
  | [] => [(k, v)]
  | (k', v') :: d' =>
      if String.eqb k' k then (k', v) :: d' else (k', v') :: dict_set k v d'
  end.

(** [d[k] = d.get(k, 0) + w] *)
Definition bump (k : string) (w : Z) (d : list (string * Z)) : list (string * Z) :=
  dict_set k (default 0 (dict_get k d) + w) d.

(** A custom rule: a dict whose keys may each be absent; the present
    values have the types [add_custom_rule] annotates. *)
Record rule : Type := {
  rule_category : option string;
  keywords : option (list string);
  cpu_threshold : option Q;
  memory_threshold : option Q;
  weight : option Z
}.

(** A value read from a configuration file. *)
#[warnings="-register-all"]
Inductive json : Type :=
| JNull
| JBool (b : bool)
| JNumber (q : Q)
| JString (s : string)
| JArray (items : list json)
| JObject (members : list (string * json)).

(** The attributes of a [ProcessClassifier].  [performance_thresholds] is
    a dict of numbers, read by [_update_performance_tags_from_config];
    [tag_definitions] and [system_settings] are stored by [load_config] and
    read by nothing. *)
Record classifier : Type := {
  process_categories : list (string * list string);
  performance_tags : list (string * (Q -> Q -> bool));
  custom_rules : list rule;
  performance_thresholds : list (string * Q);
  tag_definitions : json;
  system_settings : json
}.

(** The tables set up by [__init__] without a configuration file. *)
Definition default_process_categories : list (string * list string) :=
  [ ("system_critical", ["systemd"; "init"; "kthreadd"; "udevd"; "dbus"]);
    ("network_services", ["sshd"; "nginx"; "apache"; "postgres"; "mysql"; "redis"]);
    ("user_applications", ["chrome"; "firefox"; "code"; "pycharm"; "sublime"; "thunderbird"]);
    ("background_workers", ["cron"; "atd"; "worker"; "celery"; "supervisord"]);
    ("development_tools", ["python"; "java"; "node"; "golang"; "docker"]);
    ("security_services", ["fail2ban"; "firewalld"; "auditd"; "clamav"]) ].

Definition default_performance_tags : list (string * (Q -> Q -> bool)) :=
  [ ("cpu_intensive", fun cpu mem => Qltb 70 cpu);
    ("memory_intensive", fun cpu mem => Qltb 30 mem);
    ("low_resource", fun cpu mem => Qltb cpu 5 && Qltb mem 5);
    ("stable_process",
      fun cpu mem => Qleb 5 cpu && Qleb cpu 30 && Qleb 5 mem && Qleb mem 20);
    ("high_io", fun cpu mem => false) ].

Definition init : classifier :=
  {| process_categories := default_process_categories;
     performance_tags := default_performance_tags;
     custom_rules := [];
     performance_thresholds := [];
     tag_definitions := JObject [];
     system_settings := JObject [] |}.

(** [add_custom_rule] *)
Definition add_custom_rule (c : classifier) (category : string)
    (kws : list string) (cpu_thr memory_thr : option Q) (w : Z) : classifier :=
  {| process_categories := process_categories c;
     performance_tags := performance_tags c;
     custom_rules :=
       (custom_rules c ++
        [ {| rule_category := Some category; keywords := Some kws;
             cpu_threshold := cpu_thr; memory_threshold := memory_thr;
             weight := Some w |} ])%list;
     performance_thresholds := performance_thresholds c;
     tag_definitions := tag_definitions c;
     system_settings := system_settings c |}.

(** [self.custom_rules = config.get('custom_rules', [])] of [load_config]:
    the rules are whatever the configuration document lists. *)
Definition with_custom_rules (rules : list rule) (c : classifier) : classifier :=
  {| process_categories := process_categories c;
     performance_tags := performance_tags c;
     custom_rules := rules;
     performance_thresholds := performance_thresholds c;
     tag_definitions := tag_definitions c;
     system_settings := system_settings c |}.

(** [_match_rule].  Every read goes through [dict.get], so on a rule whose
    present fields have the annotated types nothing in the [try] block
    raises and the [except] branch is not entered. *)
Definition _match_rule (r : rule) (process_name : string) (cpu memory : Q) : bool :=
  let keyword_match :=
    existsb (fun keyword => contains (lower keyword) (lower process_name))
            (default [] (keywords r)) in
  let cpu_match :=
    match cpu_threshold r with None => true | Some t => Qltb t cpu end in
  let memory_match :=
    match memory_threshold r with None => true | Some t => Qltb t memory end in
  keyword_match && cpu_match && memory_match.

(** Step 1: the two nested loops over [process_categories.items()] and
    the keywords of each category. *)
Fixpoint match_keywords (category : string) (kws : list string)
    (process_name : string) (category_scores : list (string * Z))
    : list (string * Z) :=
  match kws with
  | [] => category_scores
  | keyword :: rest =>
      match_keywords category rest process_name
        (if contains (lower keyword) (lower process_name)
         then bump category 1 category_scores
         else category_scores)
  end.

Fixpoint match_names (categories : list (string * list string))
    (process_name : string) (category_scores : list (string * Z))
    : list (string * Z) :=
  match categories with
  | [] => category_scores
  | (category, kws) :: rest =>
      match_names rest process_name
        (match_keywords category kws process_name category_scores)
  end.

(** Step 2: the [if / elif] chain on the resource usage. *)
Definition resource_pattern (cpu_usage memory_usage : Q)
    (category_scores : list (string * Z)) (suggested_tags : list string)
    : list (string * Z) * list string :=
  if Qltb cpu_usage 1 && Qltb memory_usage 1 then
    (bump "idle_process" 2 category_scores, (suggested_tags ++ ["low_resource"])%list)
  else if Qltb 50 cpu_usage then
    (bump "cpu_intensive" 2 category_scores, (suggested_tags ++ ["cpu_intensive"])%list)
  else if Qltb 30 memory_usage then
    (category_scores, (suggested_tags ++ ["memory_intensive"])%list)
  else if Qleb 5 cpu_usage && Qleb cpu_usage 30
          && Qleb 5 memory_usage && Qleb memory_usage 20 then
    (category_scores, (suggested_tags ++ ["stable_process"])%list)
  else (category_scores, suggested_tags).

(** Step 3: the loop over [custom_rules]; [rule['category']] is a plain
    subscript and raises [KeyError] on a rule without that key. *)
Fixpoint apply_custom_rules (rules : list rule) (process_name : string)
    (cpu_usage memory_usage : Q) (category_scores : list (string * Z))
    : py_result (list (string * Z)) :=
  match rules with
  | [] => Ok category_scores
  | r :: rest =>
      if _match_rule r process_name cpu_usage memory_usage then
        match rule_category r with
        | None => Raise (KeyError "category")
        | Some c =>
            apply_custom_rules rest process_name cpu_usage memory_usage
              (bump c (default 1 (weight r)) category_scores)
        end
      else
        apply_custom_rules rest process_name cpu_usage memory_usage
          category_scores
  end.

(** [category_scores.get] and [category_scores[k]] on a key of the table. *)
Definition score_of (d : list (string * Z)) (k : string) : Z :=
  default 0 (dict_get k d).

(** Step 4: [max(category_scores, key=category_scores.get)] walks the keys
    in insertion order and keeps the first one whose value is largest. *)
Fixpoint max_key_loop (d : list (string * Z)) (best : string) (best_val : Z)
    (keys : list string) : string :=
  match keys with
  | [] => best
  | k :: rest =>
      let v := score_of d k in
      if best_val <? v then max_key_loop d k v rest
      else max_key_loop d best best_val rest
  end.

Definition sum_values (d : list (string * Z)) : Z :=
  fold_left Z.add (map snd d) 0.

(** [round(x, 2)]: the nearest multiple of 1/100, as a number of
    hundredths.  A quotient exactly half way between two multiples goes to
    the even one here; on floats such a tie is decided by the binary value
    of the quotient, and no property below depends on a tie. *)
Definition round_half_even (q : Q) : Z :=
  let n := Qnum q in
  let d := Zpos (Qden q) in
  let f := n / d in
  let r2 := 2 * (n mod d) in
  if r2 <? d then f
  else if d <? r2 then f + 1
  else if Z.even f then f else f + 1.

Definition py_round2 (q : Q) : Q := Qmake (round_half_even (q * 100)) 100.

(** [a / b] on two [int]s is the quotient rounded to the nearest float.
    It raises [ZeroDivisionError] for [b = 0] and [OverflowError] when the
    rounded quotient is no finite float: the largest one is
    [2^1024 - 2^971], and from [2^1024 - 2^970] on a quotient rounds past
    it.  A quotient too small for a float rounds to [0.0] without an
    error.  The value returned here is the exact quotient. *)
Definition float_overflow_bound : Z := 2 ^ 1024 - 2 ^ 970.

Definition int_true_divide (a b : Z) : py_result Q :=
  if b =? 0 then Raise ZeroDivisionError
  else if float_overflow_bound * Z.abs b <=? Z.abs a then Raise OverflowError
  else Ok (inject_Z a / inject_Z b)%Q.

Definition final_category (category_scores : list (string * Z))
    : py_result (string * Q) :=
  match map fst category_scores with
  | [] => Ok ("unknown", 0%Q)
  | k :: rest =>
      let final := max_key_loop category_scores k
                     (score_of category_scores k) rest in
      let win := score_of category_scores final in
      let total := sum_values category_scores in
      py_bind (int_true_divide win total) (fun confidence =>
      Ok (final, confidence))
  end.

(** Step 5: the loop over [performance_tags.items()]. *)
Fixpoint add_performance_tags (table : list (string * (Q -> Q -> bool)))
    (cpu_usage memory_usage : Q) (suggested_tags : list string) : list string :=
  match table with
  | [] => suggested_tags
  | (tag_name, condition_func) :: rest =>
      add_performance_tags rest cpu_usage memory_usage
        (if condition_func cpu_usage memory_usage
         then if str_in tag_name suggested_tags then suggested_tags
              else (suggested_tags ++ [tag_name])%list
         else suggested_tags)
  end.

Record classification : Type := {
  category : string;
  tags : list string;
  confidence : Q;
  cpu_usage : Q;
  memory_usage : Q;
  process_name : string
}.

(** The score table after steps 1 to 3, with the tags of step 2. *)
Definition category_scores (c : classifier) (name : string) (cpu memory : Q)
    : py_result (list (string * Z) * list string) :=
  let scores1 := match_names (process_categories c) name [] in
  let '(scores2, suggested_tags) := resource_pattern cpu memory scores1 [] in
  py_bind (apply_custom_rules (custom_rules c) name cpu memory scores2)
    (fun scores3 => Ok (scores3, suggested_tags)).

(** [classify_process] *)
Definition classify_process (c : classifier) (name : string) (cpu memory : Q)
    : py_result classification :=
  py_bind (category_scores c name cpu memory) (fun '(scores, suggested_tags) =>
  py_bind (final_category scores) (fun '(final, conf) =>
  let suggested_tags :=
    add_performance_tags (performance_tags c) cpu memory suggested_tags in
  Ok {| category := final;
        tags := suggested_tags;
        confidence := py_round2 conf;
        cpu_usage := cpu;
        memory_usage := memory;
        process_name := name |})).

(** A sample as [batch_classify] reads it: every key through [dict.get];
    [threads] and [nice] are carried by the sampler and read by no step of
    the classification. *)
Record sample : Type := {
  s_pid : option pid_value;
  s_name : option string;
  s_cpu : option Q;
  s_memory : option Q;
  s_threads : option Z;
  s_nice : option Z
}.

(** [batch_classify]: each result with its ['pid'] entry. *)
Fixpoint batch_classify (c : classifier) (process_list : list sample)
    : py_result (list (pid_value * classification)) :=
  match process_list with
  | [] => Ok []
  | process :: rest =>
      py_bind (classify_process c (default "" (s_name process))
                 (default 0%Q (s_cpu process))
                 (default 0%Q (s_memory process))) (fun result =>
      py_bind (batch_classify c rest) (fun results =>
      Ok ((default (PidStr "N/A") (s_pid process), result) :: results)))
  end.

(** The categories a configuration can give a score to: those of the
    keyword table, the two of the resource step and those of the rules. *)
Fixpoint rule_categories (rules : list rule) : list string :=
  match rules with
  | [] => []
  | r :: rest =>
      match rule_category r with
      | Some c => c :: rule_categories rest
      | None => rule_categories rest
      end
  end.

Definition score_keys (c : classifier) : list string :=
  (map fst (process_categories c)
   ++ ["idle_process"; "cpu_intensive"]
   ++ rule_categories (custom_rules c))%list.

(** A rule that names its category and carries a weight of at least 1. *)
Definition rule_ok (r : rule) : bool :=
  match rule_category r with Some _ => true | None => false end
  && (1 <=? default 1 (weight r)).

(** A configuration in which no category is called [unknown], every rule
    is [rule_ok] and fewer than 200 distinct categories can score. *)
Definition config_ok (c : classifier) : bool :=
  negb (str_in "unknown" (score_keys c))
  && forallb rule_ok (custom_rules c)
  && (length (nodup string_dec (score_keys c)) <? 200)%nat.

(** The invariant of the score table under a configuration whose scoring
    categories are among [K]: distinct keys, all in [K], all scores at
    least 1. *)
Definition table_ok (K : list string) (d : list (string * Z)) : Prop :=
  List.NoDup (map fst d)
  /\ incl (map fst d) K
  /\ forall k v, In (k, v) d -> 1 <= v.

(** *** Configuration: [load_config], [save_config] *)

(** [d[k] = v] and [d.update(items)] on the keyword table: a key that is
    present keeps its place, a new key goes to the end. *)
Fixpoint categories_get (k : string) (d : list (string * list string))
    : option (list string) :=
  match d with
  | [] => None
  | (k', v) :: d' => if String.eqb k' k then Some v else categories_get k d'
  end.

Fixpoint categories_set (k : string) (v : list string)
    (d : list (string * list string)) : list (string * list string) :=
  match d with
  | [] => [(k, v)]
  | (k', v') :: d' =>
      if String.eqb k' k then (k', v) :: d'
      else (k', v') :: categories_set k v d'
  end.

Definition categories_update (d items : list (string * list string))
    : list (string * list string) :=
  fold_left (fun d kv => categories_set (fst kv) (snd kv) d) items d.

(** [performance_thresholds.get(name, default)] *)
Fixpoint threshold_get (k : string) (d : list (string * Q)) : option Q :=
  match d with
  | [] => None
  | (k', v) :: d' => if String.eqb k' k then Some v else threshold_get k d'
  end.

(** The configuration document, with the keys [load_config] acts on; each
    is read with [config.get]. *)
Record config_document : Type := {
  cfg_process_categories : option (list (string * list string));
  cfg_custom_rules : option (list rule);
  cfg_performance_thresholds : option (list (string * Q));
  cfg_tag_definitions : option json;
  cfg_system_settings : option json
}.

Inductive config_file : Type :=
| ConfigMissing
| ConfigUnreadable
| ConfigJson (config : config_document).

(** [_update_performance_tags_from_config]: the table built from
    [self.performance_thresholds]; an empty dict leaves the table alone. *)
Definition configured_performance_tags (thresholds : list (string * Q))
    : list (string * (Q -> Q -> bool)) :=
  let cpu_intensive_thresh := default 70%Q (threshold_get "cpu_intensive" thresholds) in
  let memory_intensive_thresh := default 30%Q (threshold_get "memory_intensive" thresholds) in
  let low_cpu_thresh := default 5%Q (threshold_get "low_resource_cpu" thresholds) in
  let low_mem_thresh := default 5%Q (threshold_get "low_resource_memory" thresholds) in
  let stable_cpu_min := default 5%Q (threshold_get "stable_cpu_min" thresholds) in
  let stable_cpu_max := default 30%Q (threshold_get "stable_cpu_max" thresholds) in
  let stable_mem_min := default 5%Q (threshold_get "stable_memory_min" thresholds) in
  let stable_mem_max := default 20%Q (threshold_get "stable_memory_max" thresholds) in
  [ ("cpu_intensive", fun cpu mem => Qltb cpu_intensive_thresh cpu);
    ("memory_intensive", fun cpu mem => Qltb memory_intensive_thresh mem);
    ("low_resource",
      fun cpu mem => Qltb cpu low_cpu_thresh && Qltb mem low_mem_thresh);
    ("stable_process",
      fun cpu mem => Qleb stable_cpu_min cpu && Qleb cpu stable_cpu_max
                     && Qleb stable_mem_min mem && Qleb mem stable_mem_max);
    ("high_io", fun cpu mem => false) ].

Definition _update_performance_tags_from_config (c : classifier)
    : classifier :=
  match performance_thresholds c with
  | [] => c
  | _ :: _ =>
      {| process_categories := process_categories c;
         performance_tags :=
           configured_performance_tags (performance_thresholds c);
         custom_rules := custom_rules c;
         performance_thresholds := performance_thresholds c;
         tag_definitions := tag_definitions c;
         system_settings := system_settings c |}
  end.

(** [load_config]: the returned flag and the classifier afterwards.  A file
    that does not parse raises inside [json.load], before any attribute is
    assigned.  The three attributes of lines 58 to 60 are assigned from the
    document, each to an empty dict when the document has no such key. *)
Definition load_config (c : classifier) (f : config_file) : bool * classifier :=
  match f with
  | ConfigMissing => (false, c)
  | ConfigUnreadable => (false, c)
  | ConfigJson config =>
      let c1 :=
        {| process_categories :=
             categories_update (process_categories c)
               (default [] (cfg_process_categories config));
           performance_tags := performance_tags c;
           custom_rules := default [] (cfg_custom_rules config);
           performance_thresholds :=
             default [] (cfg_performance_thresholds config);
           tag_definitions :=
             default (JObject []) (cfg_tag_definitions config);
           system_settings :=
             default (JObject []) (cfg_system_settings config) |} in
      (true, _update_performance_tags_from_config c1)
  end.

(** [save_config]: the document written (next to a timestamp); it has the
    keyword table and the rules and none of the other three keys. *)
Definition save_config (c : classifier) : config_file :=
  ConfigJson {| cfg_process_categories := Some (process_categories c);
                cfg_custom_rules := Some (custom_rules c);
                cfg_performance_thresholds := None;
                cfg_tag_definitions := None;
                cfg_system_settings := None |}.

End ProcessClassifier.

(** ** [label_manager.py] *)

(** [str(pid)] on an [int]: its decimal numeral. *)
Definition py_str (z : Z) : string := NilZero.string_of_int (Z.to_int z).

(** [int(pid_str)] on an ASCII string.  White space around the numeral is
    dropped; the numeral is an optional sign followed by decimal digits,
    with at most one underscore between two digits; every other string
    raises [ValueError]. *)
Definition is_space (c : ascii) : bool :=
  let n := nat_of_ascii c in
  ((9 <=? n) && (n <=? 13) || (n =? 32))%nat.

Definition is_digit (c : ascii) : bool :=
  let n := nat_of_ascii c in
  ((48 <=? n) && (n <=? 57))%nat.

Fixpoint lstrip (s : string) : string :=
  match s with
  | EmptyString => EmptyString
  | String c rest => if is_space c then lstrip rest else s
  end.

Fixpoint rstrip (s : string) : string :=
  match s with
  | EmptyString => EmptyString
  | String c rest =>
      match rstrip rest with
      | EmptyString => if is_space c then EmptyString else String c EmptyString
      | kept => String c kept
      end
  end.

(** The digits of a numeral without its underscores; [after_digit] tells
    whether the character before was a digit: an underscore is accepted
    only there, and the numeral ends only there. *)
Fixpoint numeral_digits (after_digit : bool) (s : string) : option string :=
  match s with
  | EmptyString => if after_digit then Some EmptyString else None
  | String c rest =>
      if is_digit c then option_map (String c) (numeral_digits true rest)
      else if Ascii.eqb c "_" then
        if after_digit then numeral_digits false rest else None
      else None
  end.

Definition py_int (s : string) : py_result Z :=
  let s := rstrip (lstrip s) in
  let '(negative, body) :=
    match s with
    | EmptyString => (false, s)
    | String c rest =>
        if Ascii.eqb c "-" then (true, rest)
        else if Ascii.eqb c "+" then (false, rest)
        else (false, s)
    end in
  match numeral_digits false body with
  | None => Raise ValueError
  | Some digits =>
      match NilZero.uint_of_string digits with
      | None => Raise ValueError
      | Some d => Ok (if negative then - Z.of_uint d else Z.of_uint d)
      end
  end.

(** A printable ASCII character that occurs in no string [int] accepts:
    neither a digit, nor a sign, nor an underscore. *)
Definition outside_numeral (c : ascii) : bool :=
  let n := nat_of_ascii c in
  ((33 <=? n) && (n <=? 126))%nat
  && negb (is_digit c)
  && negb (Ascii.eqb c "+") && negb (Ascii.eqb c "-") && negb (Ascii.eqb c "_").

Module LabelManager.

(** A value of [labels_db]. *)
Record label_record : Type := {
  tags : gset string;
  notes : string;
  last_updated : string
}.

Record tag_definition : Type := {
  color : string;
  description : string
}.

(** The JSON document in the storage file.  [json.dump] writes a set as a
    list and the integer keys as strings; an object is its list of
    members.  [Unreadable] is a file on which [json.load] or a subscript
    of the loading loop raises. *)
Record saved_record : Type := {
  saved_tags : list string;
  saved_notes : string;
  saved_last_updated : string
}.

Record document : Type := {
  doc_labels : option (list (string * saved_record));
  doc_tag_definitions : option (list (string * tag_definition));
  last_saved : option string
}.

Inductive file : Type :=
| Missing
| Unreadable
| Json (d : document).

Record label_manager : Type := {
  labels_db : gmap Z label_record;
  tag_definitions : gmap string tag_definition;
  storage_file : file
}.

Definition with_labels_db (db : gmap Z label_record) (lm : label_manager)
    : label_manager :=
  {| labels_db := db; tag_definitions := tag_definitions lm;
     storage_file := storage_file lm |}.

Definition default_tag_definitions : gmap string tag_definition :=
  list_to_map
    [ ("high_priority", {| color := "red"; description := "高优先级进程" |});
      ("monitor_closely", {| color := "orange"; description := "需要密切监控" |});
      ("auto_restart", {| color := "blue"; description := "自动重启" |});
      ("ignore_alert", {| color := "gray"; description := "忽略告警" |});
      ("business_critical", {| color := "purple"; description := "业务关键" |});
      ("experimental", {| color := "yellow"; description := "实验性进程" |}) ].

(** [save_labels]; [now] is the value of [datetime.now().isoformat()]. *)
Definition save_record (info : label_record) : saved_record :=
  {| saved_tags := elements (tags info);
     saved_notes := notes info;
     saved_last_updated := last_updated info |}.

Definition save_labels (lm : label_manager) (now : string) : label_manager :=
  let save_data :=
    map (fun kv => (py_str (fst kv), save_record (snd kv)))
        (map_to_list (labels_db lm)) in
  {| labels_db := labels_db lm;
     tag_definitions := tag_definitions lm;
     storage_file :=
       Json {| doc_labels := Some save_data;
               doc_tag_definitions := Some (map_to_list (tag_definitions lm));
               last_saved := Some now |} |}.

(** [load_labels] *)
Definition load_record (info : saved_record) : label_record :=
  {| tags := list_to_set (saved_tags info);
     notes := saved_notes info;
     last_updated := saved_last_updated info |}.

Fixpoint load_items (items : list (string * saved_record))
    (db : gmap Z label_record) : py_result (gmap Z label_record) :=
  match items with
  | [] => Ok db
  | (pid_str, info) :: rest =>
      py_bind (py_int pid_str) (fun pid =>
      load_items rest (<[pid := load_record info]> db))
  end.

(** [dict.update] *)
Definition update (d : gmap string tag_definition)
    (items : list (string * tag_definition)) : gmap string tag_definition :=
  fold_left (fun d kv => <[fst kv := snd kv]> d) items d.

Definition load_labels (lm : label_manager) : label_manager :=
  match storage_file lm with
  | Missing => lm
  | Unreadable => with_labels_db ∅ lm
  | Json data =>
      match load_items (default [] (doc_labels data)) ∅ with
      | Ok db =>
          {| labels_db := db;
             tag_definitions :=
               update (tag_definitions lm)
                      (default [] (doc_tag_definitions data));
             storage_file := storage_file lm |}
      | Raise _ => with_labels_db ∅ lm
      end
  end.

(** [__init__] on a given storage file. *)
Definition init (f : file) : label_manager :=
  load_labels {| labels_db := ∅;
                 tag_definitions := default_tag_definitions;
                 storage_file := f |}.

Definition add_tag (label : string) (info : label_record) : label_record :=
  {| tags := tags info ∪ {[label]}; notes := notes info;
     last_updated := last_updated info |}.

Definition discard_tag (label : string) (info : label_record) : label_record :=
  {| tags := tags info ∖ {[label]}; notes := notes info;
     last_updated := last_updated info |}.

Definition set_notes (note : string) (info : label_record) : label_record :=
  {| tags := tags info; notes := note; last_updated := last_updated info |}.

Definition set_last_updated (now : string) (info : label_record) : label_record :=
  {| tags := tags info; notes := notes info; last_updated := now |}.

(** [if note:] *)
Definition note_truthy (note : option string) : bool :=
  match note with
  | None => false
  | Some n => negb (String.eqb n "")
  end.

(** [add_label]; the advisory message for a label without a definition
    is printed and changes nothing. *)
Definition add_label (lm : label_manager) (pid : Z) (label : string)
    (note : option string) (now : string) : bool * label_manager :=
  let db := labels_db lm in
  let db :=
    match db !! pid with
    | Some _ => db
    | None => <[pid := {| tags := ∅; notes := ""; last_updated := now |}]> db
    end in
  let db := alter (add_tag label) pid db in
  let db :=
    if note_truthy note then alter (set_notes (default "" note)) pid db
    else db in
  let db := alter (set_last_updated now) pid db in
  (true, save_labels (with_labels_db db lm) now).

(** [remove_label] *)
Definition remove_label (lm : label_manager) (pid : Z) (label : string)
    (now : string) : bool * label_manager :=
  let db := labels_db lm in
  match db !! pid with
  | Some info =>
      if bool_decide (label ∈ tags info) then
        let db := alter (discard_tag label) pid db in
        let db := alter (set_last_updated now) pid db in
        let db :=
          match db !! pid with
          | Some info' =>
              if bool_decide (tags info' = ∅) then delete pid db else db
          | None => db
          end in
        (true, save_labels (with_labels_db db lm) now)
      else (false, lm)
  | None => (false, lm)
  end.

(** [get_process_labels] *)
Definition get_process_labels (lm : label_manager) (pid : Z) : gset string :=
  match labels_db lm !! pid with
  | Some info => tags info
  | None => ∅
  end.

(** [search_by_tag].  The pids come in the order in which the map is
    enumerated, which is not the insertion order of the Python dict: the
    list stands for the pids found, not for their order. *)
Definition search_by_tag (lm : label_manager) (tag : string) : list Z :=
  map fst
    (List.filter (fun kv => bool_decide (tag ∈ tags (snd kv)))
                 (map_to_list (labels_db lm))).

(** The labels found for the ['pid'] entry of a result: the database is
    keyed by integers, so a string is the key of no record. *)
Definition labels_of (lm : label_manager) (pid : pid_value) : gset string :=
  match pid with
  | PidInt z => get_process_labels lm z
  | PidStr _ => ∅
  end.

(** [merge_with_classification], for results of any shape [R] from which
    [result.get('pid')] reads [get_pid]. *)
Record merged (R : Type) : Type := {
  result : R;
  manual_labels : list string;
  has_manual_labels : bool
}.
Arguments result {R} _.
Arguments manual_labels {R} _.
Arguments has_manual_labels {R} _.

Definition merge_one {R : Type} (get_pid : R -> option pid_value)
    (lm : label_manager) (r : R) : merged R :=
  let pid := get_pid r in
  if pid_truthy pid then
    let labels :=
      match pid with Some v => labels_of lm v | None => ∅ end in
    {| result := r;
       manual_labels := elements labels;
       has_manual_labels := (0 <? length (elements labels))%nat |}
  else
    {| result := r; manual_labels := []; has_manual_labels := false |}.

Definition merge_with_classification {R : Type}
    (get_pid : R -> option pid_value) (lm : label_manager)
    (classification_results : list R) : list (merged R) :=
  map (merge_one get_pid lm) classification_results.

(** The invariant of the label store: no record with an empty tag set. *)
Definition nonempty_tags (lm : label_manager) : Prop :=
  map_Forall (fun _ info => tags info <> ∅) (labels_db lm).

(** [add_tag_definition]; nothing is written to the storage file. *)
Definition add_tag_definition (lm : label_manager) (tag c d : string)
    : label_manager :=
  {| labels_db := labels_db lm;
     tag_definitions := <[tag := {| color := c; description := d |}]> (tag_definitions lm);
     storage_file := storage_file lm |}.

(** [get_tag_statistics]: the two nested loops over the records and over
    the tags of each record. *)
Definition count_tags (record_tags : list string) (stats : gmap string Z)
    : gmap string Z :=
  fold_left (fun stats tag => <[tag := default 0 (stats !! tag) + 1]> stats)
            record_tags stats.

Definition get_tag_statistics (lm : label_manager) : gmap string Z :=
  fold_left (fun stats kv => count_tags (elements (tags (snd kv))) stats)
            (map_to_list (labels_db lm)) ∅.

End LabelManager.

(** ** [api_server.py.py]: visual hint and priority *)

Module ApiServer.

(** The dictionary handed to [get_visual_hint] and [calculate_priority];
    every key is read with [dict.get], so every key may be absent. *)
Record process_info : Type := {
  category : option string;
  cpu_usage : option Q;
  memory_usage : option Q;
  user_labels : option (list string)
}.

Definition set_category (c : string) (p : process_info) : process_info :=
  {| category := Some c; cpu_usage := cpu_usage p;
     memory_usage := memory_usage p; user_labels := user_labels p |}.

Definition set_cpu_usage (c : Q) (p : process_info) : process_info :=
  {| category := category p; cpu_usage := Some c;
     memory_usage := memory_usage p; user_labels := user_labels p |}.

Definition set_user_labels (l : list string) (p : process_info) : process_info :=
  {| category := category p; cpu_usage := cpu_usage p;
     memory_usage := memory_usage p; user_labels := Some l |}.

Definition color_map : list (string * string) :=
  [ ("system_critical", "red");
    ("network_services", "blue");
    ("user_applications", "green");
    ("development_tools", "cyan");
    ("security_services", "orange");
    ("cpu_intensive", "orange");
    ("memory_intensive", "purple") ].

Fixpoint assoc_get {V} (k : string) (d : list (string * V)) : option V :=
  match d with
  | [] => None
  | (k', v) :: d' => if String.eqb k' k then Some v else assoc_get k d'
  end.

(** [calculate_priority] *)
Definition calculate_priority (p : process_info) : Z :=
  let priority := 5 in
  let user_labels := default [] (user_labels p) in
  let priority :=
    if str_in "high_priority" user_labels then 9
    else if str_in "business_critical" user_labels then 8
    else priority in
  let category := default "" (category p) in
  let priority :=
    if String.eqb category "system_critical" then Z.max priority 9
    else priority in
  let cpu := default 0%Q (cpu_usage p) in
  let priority :=
    if Qltb 80 cpu then Z.max priority 8 else priority in
  Z.min priority 10.

(** The colour computed by [get_visual_hint]. *)
Definition visual_color (p : process_info) : string :=
  let category := default "unknown" (category p) in
  let cpu := default 0%Q (cpu_usage p) in
  let memory := default 0%Q (memory_usage p) in
  let color := "gray" in
  let user_labels := default [] (user_labels p) in
  let color :=
    if str_in "high_priority" user_labels then "darkred"
    else if str_in "monitor_closely" user_labels then "orange"
    else match assoc_get category color_map with
         | Some c => c
         | None => color
         end in
  let color :=
    if Qltb 70 cpu && String.eqb color "gray" then "orange" else color in
  let color :=
    if Qltb 50 memory && String.eqb color "gray" then "purple" else color in
  color.

Definition icons : list (string * string) :=
  [ ("system_critical", "🔴");
    ("network_services", "🌐");
    ("user_applications", "💻");
    ("background_workers", "⚙️");
    ("development_tools", "🔧");
    ("security_services", "🔒");
    ("cpu_intensive", "🔥");
    ("memory_intensive", "💾");
    ("idle_process", "💤");
    ("unknown", "❓") ].

(** [get_category_icon] *)
Definition get_category_icon (category : string) : string :=
  default "❓" (assoc_get category icons).

Record visual_hint : Type := {
  color : string;
  icon : string;
  priority : Z
}.

(** [get_visual_hint] *)
Definition get_visual_hint (p : process_info) : visual_hint :=
  {| color := visual_color p;
     icon := get_category_icon (default "unknown" (category p));
     priority := calculate_priority p |}.

(** Step 3 of [classify_and_tag_processes]: the labels of the store are
    attached to a classified result, which then gets its visual hint. *)
Definition attach_labels (lm : LabelManager.label_manager)
    (r : pid_value * ProcessClassifier.classification) : process_info :=
  let pid := Some (fst r) in
  let labels :=
    if pid_truthy pid then elements (LabelManager.labels_of lm (fst r))
    else [] in
  {| category := Some (ProcessClassifier.category (snd r));
     cpu_usage := Some (ProcessClassifier.cpu_usage (snd r));
     memory_usage := Some (ProcessClassifier.memory_usage (snd r));
     user_labels := Some labels |}.

Record view : Type := {
  classified : ProcessClassifier.classification;
  info : process_info;
  hint : visual_hint
}.

(** Steps 2 and 3 of [classify_and_tag_processes] on the collected samples. *)
Definition classify_and_tag (c : ProcessClassifier.classifier)
    (lm : LabelManager.label_manager)
    (processes : list ProcessClassifier.sample) : py_result (list view) :=
  py_bind (ProcessClassifier.batch_classify c processes) (fun results =>
  Ok (map (fun r =>
             let i := attach_labels lm r in
             {| classified := snd r; info := i; hint := get_visual_hint i |})
          results)).

(** The sample of the specification's worked example. *)
Definition sshd_sample : ProcessClassifier.sample :=
  {| ProcessClassifier.s_pid := None;
     ProcessClassifier.s_name := Some "sshd";
     ProcessClassifier.s_cpu := Some 2%Q;
     ProcessClassifier.s_memory := Some 1%Q;
     ProcessClassifier.s_threads := Some 4;
     ProcessClassifier.s_nice := Some 0 |}.

(** [calculate_statistics].  A process dict is read through the keys of
    [process_info] and the key [is_tagged]. *)
Record stat_row : Type := {
  row : process_info;
  is_tagged : option bool
}.

Record statistics : Type := {
  by_category : list (string * Z);
  tagged_processes : Z;
  cpu_intensive : Z;
  memory_intensive : Z
}.

Definition statistics_step (stats : statistics) (proc : stat_row) : statistics :=
  let category := default "unknown" (category (row proc)) in
  let cpu := default 0%Q (cpu_usage (row proc)) in
  let memory := default 0%Q (memory_usage (row proc)) in
  {| by_category := ProcessClassifier.bump category 1 (by_category stats);
     tagged_processes :=
       if default false (is_tagged proc) then tagged_processes stats + 1
       else tagged_processes stats;
     cpu_intensive :=
       if Qltb 70 cpu then cpu_intensive stats + 1 else cpu_intensive stats;
     memory_intensive :=
       if Qltb 30 memory then memory_intensive stats + 1
       else memory_intensive stats |}.

Definition calculate_statistics (processes : list stat_row) : statistics :=
  fold_left statistics_step processes
    {| by_category := []; tagged_processes := 0;
       cpu_intensive := 0; memory_intensive := 0 |}.

End ApiServer.

(** ** [analyzer.py] *)

Module Analyzer.

(** A process dict; [anomaly] and [score] are the keys [detect] writes. *)
Record process : Type := {
  pid : Z;
  name : string;
  cpu : Q;
  memory : Q;
  threads : Z;
  nice : Z;
  anomaly : option bool;
  score : option Q
}.

Definition set_verdict (a : bool) (s : Q) (p : process) : process :=
  {| pid := pid p; name := name p; cpu := cpu p; memory := memory p;
     threads := threads p; nice := nice p;
     anomaly := Some a; score := Some s |}.

Definition feature_row (p : process) : list Q :=
  [cpu p; memory p; inject_Z (threads p); inject_Z (nice p)].

(** The calls made on [self.model], in order, with their argument. *)
Inductive model_call : Type :=
| FitPredict (X : list (list Q))
| DecisionFunction (X : list (list Q)).

Section Detect.

(** The isolation forest: its state, [fit_predict], which refits it,
    and [decision_function]. *)
Variable model : Type.
Variable fit_predict : model -> list (list Q) -> model * list Z.
Variable decision_function : model -> list (list Q) -> list Q.

(** The loop [for i, p in enumerate(processes)] from index [i] on. *)
Fixpoint annotate (i : nat) (processes : list process)
    (preds : list Z) (scores : list Q) : py_result (list process) :=
  match processes with
  | [] => Ok []
  | p :: rest =>
      match preds !! i, scores !! i with
      | Some pr, Some sc =>
          py_bind (annotate (S i) rest preds scores) (fun ps =>
          Ok (set_verdict (pr =? -1) sc p :: ps))
      | _, _ => Raise IndexError
      end
  end.

(** [ProcessAnomalyDetector.detect]: the model after the call, the calls
    made on it, and the returned list. *)
Definition detect (m : model) (processes : list process)
    : model * list model_call * py_result (list process) :=
  if (length processes <? 10)%nat then
    (m, [], Ok (map (set_verdict false 0%Q) processes))
  else
    let X := map feature_row processes in
    let '(m', preds) := fit_predict m X in
    let scores := decision_function m' X in
    (m', [FitPredict X; DecisionFunction X],
     annotate 0 processes preds scores).

End Detect.

End Analyzer.

(** ** [detector.py] *)

Module Detector.

(** A process dict as [collect_processes] builds it. *)
Record process : Type := {
  pid : Z;
  name : string;
  cpu : Q;
  memory : Q;
  threads : Z;
  nice : Z;
  features : list Q
}.

Record anomaly_result : Type := {
  r_pid : Z;
  r_name : string;
  r_cpu : Q;
  r_memory : Q;
  r_threads : Z;
  r_nice : Z;
  anomaly : bool;
  score : Q;
  reasons : list string
}.

Definition cpu_comment (p : process) : string :=
  if Qltb 80 (cpu p) then "CPU 使用率较高，需关注运行状态"
  else if Qltb 20 (cpu p) then "CPU 使用率处于正常偏高区间"
  else "CPU 使用率正常".

Definition memory_comment (p : process) : string :=
  if Qltb 5 (memory p) then "内存占用偏高" else "内存占用正常".

Definition threads_comment (p : process) : string :=
  if 50 <? threads p then "线程数较多，可能存在并发压力"
  else "线程数处于合理范围".

(** [explain] *)
Definition explain (p : process) (is_anomaly : bool) (source : string)
    : list string :=
  let reasons := [cpu_comment p; memory_comment p; threads_comment p] in
  if is_anomaly then
    if String.eqb source "model" then
      (reasons ++ ["行为模式与大多数进程显著不同，判定异常"])%list
    else if String.eqb source "random" then
      (reasons ++ ["存在潜在异常风险"])%list
    else reasons
  else (reasons ++ ["进程行为符合系统正常运行模式"])%list.

Section Detect.

(** The loaded model, the generator behind [random.random()] as a state
    with its draw function, and [self.random_rate]. *)
Variable predict : list (list Q) -> list Z.
Variable decision_function : list (list Q) -> list Q.
Variable rng : Type.
Variable random : rng -> Q * rng.
Variable random_rate : Q.

(** One round of the loop: the local [source] and the appended dict. *)
Definition detect_one (p : process) (pred : Z) (sc : Q) (draw : Q)
    : string * anomaly_result :=
  let model_anomaly := pred =? -1 in
  let random_anomaly := Qltb draw random_rate in
  let is_anomaly := model_anomaly || random_anomaly in
  let source :=
    if model_anomaly then "model"
    else if random_anomaly then "random"
    else "normal" in
  (source,
   {| r_pid := pid p; r_name := name p; r_cpu := cpu p;
      r_memory := memory p; r_threads := threads p; r_nice := nice p;
      anomaly := is_anomaly; score := sc;
      reasons := explain p is_anomaly source |}).

(** The loop from index [i] on, threading the generator; each result is
    paired with the value [source] had when it was built. *)
Fixpoint detect_loop (i : nat) (processes : list process)
    (preds : list Z) (scores : list Q) (g : rng)
    : py_result (list (string * anomaly_result) * rng) :=
  match processes with
  | [] => Ok ([], g)
  | p :: rest =>
      match preds !! i with
      | None => Raise IndexError
      | Some pred =>
          let '(draw, g') := random g in
          match scores !! i with
          | None => Raise IndexError
          | Some sc =>
              py_bind (detect_loop (S i) rest preds scores g')
                (fun '(rs, g'') => Ok (detect_one p pred sc draw :: rs, g''))
          end
      end
  end.

Definition detect_with_source (processes : list process) (g : rng)
    : py_result (list (string * anomaly_result) * rng) :=
  let feats := map features processes in
  let preds := predict feats in
  let scores := decision_function feats in
  detect_loop 0 processes preds scores g.

(** [AnomalyDetector.detect] *)
Definition detect (processes : list process) (g : rng)
    : py_result (list anomaly_result * rng) :=
  py_bind (detect_with_source processes g)
    (fun '(rs, g') => Ok (map snd rs, g')).

End Detect.

(** The relation the specification states between the source [s] with
    which a result [r] was built for the process [p], its [anomaly] flag
    and its reasons. *)
Definition source_consistent (p : process) (s : string) (r : anomaly_result)
    : Prop :=
  (s = "model" \/ s = "random" \/ s = "normal")
  /\ (s = "model" -> anomaly r = true)
  /\ (s = "normal" <-> anomaly r = false)
  /\ reasons r <> []
  /\ exists a,
       reasons r = [cpu_comment p; memory_comment p; threads_comment p; a]
       /\ ((s = "model" /\ a = "行为模式与大多数进程显著不同，判定异常")
           \/ (s = "random" /\ a = "存在潜在异常风险")
           \/ (s = "normal" /\ a = "进程行为符合系统正常运行模式")).

End Detector.

(** ** [collector.py] *)

Module Collector.

(** What one step of [psutil.process_iter] gives the loop body: the fields
    of a live process, or [NoSuchProcess] raised while they are read. *)
Inductive proc_read : Type :=
| NoSuchProcess
| ProcInfo (pid : Z) (name : string) (cpu memory : Q) (threads nice : Z).

Definition make_process (pid : Z) (name : string) (cpu memory : Q)
    (threads nice : Z) : Detector.process :=
  {| Detector.pid := pid; Detector.name := name; Detector.cpu := cpu;
     Detector.memory := memory; Detector.threads := threads;
     Detector.nice := nice;
     Detector.features := [cpu; memory; inject_Z threads; inject_Z nice] |}.

(** The loop of [collect_processes] on what is left of the iterator. *)
Fixpoint collect_loop (procs : list proc_read) (limit : Z)
    (processes : list Detector.process) : list Detector.process :=
  match procs with
  | [] => processes
  | NoSuchProcess :: rest => collect_loop rest limit processes
  | ProcInfo pid name cpu memory threads nice :: rest =>
      let processes :=
        (processes ++ [make_process pid name cpu memory threads nice])%list in
      if limit <=? Z.of_nat (length processes) then processes
      else collect_loop rest limit processes
  end.

(** [collect_processes] *)
Definition collect_processes (procs : list proc_read) (limit : Z)
    : list Detector.process :=
  collect_loop procs limit [].

End Collector.

(** * Properties *)

(** ** Comparisons and membership *)

Lemma Qltb_lt (x y : Q) : Qltb x y = true <-> (x < y)%Q.
Proof.
  unfold Qltb. rewrite negb_true_iff, <- not_true_iff_false, Qle_bool_iff.
  split; [apply Qnot_le_lt | apply Qlt_not_le].
Qed.

Lemma Qleb_le (x y : Q) : Qleb x y = true <-> (x <= y)%Q.
Proof. apply Qle_bool_iff. Qed.

Lemma str_in_In (x : string) (xs : list string) : str_in x xs = true <-> In x xs.
Proof.
  unfold str_in. rewrite existsb_exists. split.
  - intros (y & Hy & He). apply String.eqb_eq in He. now subst.
  - intros H. exists x. split; [exact H | apply String.eqb_refl].
Qed.

(** ** Priority *)

Section Priority.
Import ApiServer.

Lemma calculate_priority_range (p : process_info) :
  5 <= calculate_priority p <= 9.
Proof.
  unfold calculate_priority.
  repeat match goal with |- context [if ?b then _ else _] => destruct b end;
    lia.
Qed.

(** C9. The priority does not decrease when the label list is replaced by
    one that holds [high_priority], when the cpu usage is replaced by a
    value above 80, or when the category is set to [system_critical],
    the other inputs staying as they are; and it is never above 10. *)
Theorem calculate_priority_monotone
    (p : process_info) (labels' : list string) (cpu' : Q) :
  In "high_priority" labels' ->
  (80 < cpu')%Q ->
  calculate_priority p <= calculate_priority (set_user_labels labels' p)
  /\ calculate_priority p <= calculate_priority (set_cpu_usage cpu' p)
  /\ calculate_priority p <= calculate_priority (set_category "system_critical" p)
  /\ calculate_priority p <= 10.
Proof.
  intros Hl Hc.
  apply str_in_In in Hl. apply Qltb_lt in Hc.
  pose proof (calculate_priority_range p) as Hr.
  repeat split; try lia.
  - unfold calculate_priority at 2.
    cbn -[str_in Qltb String.eqb Z.max Z.min]. rewrite Hl.
    repeat match goal with |- context [if ?b then _ else _] => destruct b end;
      lia.
  - revert Hr. unfold calculate_priority.
    cbn -[str_in Qltb String.eqb Z.max Z.min]. rewrite Hc. intros Hr.
    repeat match goal with |- context [if ?b then _ else _] => destruct b end;
      lia.
  - revert Hr. unfold calculate_priority.
    cbn -[str_in Qltb String.eqb Z.max Z.min].
    rewrite String.eqb_refl. intros Hr.
    repeat match goal with |- context [if ?b then _ else _] => destruct b end;
      lia.
Qed.

Lemma calculate_priority_monotone_witness :
  let p := {| category := Some "network_services"; cpu_usage := Some 2%Q;
              memory_usage := Some 1%Q;
              user_labels := Some ["business_critical"] |} in
  calculate_priority p = 8
  /\ calculate_priority (set_user_labels ["business_critical"; "high_priority"] p) = 9
  /\ calculate_priority p
     <= calculate_priority (set_user_labels ["business_critical"; "high_priority"] p).
Proof.
  cbv zeta. split; [reflexivity | split; [reflexivity |]].
  apply (calculate_priority_monotone _ ["business_critical"; "high_priority"] 95%Q).
  - simpl. right. left. reflexivity.
  - reflexivity.
Defined.

End Priority.

(** ** Anomaly detection *)

Section AnalyzerProps.
Import Analyzer.

Variable model : Type.
Variable fit_predict : model -> list (list Q) -> model * list Z.
Variable decision_function : model -> list (list Q) -> list Q.

(** C3. On a batch of fewer than 10 processes [detect] makes no call on
    the model, leaves it as it was, and returns the batch with
    [anomaly = False] and [score = 0.0] on every element, whatever the
    cpu, memory, threads and nice values are. *)
Theorem detect_small_batch (m : model) (processes : list process) :
  (length processes < 10)%nat ->
  exists results,
    detect model fit_predict decision_function m processes
      = (m, [], Ok results)
    /\ length results = length processes
    /\ (forall r, In r results -> anomaly r = Some false /\ score r = Some 0%Q)
    /\ map feature_row results = map feature_row processes.
Proof.
  intros Hlen. exists (map (set_verdict false 0%Q) processes).
  unfold detect.
  destruct (Nat.ltb_spec (length processes) 10) as [_ | Hge]; [| lia].
  split; [reflexivity |].
  split; [apply length_map |].
  split.
  - intros r Hr. apply in_map_iff in Hr. destruct Hr as (p & <- & _).
    split; reflexivity.
  - rewrite map_map. apply map_ext. intros p. reflexivity.
Qed.

End AnalyzerProps.

Lemma detect_small_batch_witness :
  let p := {| Analyzer.pid := 1; Analyzer.name := "stress";
              Analyzer.cpu := 99%Q; Analyzer.memory := 80%Q;
              Analyzer.threads := 400; Analyzer.nice := -20;
              Analyzer.anomaly := None; Analyzer.score := None |} in
  exists results,
    Analyzer.detect unit (fun m X => (m, map (fun _ => -1) X))
      (fun m X => map (fun _ => (-1 # 2)%Q) X) tt (repeat p 9)
      = (tt, [], Ok results)
    /\ length results = 9%nat
    /\ (forall r, In r results ->
          Analyzer.anomaly r = Some false /\ Analyzer.score r = Some 0%Q)
    /\ map Analyzer.feature_row results = map Analyzer.feature_row (repeat p 9).
Proof.
  intros p.
  apply (detect_small_batch unit (fun m X => (m, map (fun _ => -1) X))
           (fun m X => map (fun _ => (-1 # 2)%Q) X) tt (repeat p 9)).
  simpl. lia.
Defined.

Section DetectorProps.
Import Detector.

Variable predict : list (list Q) -> list Z.
Variable decision_function : list (list Q) -> list Q.
Variable rng : Type.
Variable random : rng -> Q * rng.
Variable random_rate : Q.

Abbreviation detect_one := (detect_one random_rate).
Abbreviation detect_loop := (detect_loop rng random random_rate).
Abbreviation detect_with_source :=
  (detect_with_source predict decision_function rng random random_rate).
Abbreviation detect := (detect predict decision_function rng random random_rate).

Lemma detect_one_consistent (p : process) (pred : Z) (sc draw : Q) :
  source_consistent p (fst (detect_one p pred sc draw))
                      (snd (detect_one p pred sc draw)).
Proof.
  unfold source_consistent, detect_one.
  cbn -[Qltb cpu_comment memory_comment threads_comment Z.eqb].
  destruct (pred =? -1), (Qltb draw random_rate);
    cbn -[cpu_comment memory_comment threads_comment];
    (split; [tauto |]);
    (split; [try reflexivity; discriminate |]);
    (split; [split; try reflexivity; discriminate |]);
    (split; [discriminate |]);
    eexists; (split; [reflexivity |]); tauto.
Qed.

Lemma detect_loop_consistent (processes : list process) :
  forall i preds scores g rs g',
    detect_loop i processes preds scores g = Ok (rs, g') ->
    length rs = length processes
    /\ forall s r, In (s, r) rs ->
         exists p, In p processes /\ source_consistent p s r.
Proof.
  induction processes as [| p rest IH]; intros i preds scores g rs g' H.
  - injection H as <- <-. split; [reflexivity | intros s r []].
  - cbn [Detector.detect_loop] in H.
    destruct (preds !! i) as [pred |]; [| discriminate].
    destruct (random g) as [draw g1].
    destruct (scores !! i) as [sc |]; [| discriminate].
    destruct (detect_loop (S i) rest preds scores g1) as [[rs1 g2] |] eqn:E;
      [| discriminate].
    cbn [py_bind] in H. injection H as <- <-.
    destruct (IH _ _ _ _ _ _ E) as [Hlen Hall].
    split; [cbn; now rewrite Hlen |].
    intros s r [Heq | Hin].
    + exists p. split; [now left |].
      pose proof (detect_one_consistent p pred sc draw) as Hc.
      rewrite Heq in Hc. exact Hc.
    + destruct (Hall s r Hin) as (q & Hq & Hc).
      exists q. split; [now right | exact Hc].
Qed.

Lemma detect_loop_total (processes : list process) :
  forall i preds scores g,
    (i + length processes <= length preds)%nat ->
    (i + length processes <= length scores)%nat ->
    exists rs g', detect_loop i processes preds scores g = Ok (rs, g').
Proof.
  induction processes as [| p rest IH]; intros i preds scores g Hp Hs.
  - eexists _, _. reflexivity.
  - cbn [length] in Hp, Hs. cbn [Detector.detect_loop].
    destruct (lookup_lt_is_Some_2 preds i ltac:(lia)) as [pred ->].
    destruct (random g) as [draw g1].
    destruct (lookup_lt_is_Some_2 scores i ltac:(lia)) as [sc ->].
    destruct (IH (S i) preds scores g1 ltac:(lia) ltac:(lia)) as (rs & g2 & ->).
    eexists _, _. reflexivity.
Qed.

(** C4. When the model answers for every process of the batch, [detect]
    returns one result per process; and every result it returns was built
    with exactly one of the sources [model], [random], [normal], with
    [anomaly] true when the source is [model], with source [normal]
    exactly when [anomaly] is false, and with four reasons in the order
    cpu comment, memory comment, thread comment, attribution of the
    source. *)
Theorem detect_source_invariant (processes : list process) (g : rng) :
  (length (predict (map features processes)) = length processes ->
   length (decision_function (map features processes)) = length processes ->
   exists rs g', detect_with_source processes g = Ok (rs, g'))
  /\ forall rs g',
       detect_with_source processes g = Ok (rs, g') ->
       detect processes g = Ok (map snd rs, g')
       /\ length rs = length processes
       /\ forall s r, In (s, r) rs ->
            exists p, In p processes /\ source_consistent p s r.
Proof.
  split.
  - intros Hp Hs. apply detect_loop_total; cbn; lia.
  - intros rs g' H. split.
    + unfold Detector.detect. rewrite H. reflexivity.
    + exact (detect_loop_consistent _ _ _ _ _ _ _ H).
Qed.

End DetectorProps.

(** [AnomalyDetector.detect] of [detector.py] has no size threshold: on a
    batch of nine processes it asks the model as on any other batch, and
    with a model that predicts [-1] with score [-0.2] every one of the
    nine results is an anomaly with that score. *)
Lemma detector_detect_asks_model_on_small_batch :
  let p := {| Detector.pid := 7; Detector.name := "sshd"; Detector.cpu := 2%Q;
              Detector.memory := 1%Q; Detector.threads := 4; Detector.nice := 0;
              Detector.features := [2%Q; 1%Q; 4%Q; 0%Q] |} in
  exists rs,
    Detector.detect (fun X => map (fun _ => -1) X)
      (fun X => map (fun _ => (-1 # 5)%Q) X) nat
      (fun n => ((1 # 2)%Q, S n)) (3 # 100)%Q (repeat p 9) 0%nat
    = Ok (rs, 9%nat)
    /\ length rs = 9%nat
    /\ forall r, In r rs ->
         Detector.anomaly r = true /\ Detector.score r = (-1 # 5)%Q.
Proof.
  cbv zeta. eexists. split; [vm_compute; reflexivity |].
  split; [reflexivity |].
  intros r Hr.
  repeat (destruct Hr as [<- | Hr]; [split; reflexivity |]).
  destruct Hr.
Qed.

Lemma detect_source_invariant_witness :
  let p := {| Detector.pid := 7; Detector.name := "sshd"; Detector.cpu := 2%Q;
              Detector.memory := 1%Q; Detector.threads := 4; Detector.nice := 0;
              Detector.features := [2%Q; 1%Q; 4%Q; 0%Q] |} in
  let predict := fun X : list (list Q) => map (fun _ => 1) X in
  let decision_function := fun X : list (list Q) => map (fun _ => (1 # 10)%Q) X in
  let random := fun n : nat => ((1 # 100)%Q, S n) in
  exists rs,
    Detector.detect_with_source predict decision_function nat random (3 # 100)%Q
      [p] 0%nat = Ok (rs, 1%nat)
    /\ map fst rs = ["random"]
    /\ forall s r, In (s, r) rs ->
         exists q, In q [p] /\ Detector.source_consistent q s r.
Proof.
  intros p predict decision_function random.
  eexists. split; [reflexivity |]. split; [reflexivity |].
  apply (proj2 (detect_source_invariant predict decision_function nat random
                  (3 # 100)%Q [p] 0%nat) _ 1%nat eq_refl).
Defined.

(** ** Label store *)

Section LabelStore.
Import LabelManager.

Implicit Types (lm : label_manager) (pid : Z) (label tag : string).

Lemma save_labels_db lm now : labels_db (save_labels lm now) = labels_db lm.
Proof. reflexivity. Qed.

(** The database after [add_label]. *)
Lemma add_label_lookup lm pid label note now pid' :
  labels_db (snd (add_label lm pid label note now)) !! pid' =
  if decide (pid = pid') then
    Some {| tags := get_process_labels lm pid ∪ {[label]};
            notes := if note_truthy note then default "" note
                     else match labels_db lm !! pid with
                          | Some info => notes info
                          | None => ""
                          end;
            last_updated := now |}
  else labels_db lm !! pid'.
Proof.
  unfold add_label, get_process_labels. cbn [snd].
  rewrite save_labels_db. cbn [labels_db with_labels_db].
  destruct (decide (pid = pid')) as [<- | Hne].
  - destruct (labels_db lm !! pid) as [info |] eqn:E;
      destruct (note_truthy note); simplify_map_eq; reflexivity.
  - destruct (labels_db lm !! pid) as [info |] eqn:E;
      destruct (note_truthy note); simplify_map_eq; reflexivity.
Qed.

(** The database after a [remove_label] that finds the label. *)
Lemma remove_label_lookup lm pid label now info pid' :
  labels_db lm !! pid = Some info ->
  label ∈ tags info ->
  fst (remove_label lm pid label now) = true
  /\ labels_db (snd (remove_label lm pid label now)) !! pid' =
     if decide (pid = pid') then
       if decide (tags info ∖ {[label]} = ∅) then None
       else Some {| tags := tags info ∖ {[label]}; notes := notes info;
                    last_updated := now |}
     else labels_db lm !! pid'.
Proof.
  intros Hdb Hin. unfold remove_label. rewrite Hdb.
  rewrite bool_decide_eq_true_2 by exact Hin.
  split; [reflexivity |]. cbn [snd].
  rewrite save_labels_db. cbn [labels_db with_labels_db].
  rewrite !lookup_alter_eq, Hdb. cbn [fmap option_fmap option_map tags discard_tag set_last_updated].
  destruct (decide (pid = pid')) as [<- | Hne].
  - destruct (decide (tags info ∖ {[label]} = ∅)) as [He | Hn].
    + rewrite bool_decide_eq_true_2 by exact He. apply lookup_delete_eq.
    + rewrite bool_decide_eq_false_2 by exact Hn.
      rewrite !lookup_alter_eq, Hdb. reflexivity.
  - destruct (bool_decide (tags info ∖ {[label]} = ∅)).
    + rewrite lookup_delete_ne by exact Hne.
      rewrite !lookup_alter_ne by exact Hne. reflexivity.
    + rewrite !lookup_alter_ne by exact Hne. reflexivity.
Qed.

Lemma search_by_tag_In lm tag pid :
  In pid (search_by_tag lm tag) <->
  exists info, labels_db lm !! pid = Some info /\ tag ∈ tags info.
Proof.
  unfold search_by_tag. rewrite in_map_iff. split.
  - intros ([k info] & <- & Hf). apply filter_In in Hf. destruct Hf as [Hl Hb].
    apply list_elem_of_In, elem_of_map_to_list in Hl.
    apply bool_decide_eq_true_1 in Hb. exists info. split; assumption.
  - intros (info & Hl & Ht). exists (pid, info). split; [reflexivity |].
    apply filter_In. split.
    + apply list_elem_of_In, elem_of_map_to_list. exact Hl.
    + apply bool_decide_eq_true_2. exact Ht.
Qed.

Lemma get_process_labels_singleton lm pid tag :
  get_process_labels lm pid = {[tag]} ->
  exists info, labels_db lm !! pid = Some info /\ tags info = {[tag]}.
Proof.
  unfold get_process_labels. destruct (labels_db lm !! pid) as [info |].
  - intros H. exists info. split; [reflexivity | exact H].
  - intros H. exfalso. apply (not_elem_of_empty (C:=gset string) tag).
    rewrite H. apply elem_of_singleton. reflexivity.
Qed.

(** C6. After [add_label pid tag] the labels of [pid] contain [tag]; and
    when [tag] is the only label of [pid], [remove_label pid tag] succeeds,
    leaves [pid] with the empty label set and [search_by_tag] returns [pid]
    for no tag. *)
Theorem add_then_remove_only_label lm pid tag note now :
  tag ∈ get_process_labels (snd (add_label lm pid tag note now)) pid
  /\ (get_process_labels lm pid = {[tag]} ->
      fst (remove_label lm pid tag now) = true
      /\ get_process_labels (snd (remove_label lm pid tag now)) pid = ∅
      /\ labels_db (snd (remove_label lm pid tag now)) !! pid = None
      /\ forall t, ~ In pid (search_by_tag (snd (remove_label lm pid tag now)) t)).
Proof.
  split.
  - unfold get_process_labels at 1. rewrite add_label_lookup.
    rewrite decide_True by reflexivity. cbn [tags]. set_solver.
  - intros Hone.
    destruct (get_process_labels_singleton _ _ _ Hone) as (info & Hdb & Htags).
    assert (Hin : tag ∈ tags info)
      by (rewrite Htags; apply elem_of_singleton; reflexivity).
    assert (Hempty : tags info ∖ {[tag]} = ∅)
      by (rewrite Htags; apply difference_diag_L).
    destruct (remove_label_lookup lm pid tag now info pid Hdb Hin) as [Hret Hlk].
    rewrite decide_True in Hlk by reflexivity.
    rewrite decide_True in Hlk by exact Hempty.
    split; [exact Hret |].
    split; [unfold get_process_labels; now rewrite Hlk |].
    split; [exact Hlk |].
    intros t Hs. apply search_by_tag_In in Hs.
    destruct Hs as (info' & Hl & _). congruence.
Qed.

Lemma add_then_remove_only_label_witness :
  let lm := snd (add_label (init Missing) 42 "monitor_closely" None "t0") in
  get_process_labels lm 42 = {["monitor_closely"]}
  /\ fst (remove_label lm 42 "monitor_closely" "t1") = true
  /\ get_process_labels (snd (remove_label lm 42 "monitor_closely" "t1")) 42 = ∅.
Proof.
  intros lm.
  assert (H : get_process_labels lm 42 = {["monitor_closely"]})
    by (vm_compute; reflexivity).
  split; [exact H |].
  destruct (proj2 (add_then_remove_only_label lm 42 "monitor_closely" None "t1") H)
    as (H1 & H2 & _).
  split; [exact H1 | exact H2].
Defined.

(** C7. [add_label] and [remove_label] keep the label store free of records
    with an empty tag set: the record [add_label] touches holds the added
    tag, and [remove_label] deletes the record whose last tag it removes. *)
Theorem nonempty_tags_preserved lm pid tag note now :
  nonempty_tags lm ->
  nonempty_tags (snd (add_label lm pid tag note now))
  /\ nonempty_tags (snd (remove_label lm pid tag now))
  /\ (forall info,
        labels_db lm !! pid = Some info -> tag ∈ tags info ->
        tags info ∖ {[tag]} = ∅ ->
        labels_db (snd (remove_label lm pid tag now)) !! pid = None).
Proof.
  intros Hinv. split; [| split].
  - intros pid' info' Hl. rewrite add_label_lookup in Hl.
    destruct (decide (pid = pid')) as [<- | Hne].
    + injection Hl as <-. cbn [tags]. set_solver.
    + exact (Hinv pid' info' Hl).
  - destruct (labels_db lm !! pid) as [info |] eqn:Hdb.
    + destruct (decide (tag ∈ tags info)) as [Hin | Hnin].
      * intros pid' info' Hl.
        destruct (remove_label_lookup lm pid tag now info pid' Hdb Hin) as [_ Hlk].
        rewrite Hlk in Hl.
        destruct (decide (pid = pid')) as [<- | Hne].
        -- destruct (decide (tags info ∖ {[tag]} = ∅)) as [He | Hn];
             [discriminate |].
           injection Hl as <-. exact Hn.
        -- exact (Hinv pid' info' Hl).
      * unfold remove_label. rewrite Hdb.
        rewrite bool_decide_eq_false_2 by exact Hnin. exact Hinv.
    + unfold remove_label. rewrite Hdb. exact Hinv.
  - intros info Hdb Hin Hempty.
    destruct (remove_label_lookup lm pid tag now info pid Hdb Hin) as [_ Hlk].
    rewrite Hlk, decide_True by reflexivity.
    rewrite decide_True by exact Hempty. reflexivity.
Qed.

Lemma nonempty_tags_preserved_witness :
  let lm := snd (add_label (init Missing) 42 "monitor_closely" None "t0") in
  nonempty_tags lm
  /\ nonempty_tags (snd (add_label lm 42 "experimental" (Some "canary") "t1"))
  /\ nonempty_tags (snd (remove_label lm 42 "monitor_closely" "t1")).
Proof.
  intros lm.
  assert (H : nonempty_tags lm).
  { apply (proj1 (nonempty_tags_preserved (init Missing) 42 "monitor_closely"
                    None "t0" (map_Forall_empty _))). }
  split; [exact H |].
  split.
  - apply (proj1 (nonempty_tags_preserved lm 42 "experimental" (Some "canary")
                    "t1" H)).
  - apply (proj1 (proj2 (nonempty_tags_preserved lm 42 "monitor_closely" None
                           "t1" H))).
Defined.

(** C10. A result whose [pid] is falsy, 0 in particular, gets the empty
    label list and the flag [False] from [merge_with_classification],
    whatever the store holds for that pid: the test is the truth value of
    the pid, not its membership in the store. *)
Theorem merge_treats_pid_zero_as_absent {R : Type}
    (get_pid : R -> option pid_value) lm (results : list R) :
  pid_truthy (Some (PidInt 0)) = false
  /\ map result (merge_with_classification get_pid lm results) = results
  /\ forall m,
       In m (merge_with_classification get_pid lm results) ->
       pid_truthy (get_pid (result m)) = false ->
       manual_labels m = [] /\ has_manual_labels m = false.
Proof.
  split; [reflexivity |]. split.
  - unfold merge_with_classification. rewrite map_map.
    rewrite <- (map_id results) at 2. apply map_ext.
    intros r. unfold merge_one. destruct (pid_truthy (get_pid r)); reflexivity.
  - intros m Hm Hf. unfold merge_with_classification in Hm.
    apply in_map_iff in Hm. destruct Hm as (r & <- & _).
    unfold merge_one in *.
    destruct (pid_truthy (get_pid r)) eqn:E; cbn [result] in *.
    + cbn [result] in Hf. congruence.
    + split; reflexivity.
Qed.

Lemma merge_treats_pid_zero_as_absent_witness :
  let lm := snd (add_label (init Missing) 0 "high_priority" None "t0") in
  get_process_labels lm 0 = {["high_priority"]}
  /\ forall m,
       In m (merge_with_classification
               (fun r : option pid_value * string => fst r) lm
               [(Some (PidInt 0), "swapper")]) ->
       manual_labels m = [] /\ has_manual_labels m = false.
Proof.
  intros lm. split; [vm_compute; reflexivity |].
  intros m Hm.
  apply (proj2 (proj2 (merge_treats_pid_zero_as_absent
                         (fun r : option pid_value * string => fst r) lm
                         [(Some (PidInt 0), "swapper")])) m Hm).
  destruct Hm as [<- | []]. reflexivity.
Defined.

(** *** Persistence *)

(** [int(str(pid))] is [pid]: the numeral [str] writes has no white
    space, no underscore and no [+]. *)
Lemma string_of_uint_digits (d : Decimal.uint) :
  Forall (fun c => is_digit c = true) (list_ascii_of_string (NilEmpty.string_of_uint d)).
Proof. induction d; cbn; auto. Qed.

Lemma is_digit_not_space c : is_digit c = true -> is_space c = false.
Proof.
  unfold is_digit, is_space. cbv zeta.
  destruct (48 <=? nat_of_ascii c)%nat eqn:E1; [| discriminate].
  intros _. apply Nat.leb_le in E1.
  destruct (Nat.leb_spec (nat_of_ascii c) 13), (Nat.eqb_spec (nat_of_ascii c) 32);
    try lia; rewrite ?andb_false_r; reflexivity.
Qed.

Lemma rstrip_no_space s :
  Forall (fun c => is_space c = false) (list_ascii_of_string s) -> rstrip s = s.
Proof.
  induction s as [| c rest IH]; [reflexivity |].
  intros H. apply Forall_cons_1 in H. destruct H as [Hc Hrest].
  cbn [rstrip]. rewrite (IH Hrest).
  destruct rest; [| reflexivity].
  now rewrite Hc.
Qed.

Lemma numeral_digits_digits s :
  Forall (fun c => is_digit c = true) (list_ascii_of_string s) -> s <> "" ->
  forall b, numeral_digits b s = Some s.
Proof.
  induction s as [| c rest IH]; [congruence |].
  intros H _ b. apply Forall_cons_1 in H. destruct H as [Hc Hrest].
  cbn [numeral_digits]. rewrite Hc.
  destruct rest as [| c' rest'].
  - reflexivity.
  - rewrite (IH Hrest); [reflexivity | discriminate].
Qed.

Lemma py_int_numeral (negative : bool) (d : Decimal.uint) :
  d <> Decimal.Nil ->
  py_int (NilZero.string_of_int
            (if negative then Decimal.Neg d else Decimal.Pos d))
  = Ok (Z.of_int (if negative then Decimal.Neg d else Decimal.Pos d)).
Proof.
  intros Hd.
  assert (Hs : NilZero.string_of_uint d = NilEmpty.string_of_uint d)
    by (destruct d; [contradiction | reflexivity ..]).
  pose proof (string_of_uint_digits d) as Hdig.
  assert (Hne : NilEmpty.string_of_uint d <> "")
    by (destruct d; [contradiction | discriminate ..]).
  pose proof (NilZero.usu d Hd) as Hu. rewrite Hs in Hu.
  set (ds := NilEmpty.string_of_uint d) in *.
  assert (Hsp : Forall (fun c => is_space c = false) (list_ascii_of_string ds)).
  { eapply Forall_impl; [exact Hdig | exact is_digit_not_space]. }
  pose proof (numeral_digits_digits ds Hdig Hne false) as Hn.
  unfold py_int. destruct negative; cbn [NilZero.string_of_int]; rewrite Hs.
  - change (lstrip (String "-" ds)) with (String "-" ds).
    rewrite (rstrip_no_space (String "-" ds))
      by (apply Forall_cons_2; [reflexivity | exact Hsp]).
    cbn [Ascii.eqb Bool.eqb]. rewrite Hn, Hu. reflexivity.
  - destruct ds as [| c rest] eqn:E; [congruence |].
    apply Forall_cons_1 in Hdig. destruct Hdig as [Hc _].
    cbn [lstrip]. rewrite (is_digit_not_space c Hc).
    rewrite (rstrip_no_space _ Hsp).
    assert (Hminus : Ascii.eqb c "-" = false)
      by (apply Ascii.eqb_neq; intros ->; discriminate).
    assert (Hplus : Ascii.eqb c "+" = false)
      by (apply Ascii.eqb_neq; intros ->; discriminate).
    rewrite Hminus, Hplus, Hn, Hu. reflexivity.
Qed.

Lemma py_int_py_str (z : Z) : py_int (py_str z) = Ok z.
Proof.
  unfold py_str.
  destruct z as [| p | p].
  - reflexivity.
  - cbn [Z.to_int].
    rewrite (py_int_numeral false (Pos.to_uint p)
               (DecimalPos.Unsigned.to_uint_nonnil p)).
    change (Decimal.Pos (Pos.to_uint p)) with (Z.to_int (Zpos p)).
    now rewrite DecimalZ.of_to.
  - cbn [Z.to_int].
    rewrite (py_int_numeral true (Pos.to_uint p)
               (DecimalPos.Unsigned.to_uint_nonnil p)).
    change (Decimal.Neg (Pos.to_uint p)) with (Z.to_int (Zneg p)).
    now rewrite DecimalZ.of_to.
Qed.

Lemma load_save_record (info : label_record) :
  load_record (save_record info) = info.
Proof.
  destruct info as [t n u]. unfold load_record, save_record. cbn.
  now rewrite list_to_set_elements_L.
Qed.

(** Loading what [save_labels] wrote never raises and inserts the records
    back in the order of the document. *)
Lemma load_items_saved (l : list (Z * label_record)) :
  forall db,
    load_items (map (fun kv => (py_str (fst kv), save_record (snd kv))) l) db
    = Ok (fold_left (fun m kv => <[fst kv := snd kv]> m) l db).
Proof.
  induction l as [| [k v] l IH]; intros db; [reflexivity |].
  cbn [map load_items fst snd fold_left].
  rewrite py_int_py_str. cbn [py_bind].
  rewrite load_save_record. apply IH.
Qed.

Lemma fold_left_insert_map_to_list (m : gmap Z label_record) :
  fold_left (fun m kv => <[fst kv := snd kv]> m) (map_to_list m) ∅ = m.
Proof.
  rewrite <- (fold_left_rev_right (fun kv m => <[fst kv := snd kv]> m)).
  change (list_to_map (rev (map_to_list m)) = m).
  rewrite <- (list_to_map_to_list m) at 2.
  apply list_to_map_proper.
  - apply NoDup_ListNoDup. change (List.NoDup (map fst (rev (map_to_list m)))).
    rewrite map_rev. apply List.NoDup_rev, NoDup_ListNoDup.
    apply NoDup_fst_map_to_list.
  - symmetry. apply Permutation_rev.
Qed.

(** C8. Loading the document written by [save_labels], into the same
    manager or into a fresh one opened on the file, gives back the database
    that was saved: the same pids, and for each pid the same tag set and
    the same note (and the same timestamp). *)
Theorem save_then_load_roundtrip lm now :
  let reloaded := load_labels (save_labels lm now) in
  let reopened := init (storage_file (save_labels lm now)) in
  labels_db reloaded = labels_db lm
  /\ labels_db reopened = labels_db lm
  /\ dom (labels_db reloaded) = dom (labels_db lm)
  /\ (forall pid, get_process_labels reloaded pid = get_process_labels lm pid)
  /\ (forall pid,
        notes <$> (labels_db reloaded !! pid) = notes <$> (labels_db lm !! pid)).
Proof.
  intros reloaded reopened.
  assert (H1 : labels_db reloaded = labels_db lm).
  { subst reloaded. unfold load_labels, save_labels.
    cbn -[load_items map_to_list map].
    rewrite load_items_saved, fold_left_insert_map_to_list. reflexivity. }
  assert (H2 : labels_db reopened = labels_db lm).
  { subst reopened. unfold init, load_labels, save_labels.
    cbn -[load_items map_to_list map].
    rewrite load_items_saved, fold_left_insert_map_to_list. reflexivity. }
  split; [exact H1 |]. split; [exact H2 |].
  split; [now rewrite H1 |].
  split; intros pid.
  - unfold get_process_labels. now rewrite H1.
  - now rewrite H1.
Qed.

End LabelStore.

(** ** Classification *)

Section WorkedExample.
Import ProcessClassifier ApiServer.

Lemma batch_classify_sshd :
  batch_classify init [sshd_sample] =
  Ok [ (PidStr "N/A",
        {| ProcessClassifier.category := "network_services";
           tags := ["low_resource"];
           confidence := py_round2 (inject_Z 1 / inject_Z 1);
           ProcessClassifier.cpu_usage := 2%Q;
           ProcessClassifier.memory_usage := 1%Q;
           process_name := "sshd" |}) ].
Proof. vm_compute. reflexivity. Qed.

Lemma classify_and_tag_sshd (lm : LabelManager.label_manager) :
  exists v,
    classify_and_tag init lm [sshd_sample] = Ok [v]
    /\ ProcessClassifier.category (classified v) = "network_services"
    /\ tags (classified v) = ["low_resource"]
    /\ (confidence (classified v) == 1)%Q
    /\ user_labels (info v) = Some []
    /\ color (hint v) = "blue"
    /\ priority (hint v) = 5.
Proof.
  unfold classify_and_tag. rewrite batch_classify_sshd.
  cbn [py_bind map]. eexists. split; [reflexivity |].
  cbn [classified info hint]. unfold attach_labels.
  cbn [fst snd pid_truthy LabelManager.labels_of].
  assert (He : elements (∅ : gset string) = []) by apply elements_empty.
  cbn [negb String.eqb Ascii.eqb Bool.eqb]. rewrite He.
  repeat split; reflexivity.
Qed.

(** C2, as stated, fails: the tags of the worked example are not free of
    the resource tags, [low_resource] is among them. *)
Lemma sshd_example_is_tagged_low_resource :
  ~ (exists v,
       classify_and_tag init (LabelManager.init LabelManager.Missing)
         [sshd_sample] = Ok [v]
       /\ ProcessClassifier.category (classified v) = "network_services"
       /\ (forall t,
             In t ["low_resource"; "cpu_intensive"; "memory_intensive";
                   "stable_process"] ->
             ~ In t (tags (classified v)))
       /\ color (hint v) = "blue"
       /\ priority (hint v) = 5).
Proof.
  intros (v & Hv & _ & Hnone & _).
  destruct (classify_and_tag_sshd (LabelManager.init LabelManager.Missing))
    as (v' & Hv' & _ & Htags & _).
  rewrite Hv in Hv'. injection Hv' as ->.
  apply (Hnone "low_resource").
  - left. reflexivity.
  - rewrite Htags. left. reflexivity.
Qed.

(** C2, amended. For the sample [sshd] with cpu 2, memory 1, threads 4 and
    nice 0, and whatever the label store holds, the category is
    [network_services] with confidence 1, none of the four branches of the
    resource step fires, the performance predicate [low_resource]
    (cpu < 5 and memory < 5) adds its tag so that the tags are exactly
    [low_resource], no manual label is attached, the colour is [blue] and
    the priority is 5. *)
Theorem sshd_example (lm : LabelManager.label_manager) :
  resource_pattern 2 1 [("network_services", 1)] []
    = ([("network_services", 1)], [])
  /\ exists v,
       classify_and_tag init lm [sshd_sample] = Ok [v]
       /\ ProcessClassifier.category (classified v) = "network_services"
       /\ (confidence (classified v) == 1)%Q
       /\ tags (classified v) = ["low_resource"]
       /\ ~ In "cpu_intensive" (tags (classified v))
       /\ ~ In "memory_intensive" (tags (classified v))
       /\ ~ In "stable_process" (tags (classified v))
       /\ user_labels (info v) = Some []
       /\ color (hint v) = "blue"
       /\ priority (hint v) = 5.
Proof.
  split; [reflexivity |].
  destruct (classify_and_tag_sshd lm) as (v & Hv & Hc & Ht & Hq & Hl & Hcol & Hp).
  exists v. rewrite Ht.
  repeat split; try assumption; try reflexivity;
    intros [H | []]; discriminate H.
Qed.

End WorkedExample.

(** *** Malformed custom rules *)

Section MalformedRules.
Import ProcessClassifier ApiServer.

(** A rule without keywords matches nothing and is passed over silently. *)
Lemma rule_without_keywords_never_fires (r : rule) name cpu memory :
  keywords r = None -> _match_rule r name cpu memory = false.
Proof. intros H. unfold _match_rule. rewrite H. reflexivity. Qed.

(** The first matching rule without a category ends the classification
    with [KeyError]. *)
Lemma rule_without_category_raises (rules : list rule) name cpu memory :
  forall scores,
    (exists r, In r rules /\ rule_category r = None
               /\ _match_rule r name cpu memory = true) ->
    apply_custom_rules rules name cpu memory scores = Raise (KeyError "category").
Proof.
  induction rules as [| r rest IH]; intros scores (r0 & Hin & Hc & Hm).
  - destruct Hin.
  - cbn [apply_custom_rules].
    destruct (_match_rule r name cpu memory) eqn:Em.
    + destruct (rule_category r) as [c |] eqn:Ec; [| reflexivity].
      apply IH. exists r0. destruct Hin as [-> | Hin]; [congruence |].
      repeat split; assumption.
    + apply IH. exists r0. destruct Hin as [-> | Hin]; [congruence |].
      repeat split; assumption.
Qed.

(** C5, failing input. With the single custom rule
    [{'keywords': ['ssh'], 'weight': 1}], which lacks [category],
    classifying [sshd] does not return: [_match_rule] accepts the rule and
    the subscript [rule['category']] raises [KeyError]. *)
Theorem malformed_rule_is_fatal :
  let r := {| rule_category := None; keywords := Some ["ssh"];
              cpu_threshold := None; memory_threshold := None;
              weight := Some 1 |} in
  _match_rule r "sshd" 2 1 = true
  /\ classify_process (with_custom_rules [r] init) "sshd" 2 1
     = Raise (KeyError "category")
  /\ batch_classify (with_custom_rules [r] init) [sshd_sample]
     = Raise (KeyError "category").
Proof. cbv zeta. repeat split; vm_compute; reflexivity. Qed.

End MalformedRules.

(** *** Score tables *)

Section ScoreTable.
Import ProcessClassifier.

Implicit Types (d : list (string * Z)) (k : string) (v w : Z).

Lemma dict_get_In d k v : dict_get k d = Some v -> In (k, v) d.
Proof.
  induction d as [| [k' v'] d IH]; cbn; [discriminate |].
  destruct (String.eqb_spec k' k) as [-> | Hne].
  - intros [= ->]. now left.
  - intros H. right. now apply IH.
Qed.

Lemma dict_get_None d k : dict_get k d = None -> ~ In k (map fst d).
Proof.
  induction d as [| [k' v'] d IH]; cbn; [tauto |].
  destruct (String.eqb_spec k' k) as [-> | Hne]; [discriminate |].
  intros H [Heq | Hin]; [congruence | now apply IH].
Qed.

Lemma dict_get_NoDup d k v :
  List.NoDup (map fst d) -> In (k, v) d -> dict_get k d = Some v.
Proof.
  induction d as [| [k' v'] d IH]; cbn; [tauto |].
  intros Hnd Hin. inversion Hnd as [| ? ? Hnotin Hnd']; subst.
  destruct (String.eqb_spec k' k) as [-> | Hne].
  - destruct Hin as [[= ->] | Hin]; [reflexivity |].
    exfalso. apply Hnotin. apply (in_map fst) in Hin. exact Hin.
  - destruct Hin as [[= -> _] | Hin]; [congruence | now apply IH].
Qed.

Lemma dict_set_present d k v :
  In k (map fst d) -> map fst (dict_set k v d) = map fst d.
Proof.
  induction d as [| [k' v'] d IH]; cbn; [tauto |].
  destruct (String.eqb_spec k' k) as [-> | Hne]; [reflexivity |].
  intros [Heq | Hin]; [congruence |]. cbn. f_equal. now apply IH.
Qed.

Lemma dict_set_absent d k v :
  ~ In k (map fst d) -> dict_set k v d = (d ++ [(k, v)])%list.
Proof.
  induction d as [| [k' v'] d IH]; cbn; [reflexivity |].
  intros Hnin. destruct (String.eqb_spec k' k) as [-> | Hne]; [tauto |].
  f_equal. apply IH. tauto.
Qed.

Lemma dict_set_In d k v k' v' :
  In (k', v') (dict_set k v d) -> (k' = k /\ v' = v) \/ In (k', v') d.
Proof.
  induction d as [| [k0 v0] d IH]; cbn.
  - intros [[= <- <-] | []]. now left.
  - destruct (String.eqb_spec k0 k) as [-> | Hne]; cbn.
    + intros [[= <- <-] | Hin]; [now left | right; now right].
    + intros [Heq | Hin]; [right; now left |].
      destruct (IH Hin) as [? | ?]; [now left | right; now right].
Qed.

Lemma table_ok_nil K : table_ok K [].
Proof.
  split; [constructor |]. split; [intros k [] | intros k v []].
Qed.

Lemma bump_ok K d k w :
  table_ok K d -> In k K -> 1 <= w -> table_ok K (bump k w d).
Proof.
  intros (Hnd & Hincl & Hpos) Hk Hw. unfold bump.
  destruct (dict_get k d) as [v0 |] eqn:Eg; cbn [from_option id].
  - assert (Hin : In k (map fst d)).
    { apply dict_get_In in Eg. apply (in_map fst) in Eg. exact Eg. }
    split; [| split].
    + now rewrite dict_set_present.
    + now rewrite dict_set_present.
    + intros k' v' Hin'. apply dict_set_In in Hin'.
      destruct Hin' as [[-> ->] | Hin']; [| eauto].
      apply dict_get_In, Hpos in Eg. lia.
  - apply dict_get_None in Eg. rewrite dict_set_absent by exact Eg.
    split; [| split].
    + rewrite map_app. cbn. apply NoDup_ListNoDup, NoDup_app.
      split; [apply NoDup_ListNoDup, Hnd |].
      split; [| apply NoDup_singleton].
      intros x Hx Hx'. apply list_elem_of_In in Hx.
      apply list_elem_of_singleton in Hx'. subst. tauto.
    + rewrite map_app. cbn. intros x Hx. apply in_app_iff in Hx.
      destruct Hx as [Hx | [<- | []]]; [now apply Hincl | exact Hk].
    + intros k' v' Hin'. apply in_app_iff in Hin'.
      destruct Hin' as [Hin' | [[= <- <-] | []]]; [eauto | lia].
Qed.

Section Steps.
Variables (K : list string) (name : string) (cpu memory : Q).

Lemma match_keywords_ok category kws :
  In category K ->
  forall d, table_ok K d -> table_ok K (match_keywords category kws name d).
Proof.
  intros Hc. induction kws as [| kw rest IH]; intros d Hd; [exact Hd |].
  cbn [match_keywords]. apply IH.
  destruct (contains (lower kw) (lower name)); [| exact Hd].
  apply bump_ok; [exact Hd | exact Hc | lia].
Qed.

Lemma match_names_ok categories :
  incl (map fst categories) K ->
  forall d, table_ok K d -> table_ok K (match_names categories name d).
Proof.
  induction categories as [| [category kws] rest IH]; intros Hincl d Hd;
    [exact Hd |].
  cbn [match_names]. apply IH.
  - intros x Hx. apply Hincl. now right.
  - apply match_keywords_ok; [apply Hincl; now left | exact Hd].
Qed.

Lemma resource_pattern_ok d suggested :
  In "idle_process" K -> In "cpu_intensive" K -> table_ok K d ->
  table_ok K (fst (resource_pattern cpu memory d suggested)).
Proof.
  intros Hi Hc Hd. unfold resource_pattern.
  repeat match goal with |- context [if ?b then _ else _] => destruct b end;
    cbn [fst]; try exact Hd; apply bump_ok; try assumption; lia.
Qed.

Lemma apply_custom_rules_ok rules :
  forallb rule_ok rules = true ->
  incl (rule_categories rules) K ->
  forall d, table_ok K d ->
  exists d', apply_custom_rules rules name cpu memory d = Ok d' /\ table_ok K d'.
Proof.
  induction rules as [| r rest IH]; intros Hok Hincl d Hd.
  - exists d. split; [reflexivity | exact Hd].
  - cbn [forallb] in Hok. apply andb_true_iff in Hok. destruct Hok as [Hr Hrest].
    unfold rule_ok in Hr. apply andb_true_iff in Hr. destruct Hr as [Hcat Hw].
    cbn [rule_categories] in Hincl. cbn [apply_custom_rules].
    destruct (rule_category r) as [c |]; [| discriminate].
    assert (Hincl' : incl (rule_categories rest) K)
      by (intros x Hx; apply Hincl; now right).
    destruct (_match_rule r name cpu memory).
    + apply IH; [exact Hrest | exact Hincl' |].
      apply bump_ok; [exact Hd | apply Hincl; now left | lia].
    + apply IH; assumption.
Qed.

End Steps.

(** *** The winning category *)

Lemma max_key_loop_spec d (keys : list string) :
  forall best,
    let final := max_key_loop d best (score_of d best) keys in
    (final = best \/ In final keys)
    /\ score_of d best <= score_of d final
    /\ forall k, In k keys -> score_of d k <= score_of d final.
Proof.
  induction keys as [| k rest IH]; intros best final.
  - subst final. cbn. split; [now left |]. split; [lia | intros k []].
  - subst final. cbn [max_key_loop].
    destruct (Z.ltb_spec (score_of d best) (score_of d k)) as [Hlt | Hge].
    + destruct (IH k) as (Hin & Hle & Hall).
      split; [destruct Hin; [right; now left | right; now right] |].
      split; [lia |].
      intros k' [<- | Hk']; [exact Hle | now apply Hall].
    + destruct (IH best) as (Hin & Hle & Hall).
      split; [destruct Hin; [now left | right; now right] |].
      split; [exact Hle |].
      intros k' [<- | Hk']; [lia | now apply Hall].
Qed.

Lemma fold_left_add_acc (l : list Z) (a : Z) :
  fold_left Z.add l a = a + fold_left Z.add l 0.
Proof.
  revert a. induction l as [| x l IH]; intros a; cbn; [lia |].
  rewrite (IH (a + x)), (IH (0 + x)). lia.
Qed.

Lemma sum_values_cons k v d : sum_values ((k, v) :: d) = v + sum_values d.
Proof. unfold sum_values. cbn. apply fold_left_add_acc. Qed.

Lemma sum_values_bounds d (M : Z) :
  (forall k v, In (k, v) d -> 1 <= v <= M) ->
  Z.of_nat (length d) <= sum_values d <= Z.of_nat (length d) * M.
Proof.
  induction d as [| [k v] d IH]; intros H.
  - cbn. lia.
  - rewrite sum_values_cons. cbn [length].
    specialize (H k v (or_introl eq_refl)) as Hv.
    assert (IH' := IH (fun k' v' Hin => H k' v' (or_intror Hin))).
    lia.
Qed.

Lemma sum_values_In_le d k v :
  (forall k' v', In (k', v') d -> 0 <= v') ->
  In (k, v) d -> v <= sum_values d.
Proof.
  induction d as [| [k0 v0] d IH]; intros Hpos Hin; [destruct Hin |].
  rewrite sum_values_cons.
  assert (Hd : forall k' v', In (k', v') d -> 0 <= v')
    by (intros k' v' H; apply (Hpos k' v'); now right).
  assert (Hsum : 0 <= sum_values d).
  { clear -Hd. induction d as [| [k1 v1] d IH]; [cbn; lia |].
    rewrite sum_values_cons.
    assert (0 <= v1) by (apply (Hd k1 v1); now left).
    assert (0 <= sum_values d) by (apply IH; intros; eapply Hd; right; eauto).
    lia. }
  destruct Hin as [[= -> ->] | Hin].
  - lia.
  - assert (0 <= v0) by (apply (Hpos k0 v0); now left).
    specialize (IH Hd Hin). lia.
Qed.

(** *** True division *)

Lemma float_overflow_bound_large : 1 < float_overflow_bound.
Proof. reflexivity. Qed.

(** A quotient of at most 1 is far from the largest float. *)
Lemma int_true_divide_share (win total : Z) :
  0 <= win -> 0 < total -> win <= total ->
  int_true_divide win total = Ok (inject_Z win / inject_Z total)%Q.
Proof.
  intros Hw Ht Hle. unfold int_true_divide.
  pose proof float_overflow_bound_large as Hb.
  destruct (Z.eqb_spec total 0) as [E | _]; [lia |].
  destruct (Z.leb_spec (float_overflow_bound * Z.abs total) (Z.abs win))
    as [Hover | _]; [| reflexivity].
  rewrite (Z.abs_eq total), (Z.abs_eq win) in Hover by lia. nia.
Qed.

(** *** Rounding *)

Lemma round_half_even_share (win total : Z) :
  0 < win -> 0 < total -> total < 200 * win ->
  1 <= round_half_even (inject_Z win / inject_Z total * 100).
Proof.
  intros Hw Ht Hshare. destruct total as [| p | p]; try lia.
  unfold round_half_even.
  cbn [Qnum Qden Qmult Qdiv Qinv inject_Z].
  rewrite !Z.mul_1_r, Pos.mul_1_l, Pos.mul_1_r.
  set (n := win * 100). set (dd := Z.pos p).
  assert (Hdd : 0 < dd) by (subst dd; lia).
  assert (Hn : 0 <= n) by (subst n; lia).
  pose proof (Z.div_mod n dd ltac:(lia)) as Hdm.
  pose proof (Z.mod_pos_bound n dd Hdd) as Hmb.
  pose proof (Z.div_pos n dd Hn Hdd) as Hq.
  destruct (Z.eq_dec (n / dd) 0) as [E | E].
  - rewrite E in *. rewrite Z.mul_0_r, Z.add_0_l in Hdm.
    destruct (Z.ltb_spec (2 * (n mod dd)) dd); [subst n dd; lia |].
    destruct (Z.ltb_spec dd (2 * (n mod dd))); [lia | subst n dd; lia].
  - repeat match goal with |- context [if ?b then _ else _] => destruct b end;
      lia.
Qed.

(** *** Confidence and the category [unknown] *)

Lemma table_ok_length K d :
  table_ok K d -> (length d <= length (nodup string_dec K))%nat.
Proof.
  intros (Hnd & Hincl & _). rewrite <- (length_map fst d).
  apply NoDup_incl_length; [exact Hnd |].
  intros x Hx. apply nodup_In, Hincl, Hx.
Qed.

Lemma final_category_scored K d :
  table_ok K d -> d <> [] ->
  (length (nodup string_dec K) < 200)%nat ->
  exists final,
    final_category d
      = Ok (final, (inject_Z (score_of d final) / inject_Z (sum_values d))%Q)
    /\ In final K
    /\ In (final, score_of d final) d
    /\ (forall k v, In (k, v) d -> v <= score_of d final)
    /\ 1 <= round_half_even
              (inject_Z (score_of d final) / inject_Z (sum_values d) * 100).
Proof.
  intros Hok Hne Hsize. pose proof (table_ok_length _ _ Hok) as Hlen.
  destruct Hok as (Hnd & Hincl & Hpos).
  destruct d as [| [k0 v0] rest]; [congruence |]. clear Hne.
  set (d := (k0, v0) :: rest) in *.
  unfold final_category. change (map fst d) with (k0 :: map fst rest).
  cbv zeta.
  set (final := max_key_loop d k0 (score_of d k0) (map fst rest)).
  destruct (max_key_loop_spec d (map fst rest) k0) as (Hin & Hle & Hall).
  fold final in Hin, Hle, Hall.
  assert (Hkey : In final (map fst d)).
  { destruct Hin as [-> | Hin]; [now left | now right]. }
  assert (Hval : forall k v, In (k, v) d -> score_of d k = v).
  { intros k v Hkv. unfold score_of.
    now rewrite (dict_get_NoDup d k v Hnd Hkv). }
  assert (Hmax : forall k v, In (k, v) d -> v <= score_of d final).
  { intros k v Hkv. rewrite <- (Hval k v Hkv).
    apply (in_map fst) in Hkv.
    change (In k (k0 :: map fst rest)) in Hkv.
    destruct Hkv as [<- | Hkv]; [exact Hle | now apply Hall]. }
  assert (Hfin : In (final, score_of d final) d).
  { apply in_map_iff in Hkey. destruct Hkey as ([k v] & Hk & Hkv).
    cbn in Hk. subst k. now rewrite (Hval final v Hkv). }
  assert (Hwin : 1 <= score_of d final) by exact (Hpos _ _ Hfin).
  pose proof (sum_values_bounds d (score_of d final)
                (fun k v Hkv => conj (Hpos k v Hkv) (Hmax k v Hkv))) as Hsum.
  assert (Hlen1 : (1 <= length d)%nat) by (subst d; cbn; lia).
  assert (Htot : 0 < sum_values d) by lia.
  assert (Hshare : sum_values d < 200 * score_of d final) by nia.
  assert (Hpart : score_of d final <= sum_values d).
  { apply (sum_values_In_le d final); [| exact Hfin].
    intros k v Hkv. specialize (Hpos k v Hkv). lia. }
  change (max_key_loop d k0 (score_of d k0) (map fst rest)) with final.
  rewrite (int_true_divide_share (score_of d final) (sum_values d)
             ltac:(lia) Htot Hpart).
  cbn [py_bind].
  exists final. split; [reflexivity |].
  split; [apply Hincl, Hkey |]. split; [exact Hfin |]. split; [exact Hmax |].
  apply round_half_even_share; lia.
Qed.

Lemma config_ok_scores (c : classifier) name cpu memory :
  config_ok c = true ->
  exists scores suggested,
    category_scores c name cpu memory = Ok (scores, suggested)
    /\ table_ok (score_keys c) scores.
Proof.
  intros Hc. unfold config_ok in Hc.
  apply andb_true_iff in Hc. destruct Hc as [Hc _].
  apply andb_true_iff in Hc. destruct Hc as [_ Hrules].
  unfold category_scores.
  pose proof (resource_pattern_ok (score_keys c) cpu memory
                (match_names (process_categories c) name []) []) as Hres.
  destruct (resource_pattern cpu memory
              (match_names (process_categories c) name []) [])
    as [scores2 suggested].
  cbn [fst] in Hres.
  destruct (apply_custom_rules_ok (score_keys c) name cpu memory
              (custom_rules c) Hrules) with (d := scores2) as (d' & Hd' & Hok').
  - intros x Hx. unfold score_keys. apply in_or_app. right.
    apply in_or_app. now right.
  - apply Hres.
    + unfold score_keys. apply in_or_app. right. now left.
    + unfold score_keys. apply in_or_app. right. right. now left.
    + apply match_names_ok; [| apply table_ok_nil].
      intros x Hx. unfold score_keys. apply in_or_app. now left.
  - exists d', suggested. rewrite Hd'. split; [reflexivity | exact Hok'].
Qed.

(** What [classify_process] returns from a score table that satisfies the
    invariant over the categories [K], when [unknown] is not among them and
    fewer than 200 of them are distinct. *)
Lemma classify_process_from_scores (c : classifier) name cpu memory
    (K : list string) scores suggested :
  category_scores c name cpu memory = Ok (scores, suggested) ->
  table_ok K scores ->
  ~ In "unknown" K ->
  (length (nodup string_dec K) < 200)%nat ->
  exists r,
    classify_process c name cpu memory = Ok r
    /\ ((confidence r == 0)%Q <-> category r = "unknown")
    /\ (scores = [] -> category r = "unknown" /\ (confidence r == 0)%Q)
    /\ (scores <> [] ->
        category r <> "unknown"
        /\ In (category r, score_of scores (category r)) scores
        /\ (forall k v, In (k, v) scores -> v <= score_of scores (category r))
        /\ confidence r
           = py_round2 (inject_Z (score_of scores (category r))
                        / inject_Z (sum_values scores))
        /\ (0 < confidence r)%Q).
Proof.
  intros Hs Hok Hunk Hsize.
  unfold classify_process. rewrite Hs. cbn [py_bind].
  destruct scores as [| kv rest] eqn:Escores.
  - cbn [final_category map py_bind]. eexists. split; [reflexivity |].
    cbn [category confidence].
    split; [split; reflexivity |]. split; [split; reflexivity | congruence].
  - rewrite <- Escores in *.
    assert (Hne : scores <> []) by (rewrite Escores; discriminate).
    destruct (final_category_scored _ _ Hok Hne Hsize)
      as (final & Hf & HK & Hin & Hmax & Hround).
    rewrite Hf. cbn [py_bind]. eexists. split; [reflexivity |].
    cbn [category confidence].
    assert (Hfin : final <> "unknown") by (intros ->; exact (Hunk HK)).
    assert (Hposc : (0 < py_round2 (inject_Z (score_of scores final)
                                    / inject_Z (sum_values scores)))%Q).
    { unfold py_round2, Qlt. cbn [Qnum Qden]. lia. }
    split.
    + split; [| tauto].
      intros Hz. rewrite Hz in Hposc. exfalso. exact (Qlt_irrefl 0 Hposc).
    + split; [intros ->; congruence |]. intros _.
      repeat split; try assumption.
Qed.

(** C1, amended. Under a configuration in which no category is called
    [unknown], every custom rule names its category and has a weight of at
    least 1, and fewer than 200 distinct categories can score (the
    default configuration is one), [classify_process] returns a result
    whose confidence is 0 exactly when its category is [unknown]: when no
    category scored the result is [unknown] with confidence 0, and when
    some category scored the category is a scored one of largest score,
    not [unknown], and the confidence, that score over the sum of all
    scores rounded to two decimals, is positive. *)
Theorem confidence_zero_iff_unknown (c : classifier) name cpu memory :
  config_ok c = true ->
  exists scores suggested r,
    category_scores c name cpu memory = Ok (scores, suggested)
    /\ classify_process c name cpu memory = Ok r
    /\ ((confidence r == 0)%Q <-> category r = "unknown")
    /\ (scores = [] -> category r = "unknown" /\ (confidence r == 0)%Q)
    /\ (scores <> [] ->
        category r <> "unknown"
        /\ In (category r, score_of scores (category r)) scores
        /\ (forall k v, In (k, v) scores -> v <= score_of scores (category r))
        /\ confidence r
           = py_round2 (inject_Z (score_of scores (category r))
                        / inject_Z (sum_values scores))
        /\ (0 < confidence r)%Q).
Proof.
  intros Hc.
  destruct (config_ok_scores c name cpu memory Hc)
    as (scores & suggested & Hs & Hok).
  unfold config_ok in Hc.
  apply andb_true_iff in Hc. destruct Hc as [Hc Hsize].
  apply andb_true_iff in Hc. destruct Hc as [Hunk _].
  apply Nat.ltb_lt in Hsize.
  assert (Hunk' : ~ In "unknown" (score_keys c)).
  { intros Hin. apply str_in_In in Hin. rewrite Hin in Hunk. discriminate. }
  destruct (classify_process_from_scores c name cpu memory (score_keys c)
              scores suggested Hs Hok Hunk' Hsize) as (r & Hr & Hrest).
  exists scores, suggested, r.
  split; [exact Hs |]. split; [exact Hr | exact Hrest].
Qed.

Lemma confidence_zero_iff_unknown_witness :
  config_ok init = true
  /\ exists r,
       classify_process init "Chrome-python" (1 # 2) (1 # 2) = Ok r
       /\ category r = "idle_process"
       /\ ((confidence r == 0)%Q <-> category r = "unknown").
Proof.
  split; [reflexivity |].
  destruct (confidence_zero_iff_unknown init "Chrome-python" (1 # 2) (1 # 2)
              eq_refl) as (scores & suggested & r & _ & Hr & Hiff & _).
  exists r. split; [exact Hr |]. split; [| exact Hiff].
  assert (E : classify_process init "Chrome-python" (1 # 2) (1 # 2)
              = Ok {| category := "idle_process"; tags := ["low_resource"];
                      confidence := py_round2 (inject_Z 2 / inject_Z 4);
                      cpu_usage := 1 # 2; memory_usage := 1 # 2;
                      process_name := "Chrome-python" |})
    by (vm_compute; reflexivity).
  rewrite E in Hr. injection Hr as <-. reflexivity.
Defined.

(** The default configuration is covered: without a configuration file the
    equivalence holds for every process name and every usage. *)
Corollary default_confidence_zero_iff_unknown name cpu memory :
  exists r,
    classify_process init name cpu memory = Ok r
    /\ ((confidence r == 0)%Q <-> category r = "unknown").
Proof.
  destruct (config_ok_scores init name cpu memory eq_refl)
    as (scores & suggested & Hs & Hok).
  destruct (classify_process_from_scores init name cpu memory (score_keys init)
              scores suggested Hs Hok) as (r & Hr & Hiff & _).
  - vm_compute. intuition discriminate.
  - vm_compute. lia.
  - exists r. split; assumption.
Qed.

(** C1, as stated, fails: with the custom rule
    [add_custom_rule('unknown', ['tmp'])] the process [tmpfile] is given the
    category [unknown] with confidence 1. *)
Lemma rule_named_unknown_has_confidence_one :
  ~ (forall r,
       classify_process (add_custom_rule init "unknown" ["tmp"] None None 1)
         "tmpfile" 2 1 = Ok r ->
       ((confidence r == 0)%Q <-> category r = "unknown")).
Proof.
  intros H.
  assert (E : classify_process
                (add_custom_rule init "unknown" ["tmp"] None None 1)
                "tmpfile" 2 1
              = Ok {| category := "unknown"; tags := ["low_resource"];
                      confidence := py_round2 (inject_Z 1 / inject_Z 1);
                      cpu_usage := 2; memory_usage := 1;
                      process_name := "tmpfile" |})
    by (vm_compute; reflexivity).
  destruct (H _ E) as [_ Hz]. specialize (Hz eq_refl).
  vm_compute in Hz. discriminate Hz.
Qed.

(** Why the amended statement asks for weights of at least 1: a rule of
    weight 0 that is alone in scoring ends the call with
    [ZeroDivisionError], and a rule of weight -1000 next to a keyword match
    leaves a category other than [unknown] with confidence 0. *)
Lemma zero_weight_rule_divides_by_zero :
  classify_process (add_custom_rule init "scratch" ["tmp"] None None 0)
    "tmpfile" 2 1 = Raise ZeroDivisionError.
Proof. vm_compute. reflexivity. Qed.

Lemma negative_weight_rule_zero_confidence :
  exists r,
    classify_process (add_custom_rule init "noise" ["sshd"] None None (-1000))
      "sshd" 2 1 = Ok r
    /\ category r = "network_services" /\ (confidence r == 0)%Q.
Proof. eexists. split; [vm_compute; reflexivity |]. split; reflexivity. Qed.

(** Why it asks for fewer than 200 categories: with 201 rules of weight 1,
    each with a category of its own and all matching, the winner holds
    1/201 of the total, which rounds to 0. *)
Lemma many_categories_round_to_zero :
  let rules :=
    map (fun i => {| rule_category := Some ("c" ++ py_str (Z.of_nat i));
                     keywords := Some ["z"]; cpu_threshold := None;
                     memory_threshold := None; weight := Some 1 |})
        (seq 0 201) in
  exists r,
    classify_process (with_custom_rules rules init) "zz" 2 1 = Ok r
    /\ category r = "c0" /\ (confidence r == 0)%Q.
Proof.
  cbv zeta. eexists. split; [vm_compute; reflexivity |]. split; reflexivity.
Qed.

End ScoreTable.

(** * Further properties of the modelled code *)

(** ** Suggested tags *)

Section SuggestedTags.
Import ProcessClassifier.

Lemma Qltb_ge (x y : Q) : Qltb x y = false <-> (y <= x)%Q.
Proof.
  unfold Qltb. rewrite negb_false_iff. apply Qle_bool_iff.
Qed.

Lemma Qleb_gt (x y : Q) : Qleb x y = false <-> (y < x)%Q.
Proof.
  unfold Qleb. rewrite <- not_true_iff_false, Qle_bool_iff.
  split; [apply Qnot_le_lt | apply Qlt_not_le].
Qed.

(** The tags of step 2 do not depend on the score table. *)
Lemma resource_pattern_tags cpu memory d suggested :
  snd (resource_pattern cpu memory d suggested)
  = snd (resource_pattern cpu memory [] suggested).
Proof.
  unfold resource_pattern.
  repeat match goal with |- context [if ?b then _ else _] => destruct b end;
    reflexivity.
Qed.

(** The shape of a returned classification. *)
Lemma classify_process_inv c name cpu memory r :
  classify_process c name cpu memory = Ok r ->
  exists scores conf,
    category_scores c name cpu memory
      = Ok (scores, snd (resource_pattern cpu memory [] []))
    /\ final_category scores = Ok (category r, conf)
    /\ confidence r = py_round2 conf
    /\ tags r = add_performance_tags (performance_tags c) cpu memory
                  (snd (resource_pattern cpu memory [] []))
    /\ process_name r = name.
Proof.
  unfold classify_process, category_scores.
  rewrite <- (resource_pattern_tags cpu memory
                (match_names (process_categories c) name []) []).
  destruct (resource_pattern cpu memory
              (match_names (process_categories c) name []) [])
    as [scores2 suggested].
  destruct (apply_custom_rules (custom_rules c) name cpu memory scores2)
    as [scores |]; [| discriminate].
  cbn [py_bind snd].
  destruct (final_category scores) as [[final conf] |] eqn:Ef; [| discriminate].
  cbn [py_bind]. intros [= <-]. exists scores, conf.
  repeat split; assumption || reflexivity.
Qed.

Lemma add_performance_tags_app table cpu memory :
  forall suggested,
    exists suffix,
      add_performance_tags table cpu memory suggested
      = (suggested ++ suffix)%list.
Proof.
  induction table as [| [tag_name cond] rest IH]; intros suggested.
  - exists []. cbn. now rewrite app_nil_r.
  - cbn [add_performance_tags].
    destruct (cond cpu memory); [| apply IH].
    destruct (str_in tag_name suggested); [apply IH |].
    destruct (IH (suggested ++ [tag_name])%list) as [suffix Hs].
    exists (tag_name :: suffix). rewrite Hs, <- app_assoc. reflexivity.
Qed.

Lemma add_performance_tags_NoDup table cpu memory :
  forall suggested,
    List.NoDup suggested ->
    List.NoDup (add_performance_tags table cpu memory suggested).
Proof.
  induction table as [| [tag_name cond] rest IH]; intros suggested Hnd;
    [exact Hnd |].
  cbn [add_performance_tags]. apply IH.
  destruct (cond cpu memory); [| exact Hnd].
  destruct (str_in tag_name suggested) eqn:E; [exact Hnd |].
  apply NoDup_ListNoDup, NoDup_app.
  split; [apply NoDup_ListNoDup, Hnd |].
  split; [| apply NoDup_singleton].
  intros x Hx Hx'. apply list_elem_of_singleton in Hx'. subst x.
  apply list_elem_of_In, str_in_In in Hx. congruence.
Qed.

Lemma resource_pattern_tags_NoDup cpu memory :
  List.NoDup (snd (resource_pattern cpu memory [] [])).
Proof.
  unfold resource_pattern.
  repeat match goal with |- context [if ?b then _ else _] => destruct b end;
    cbn; repeat constructor; simpl; tauto.
Qed.

(** X1. No tag is suggested twice: whatever the keyword table, the
    performance table and the rules are, the tag list of a returned
    classification has no duplicate. *)
Theorem suggested_tags_have_no_duplicate c name cpu memory r :
  classify_process c name cpu memory = Ok r ->
  List.NoDup (tags r).
Proof.
  intros H. destruct (classify_process_inv _ _ _ _ _ H)
    as (scores & conf & _ & _ & _ & Ht & _).
  rewrite Ht. apply add_performance_tags_NoDup, resource_pattern_tags_NoDup.
Qed.

Lemma suggested_tags_have_no_duplicate_witness :
  exists r,
    classify_process init "stress" 95 40 = Ok r
    /\ tags r = ["cpu_intensive"; "memory_intensive"]
    /\ List.NoDup (tags r).
Proof.
  assert (E : classify_process init "stress" 95 40
              = Ok {| category := "cpu_intensive";
                      tags := ["cpu_intensive"; "memory_intensive"];
                      confidence := py_round2 (inject_Z 2 / inject_Z 2);
                      cpu_usage := 95; memory_usage := 40;
                      process_name := "stress" |})
    by (vm_compute; reflexivity).
  eexists. split; [exact E |]. split; [reflexivity |].
  exact (suggested_tags_have_no_duplicate init "stress" 95 40 _ E).
Defined.

(** X2. The tag of the resource step comes first and does not depend on
    the configured performance thresholds: an idle process (cpu < 1 and
    memory < 1) is tagged [low_resource] first, and a process that is not
    idle with cpu > 50 is tagged [cpu_intensive] first, whatever the
    performance table holds. *)
Theorem resource_step_tag_comes_first c name cpu memory r :
  classify_process c name cpu memory = Ok r ->
  ((cpu < 1)%Q /\ (memory < 1)%Q ->
   exists rest, tags r = "low_resource" :: rest)
  /\ (~ ((cpu < 1)%Q /\ (memory < 1)%Q) -> (50 < cpu)%Q ->
      exists rest, tags r = "cpu_intensive" :: rest)
  /\ (~ ((cpu < 1)%Q /\ (memory < 1)%Q) -> (cpu <= 50)%Q -> (30 < memory)%Q ->
      exists rest, tags r = "memory_intensive" :: rest).
Proof.
  intros H. destruct (classify_process_inv _ _ _ _ _ H)
    as (scores & conf & _ & _ & _ & Ht & _).
  destruct (add_performance_tags_app (performance_tags c) cpu memory
              (snd (resource_pattern cpu memory [] []))) as [suffix Hs].
  rewrite Hs in Ht. clear Hs H. unfold resource_pattern in Ht.
  split; [| split].
  - intros [Hc Hm]. apply Qltb_lt in Hc, Hm. rewrite Hc, Hm in Ht.
    cbn in Ht. eauto.
  - intros Hidle Hc.
    assert (E : Qltb cpu 1 && Qltb memory 1 = false).
    { apply not_true_iff_false. rewrite andb_true_iff, !Qltb_lt. exact Hidle. }
    apply Qltb_lt in Hc. rewrite E, Hc in Ht. cbn in Ht. eauto.
  - intros Hidle Hc Hm.
    assert (E : Qltb cpu 1 && Qltb memory 1 = false).
    { apply not_true_iff_false. rewrite andb_true_iff, !Qltb_lt. exact Hidle. }
    apply Qltb_ge in Hc. apply Qltb_lt in Hm. rewrite E, Hc, Hm in Ht.
    cbn in Ht. eauto.
Qed.

Lemma resource_step_tag_comes_first_witness :
  let c := snd (load_config init
                  (ConfigJson {| cfg_process_categories := None;
                                 cfg_custom_rules := None;
                                 cfg_performance_thresholds :=
                                   Some [("cpu_intensive", 90%Q)];
                                 cfg_tag_definitions := None;
                                 cfg_system_settings := None |})) in
  exists r rest,
    classify_process c "ffmpeg" 60 10 = Ok r
    /\ tags r = "cpu_intensive" :: rest.
Proof.
  intros c.
  assert (E : classify_process c "ffmpeg" 60 10
              = Ok {| category := "cpu_intensive"; tags := ["cpu_intensive"];
                      confidence := py_round2 (inject_Z 2 / inject_Z 2);
                      cpu_usage := 60; memory_usage := 10;
                      process_name := "ffmpeg" |})
    by (vm_compute; reflexivity).
  destruct (resource_step_tag_comes_first c "ffmpeg" 60 10 _ E)
    as (_ & H & _).
  destruct H as [rest Hrest].
  - intros [Hc _]. revert Hc. apply Qle_not_lt. discriminate.
  - reflexivity.
  - eexists _, rest. split; [exact E | exact Hrest].
Defined.

(** A tag is in the list after step 5 exactly when step 2 put it there or
    one of its predicates in the performance table holds. *)
Lemma add_performance_tags_In table cpu memory :
  forall suggested t,
    In t (add_performance_tags table cpu memory suggested) <->
    In t suggested
    \/ exists cond, In (t, cond) table /\ cond cpu memory = true.
Proof.
  induction table as [| [tag_name cond] rest IH]; intros suggested t.
  - cbn. split; [tauto | intros [H | (c & [] & _)]; exact H].
  - cbn [add_performance_tags]. rewrite IH. split.
    + intros [H | (c & Hin & Hc)].
      * destruct (cond cpu memory) eqn:Ec; [| now left].
        destruct (str_in tag_name suggested); [now left |].
        apply in_app_iff in H. destruct H as [H | [<- | []]]; [now left |].
        right. exists cond. split; [now left | exact Ec].
      * right. exists c. split; [now right | exact Hc].
    + intros [H | (c & [Heq | Hin] & Hc)].
      * left. destruct (cond cpu memory); [| exact H].
        destruct (str_in tag_name suggested); [exact H |].
        apply in_app_iff. now left.
      * injection Heq as -> ->. left. rewrite Hc.
        destruct (str_in t suggested) eqn:Es.
        -- now apply str_in_In.
        -- apply in_app_iff. right. now left.
      * right. exists c. split; assumption.
Qed.

Lemma resource_pattern_tags_In cpu memory t :
  In t (snd (resource_pattern cpu memory [] [])) <->
  (t = "low_resource" /\ (cpu < 1)%Q /\ (memory < 1)%Q)
  \/ (t = "cpu_intensive" /\ ~ ((cpu < 1)%Q /\ (memory < 1)%Q) /\ (50 < cpu)%Q)
  \/ (t = "memory_intensive" /\ ~ ((cpu < 1)%Q /\ (memory < 1)%Q)
      /\ (cpu <= 50)%Q /\ (30 < memory)%Q)
  \/ (t = "stable_process" /\ (cpu <= 50)%Q /\ (memory <= 30)%Q
      /\ (5 <= cpu)%Q /\ (cpu <= 30)%Q /\ (5 <= memory)%Q /\ (memory <= 20)%Q).
Proof.
  unfold resource_pattern.
  destruct (Qltb cpu 1) eqn:E1; [apply Qltb_lt in E1 | apply Qltb_ge in E1];
  destruct (Qltb memory 1) eqn:E2; [apply Qltb_lt in E2 | apply Qltb_ge in E2 | apply Qltb_lt in E2 | apply Qltb_ge in E2];
  cbn [andb].
  all: try (destruct (Qltb 50 cpu) eqn:E3; [apply Qltb_lt in E3 | apply Qltb_ge in E3]).
  all: try (destruct (Qltb 30 memory) eqn:E4; [apply Qltb_lt in E4 | apply Qltb_ge in E4]).
  all: try (destruct (Qleb 5 cpu) eqn:E5; [apply Qleb_le in E5 | apply Qleb_gt in E5]).
  all: try (destruct (Qleb cpu 30) eqn:E6; [apply Qleb_le in E6 | apply Qleb_gt in E6]).
  all: try (destruct (Qleb 5 memory) eqn:E7; [apply Qleb_le in E7 | apply Qleb_gt in E7]).
  all: try (destruct (Qleb memory 20) eqn:E8; [apply Qleb_le in E8 | apply Qleb_gt in E8]).
  all: cbn.
  all: (split; intros H;
    [ cbn in H;
      first [ contradiction
            | destruct H as [<- | []];
              first [ solve [left; repeat split; first [reflexivity | lra]]
                    | solve [right; left; repeat split;
                             first [reflexivity | lra | intros [? ?]; lra]]
                    | solve [right; right; left; repeat split;
                             first [reflexivity | lra | intros [? ?]; lra]]
                    | solve [right; right; right; repeat split;
                             first [reflexivity | lra]] ] ]
    | destruct H as [(-> & H) | [(-> & H) | [(-> & H) | (-> & H)]]];
      first [ solve [cbn; auto] | exfalso; lra ] ]).
Qed.

Lemma default_performance_tags_In cpu memory t :
  (exists cond, In (t, cond) default_performance_tags /\ cond cpu memory = true)
  <->
  (t = "cpu_intensive" /\ (70 < cpu)%Q)
  \/ (t = "memory_intensive" /\ (30 < memory)%Q)
  \/ (t = "low_resource" /\ (cpu < 5)%Q /\ (memory < 5)%Q)
  \/ (t = "stable_process"
      /\ (5 <= cpu)%Q /\ (cpu <= 30)%Q /\ (5 <= memory)%Q /\ (memory <= 20)%Q).
Proof.
  rewrite <- !Qltb_lt, <- !Qleb_le. unfold default_performance_tags. split.
  - intros (cond & Hin & Hc). cbn [In] in Hin.
    destruct Hin as [H | [H | [H | [H | [H | []]]]]];
      injection H as <- <-.
    + left. split; [reflexivity | exact Hc].
    + right. left. split; [reflexivity | exact Hc].
    + right. right. left. apply andb_true_iff in Hc.
      split; [reflexivity | exact Hc].
    + right. right. right. rewrite !andb_true_iff in Hc.
      split; [reflexivity | tauto].
    + discriminate Hc.
  - intros [(-> & H) | [(-> & H) | [(-> & H) | (-> & H)]]].
    + eexists. split; [left; reflexivity | exact H].
    + eexists. split; [right; left; reflexivity | exact H].
    + eexists. split; [right; right; left; reflexivity |].
      apply andb_true_iff. exact H.
    + eexists. split; [right; right; right; left; reflexivity |].
      rewrite !andb_true_iff. tauto.
Qed.

Lemma default_tags_spec cpu memory :
  let ts := add_performance_tags default_performance_tags cpu memory
              (snd (resource_pattern cpu memory [] [])) in
  (In "cpu_intensive" ts <-> (50 < cpu)%Q)
  /\ (In "memory_intensive" ts <-> (30 < memory)%Q)
  /\ (In "low_resource" ts <-> (cpu < 5)%Q /\ (memory < 5)%Q)
  /\ (In "stable_process" ts <->
      (5 <= cpu)%Q /\ (cpu <= 30)%Q /\ (5 <= memory)%Q /\ (memory <= 20)%Q)
  /\ ~ In "high_io" ts.
Proof.
  cbv zeta.
  rewrite !add_performance_tags_In, !resource_pattern_tags_In,
          !default_performance_tags_In.
  repeat split; intuition (try discriminate; try lra).
Qed.

(** X3. Under the default configuration the suggested tags are determined
    by the usage alone: [cpu_intensive] exactly when cpu > 50 (the
    threshold of the resource step, not the 70 of the performance table),
    [memory_intensive] exactly when memory > 30, [low_resource] exactly
    when cpu < 5 and memory < 5, [stable_process] exactly when
    5 <= cpu <= 30 and 5 <= memory <= 20, and [high_io] never. *)
Theorem default_tags_follow_usage name cpu memory :
  exists r,
    classify_process init name cpu memory = Ok r
    /\ (In "cpu_intensive" (tags r) <-> (50 < cpu)%Q)
    /\ (In "memory_intensive" (tags r) <-> (30 < memory)%Q)
    /\ (In "low_resource" (tags r) <-> (cpu < 5)%Q /\ (memory < 5)%Q)
    /\ (In "stable_process" (tags r) <->
        (5 <= cpu)%Q /\ (cpu <= 30)%Q /\ (5 <= memory)%Q /\ (memory <= 20)%Q)
    /\ ~ In "high_io" (tags r).
Proof.
  destruct (config_ok_scores init name cpu memory eq_refl)
    as (scores & suggested & Hs & Hok).
  destruct (classify_process_from_scores init name cpu memory (score_keys init)
              scores suggested Hs Hok) as (r & Hr & _).
  - vm_compute. intuition discriminate.
  - vm_compute. lia.
  - exists r. split; [exact Hr |].
    destruct (classify_process_inv _ _ _ _ _ Hr)
      as (scores' & conf & _ & _ & _ & Ht & _).
    rewrite Ht. exact (default_tags_spec cpu memory).
Qed.

End SuggestedTags.

(** ** Process names, winners and confidence *)

Section Winners.
Import ProcessClassifier.

Lemma match_keywords_lower category kws n1 n2 :
  lower n1 = lower n2 ->
  forall d, match_keywords category kws n1 d = match_keywords category kws n2 d.
Proof.
  intros H. induction kws as [| kw rest IH]; intros d; [reflexivity |].
  cbn [match_keywords]. rewrite H. apply IH.
Qed.

Lemma match_names_lower categories n1 n2 :
  lower n1 = lower n2 ->
  forall d, match_names categories n1 d = match_names categories n2 d.
Proof.
  intros H. induction categories as [| [category kws] rest IH]; intros d;
    [reflexivity |].
  cbn [match_names]. rewrite (match_keywords_lower category kws n1 n2 H).
  apply IH.
Qed.

Lemma apply_custom_rules_lower rules n1 n2 cpu memory :
  lower n1 = lower n2 ->
  forall d,
    apply_custom_rules rules n1 cpu memory d
    = apply_custom_rules rules n2 cpu memory d.
Proof.
  intros H. induction rules as [| r rest IH]; intros d; [reflexivity |].
  cbn [apply_custom_rules].
  assert (Hm : _match_rule r n1 cpu memory = _match_rule r n2 cpu memory)
    by (unfold _match_rule; now rewrite H).
  rewrite Hm. destruct (_match_rule r n2 cpu memory); [| apply IH].
  destruct (rule_category r); [apply IH | reflexivity].
Qed.

Lemma category_scores_lower c n1 n2 cpu memory :
  lower n1 = lower n2 ->
  category_scores c n1 cpu memory = category_scores c n2 cpu memory.
Proof.
  intros H. unfold category_scores.
  rewrite (match_names_lower _ n1 n2 H).
  destruct (resource_pattern cpu memory
              (match_names (process_categories c) n2 []) []) as [s2 tg].
  now rewrite (apply_custom_rules_lower _ n1 n2 cpu memory H).
Qed.

(** X4. Classification does not look at the case of the process name: two
    names with the same lower-case form get the same category, tags and
    confidence, or fail with the same exception. *)
Theorem classification_ignores_case c n1 n2 cpu memory :
  lower n1 = lower n2 ->
  match classify_process c n1 cpu memory, classify_process c n2 cpu memory with
  | Ok r1, Ok r2 =>
      category r1 = category r2 /\ tags r1 = tags r2
      /\ confidence r1 = confidence r2
  | Raise e1, Raise e2 => e1 = e2
  | _, _ => False
  end.
Proof.
  intros H. unfold classify_process.
  rewrite (category_scores_lower c n1 n2 cpu memory H).
  destruct (category_scores c n2 cpu memory) as [[scores suggested] | e];
    cbn [py_bind]; [| reflexivity].
  destruct (final_category scores) as [[final conf] | e]; cbn [py_bind];
    [| reflexivity].
  repeat split.
Qed.

Lemma classification_ignores_case_witness :
  exists r1 r2,
    classify_process init "SSHD-Session" 2 1 = Ok r1
    /\ classify_process init "sshd-session" 2 1 = Ok r2
    /\ category r1 = "network_services"
    /\ category r1 = category r2 /\ tags r1 = tags r2
    /\ confidence r1 = confidence r2.
Proof.
  pose proof (classification_ignores_case init "SSHD-Session" "sshd-session"
                2 1 eq_refl) as H.
  destruct (classify_process init "SSHD-Session" 2 1) as [r1 |] eqn:E1;
    [| vm_compute in E1; discriminate E1].
  destruct (classify_process init "sshd-session" 2 1) as [r2 |] eqn:E2;
    [| contradiction].
  exists r1, r2. split; [reflexivity |]. split; [reflexivity |].
  split; [| exact H].
  vm_compute in E1. injection E1 as <-. reflexivity.
Defined.

(** The first key of largest score wins. *)
Lemma max_key_loop_first d (keys : list string) :
  forall best,
    let final := max_key_loop d best (score_of d best) keys in
    exists before after,
      best :: keys = (before ++ final :: after)%list
      /\ (forall k, In k before -> score_of d k < score_of d final)
      /\ (forall k, In k after -> score_of d k <= score_of d final).
Proof.
  induction keys as [| k rest IH]; intros best final.
  - exists [], []. subst final. cbn. repeat split; intros k [].
  - subst final. cbn [max_key_loop].
    destruct (Z.ltb_spec (score_of d best) (score_of d k)) as [Hlt | Hge].
    + destruct (IH k) as (before & after & Heq & Hb & Ha).
      destruct (max_key_loop_spec d rest k) as (_ & Hle & _).
      exists (best :: before), after. rewrite Heq.
      split; [reflexivity |]. split; [| exact Ha].
      intros k' [<- | Hk']; [lia | now apply Hb].
    + destruct (IH best) as (before & after & Heq & Hb & Ha).
      destruct (max_key_loop_spec d rest best) as (_ & Hle & _).
      remember (max_key_loop d best (score_of d best) rest) as final
        eqn:Efinal.
      clear Efinal IH.
      destruct before as [| b before'].
      * cbn in Heq. injection Heq as Hfinal Hrest. subst final rest.
        exists [], (k :: after).
        split; [reflexivity |]. split; [intros k' [] |].
        intros k' [<- | Hk']; [lia | now apply Ha].
      * cbn in Heq. injection Heq as Hb0 Hrest. subst b rest.
        exists (best :: k :: before'), after.
        split; [reflexivity |]. split; [| exact Ha].
        assert (Hbest : score_of d best < score_of d final)
          by (apply Hb; now left).
        intros k' [<- | [<- | Hk']];
          [exact Hbest | lia | apply Hb; now right].
Qed.

(** X5. Ties between categories go to the one that entered the score
    table first: every category before the returned one in the table has a
    strictly smaller score, every category after it has at most its
    score. *)
Theorem first_best_category_wins c name cpu memory scores suggested r :
  category_scores c name cpu memory = Ok (scores, suggested) ->
  classify_process c name cpu memory = Ok r ->
  scores <> [] ->
  exists before after,
    map fst scores = (before ++ category r :: after)%list
    /\ (forall k, In k before ->
          score_of scores k < score_of scores (category r))
    /\ (forall k, In k after ->
          score_of scores k <= score_of scores (category r)).
Proof.
  intros Hs Hr Hne. unfold classify_process in Hr. rewrite Hs in Hr.
  cbn [py_bind] in Hr.
  destruct (final_category scores) as [[final conf] |] eqn:Ef; [| discriminate].
  cbn [py_bind] in Hr. injection Hr as <-. cbn [category].
  unfold final_category in Ef.
  destruct (map fst scores) as [| k0 rest] eqn:Ek.
  - destruct scores; [congruence | discriminate].
  - cbv zeta in Ef.
    destruct (int_true_divide _ _) as [q |]; [| discriminate].
    cbn [py_bind] in Ef. injection Ef as <- _.
    apply max_key_loop_first.
Qed.

Lemma first_best_category_wins_witness :
  exists r,
    classify_process init "chrome-python" 10 10 = Ok r
    /\ category r = "user_applications"
    /\ exists before after,
         ["user_applications"; "development_tools"]
         = (before ++ category r :: after)%list
         /\ forall k, In k after -> score_of [("user_applications", 1);
                                               ("development_tools", 1)] k <= 1.
Proof.
  assert (Es : category_scores init "chrome-python" 10 10
               = Ok ([("user_applications", 1); ("development_tools", 1)],
                     ["stable_process"]))
    by (vm_compute; reflexivity).
  assert (Er : classify_process init "chrome-python" 10 10
               = Ok {| category := "user_applications";
                       tags := ["stable_process"];
                       confidence := py_round2 (inject_Z 1 / inject_Z 2);
                       cpu_usage := 10; memory_usage := 10;
                       process_name := "chrome-python" |})
    by (vm_compute; reflexivity).
  eexists. split; [exact Er |]. split; [reflexivity |].
  destruct (first_best_category_wins init "chrome-python" 10 10 _ _ _ Es Er
              ltac:(discriminate)) as (before & after & Heq & _ & Ha).
  exists before, after. split; [exact Heq | exact Ha].
Defined.

End Winners.

(** ** Confidence, failures and batches *)

Section Outcomes.
Import ProcessClassifier.

Lemma round_half_even_at_most_100 (win total : Z) :
  0 <= win -> 0 < total -> win <= total ->
  round_half_even (inject_Z win / inject_Z total * 100) <= 100.
Proof.
  intros Hw Ht Hle. destruct total as [| p | p]; try lia.
  unfold round_half_even.
  cbn [Qnum Qden Qmult Qdiv Qinv inject_Z].
  rewrite !Z.mul_1_r, Pos.mul_1_l, Pos.mul_1_r.
  set (n := win * 100). set (dd := Z.pos p).
  assert (Hdd : 0 < dd) by (subst dd; lia).
  assert (Hn : 0 <= n <= 100 * dd) by (subst n dd; lia).
  pose proof (Z.div_mod n dd ltac:(lia)) as Hdm.
  pose proof (Z.mod_pos_bound n dd Hdd) as Hmb.
  assert (Hq : n / dd <= 100).
  { apply Z.div_le_upper_bound; lia. }
  destruct (Z.eq_dec (n / dd) 100) as [E | E].
  - rewrite E in *.
    assert (Hmod : n mod dd = 0) by lia. rewrite Hmod.
    destruct (Z.ltb_spec (2 * 0) dd); lia.
  - repeat match goal with |- context [if ?b then _ else _] => destruct b end;
      lia.
Qed.

Lemma round_half_even_whole (v : Z) :
  0 < v -> round_half_even (inject_Z v / inject_Z v * 100) = 100.
Proof.
  intros Hv. destruct v as [| p | p]; try lia.
  unfold round_half_even.
  cbn [Qnum Qden Qmult Qdiv Qinv inject_Z].
  rewrite !Z.mul_1_r, Pos.mul_1_l, Pos.mul_1_r.
  rewrite (Z.mul_comm (Z.pos p) 100).
  rewrite Z.div_mul, Z.mod_mul by lia.
  destruct (Z.ltb_spec (2 * 0) (Z.pos p)); [reflexivity | lia].
Qed.

(** X6. Under a configuration that is [config_ok] the confidence lies
    between 0 and 1, and it is 1 when exactly one category scored. *)
Theorem confidence_between_zero_and_one c name cpu memory :
  config_ok c = true ->
  exists scores suggested r,
    category_scores c name cpu memory = Ok (scores, suggested)
    /\ classify_process c name cpu memory = Ok r
    /\ (0 <= confidence r)%Q /\ (confidence r <= 1)%Q
    /\ (length scores = 1%nat -> (confidence r == 1)%Q).
Proof.
  intros Hc.
  destruct (config_ok_scores c name cpu memory Hc)
    as (scores & suggested & Hs & Hok).
  exists scores, suggested.
  unfold classify_process. rewrite Hs. cbn [py_bind].
  destruct scores as [| [k0 v0] rest] eqn:Escores.
  - cbn [final_category map py_bind]. eexists. split; [reflexivity |].
    split; [reflexivity |]. cbn [confidence].
    split; [vm_compute; discriminate |].
    split; [vm_compute; discriminate | discriminate].
  - rewrite <- Escores in *.
    assert (Hne : scores <> []) by (rewrite Escores; discriminate).
    unfold config_ok in Hc.
    apply andb_true_iff in Hc. destruct Hc as [_ Hsize].
    apply Nat.ltb_lt in Hsize.
    destruct (final_category_scored _ _ Hok Hne Hsize)
      as (final & Hf & _ & Hin & Hmax & Hround).
    rewrite Hf. cbn [py_bind]. eexists. split; [reflexivity |].
    split; [reflexivity |]. cbn [confidence].
    destruct Hok as (_ & _ & Hpos).
    assert (Hwin : 1 <= score_of scores final) by exact (Hpos _ _ Hin).
    assert (Hsum : score_of scores final <= sum_values scores).
    { apply (sum_values_In_le scores final); [| exact Hin].
      intros k' v' H'. specialize (Hpos k' v' H'). lia. }
    pose proof (round_half_even_at_most_100 (score_of scores final)
                  (sum_values scores) ltac:(lia) ltac:(lia) Hsum) as Hup.
    split; [unfold py_round2, Qle; cbn [Qnum Qden]; lia |].
    split; [unfold py_round2, Qle; cbn [Qnum Qden]; lia |].
    intros Hlen. rewrite Escores in Hlen. cbn in Hlen.
    destruct rest; [| discriminate].
    assert (Hv : score_of scores final = sum_values scores).
    { rewrite Escores in Hin |- *. destruct Hin as [[= Hk Hv] | []].
      rewrite <- Hv. unfold sum_values. cbn. reflexivity. }
    rewrite <- Hv. unfold py_round2.
    rewrite round_half_even_whole by lia. reflexivity.
Qed.

Lemma confidence_between_zero_and_one_witness :
  exists r,
    classify_process init "chrome-python" 10 10 = Ok r
    /\ (0 <= confidence r)%Q /\ (confidence r <= 1)%Q.
Proof.
  destruct (confidence_between_zero_and_one init "chrome-python" 10 10 eq_refl)
    as (scores & suggested & r & _ & Hr & H0 & H1 & _).
  exists r. split; [exact Hr |]. split; assumption.
Defined.

Lemma apply_custom_rules_raise rules name cpu memory :
  forall d e,
    apply_custom_rules rules name cpu memory d = Raise e ->
    e = KeyError "category"
    /\ exists r, In r rules /\ rule_category r = None
                 /\ _match_rule r name cpu memory = true.
Proof.
  induction rules as [| r rest IH]; intros d e H; [discriminate |].
  cbn [apply_custom_rules] in H.
  destruct (_match_rule r name cpu memory) eqn:Em.
  - destruct (rule_category r) as [c |] eqn:Ec.
    + destruct (IH _ _ H) as (He & r0 & Hin & H0).
      split; [exact He |]. exists r0. split; [now right | exact H0].
    + injection H as <-. split; [reflexivity |].
      exists r. split; [now left |]. split; assumption.
  - destruct (IH _ _ H) as (He & r0 & Hin & H0).
    split; [exact He |]. exists r0. split; [now right | exact H0].
Qed.

(** Scores under rules without a negative weight. *)
Local Abbreviation nonneg d :=
  (forall (k : string) (v : Z), In (k, v) d -> 0 <= v).

Lemma bump_nonneg d k w : nonneg d -> 0 <= w -> nonneg (bump k w d).
Proof.
  intros Hd Hw k' v' Hin. unfold bump in Hin. apply dict_set_In in Hin.
  destruct Hin as [[-> ->] | Hin]; [| exact (Hd _ _ Hin)].
  destruct (dict_get k d) as [v0 |] eqn:Eg; cbn [from_option id]; [| lia].
  apply dict_get_In in Eg. specialize (Hd _ _ Eg). lia.
Qed.

Lemma match_keywords_nonneg category kws name :
  forall d, nonneg d -> nonneg (match_keywords category kws name d).
Proof.
  induction kws as [| kw rest IH]; intros d Hd; [exact Hd |].
  cbn [match_keywords]. apply IH.
  destruct (contains (lower kw) (lower name)); [| exact Hd].
  apply bump_nonneg; [exact Hd | lia].
Qed.

Lemma match_names_nonneg categories name :
  forall d, nonneg d -> nonneg (match_names categories name d).
Proof.
  induction categories as [| [category kws] rest IH]; intros d Hd;
    [exact Hd |].
  cbn [match_names]. apply IH. now apply match_keywords_nonneg.
Qed.

Lemma resource_pattern_nonneg cpu memory d suggested :
  nonneg d -> nonneg (fst (resource_pattern cpu memory d suggested)).
Proof.
  intros Hd. unfold resource_pattern.
  repeat match goal with |- context [if ?b then _ else _] => destruct b end;
    cbn [fst]; try exact Hd; apply bump_nonneg; try assumption; lia.
Qed.

Lemma apply_custom_rules_nonneg rules name cpu memory :
  (forall r, In r rules -> 0 <= default 1 (weight r)) ->
  forall d d',
    nonneg d -> apply_custom_rules rules name cpu memory d = Ok d' ->
    nonneg d'.
Proof.
  induction rules as [| r rest IH]; intros Hw d d' Hd H.
  - injection H as <-. exact Hd.
  - cbn [apply_custom_rules] in H.
    assert (Hrest : forall r', In r' rest -> 0 <= default 1 (weight r'))
      by (intros r' Hr'; apply Hw; now right).
    destruct (_match_rule r name cpu memory).
    + destruct (rule_category r) as [c |]; [| discriminate].
      apply (IH Hrest _ _ (bump_nonneg d c _ Hd (Hw r (or_introl eq_refl))) H).
    + exact (IH Hrest _ _ Hd H).
Qed.

Lemma category_scores_nonneg c name cpu memory scores suggested :
  (forall r, In r (custom_rules c) -> 0 <= default 1 (weight r)) ->
  category_scores c name cpu memory = Ok (scores, suggested) ->
  nonneg scores.
Proof.
  intros Hw. unfold category_scores.
  pose proof (resource_pattern_nonneg cpu memory
                (match_names (process_categories c) name []) []
                (match_names_nonneg _ name [] (fun k v (H : In (k, v) []) =>
                                                 match H with end))) as Hres.
  destruct (resource_pattern cpu memory
              (match_names (process_categories c) name []) []) as [s2 tg].
  cbn [fst] in Hres.
  destruct (apply_custom_rules (custom_rules c) name cpu memory s2)
    as [s3 | e] eqn:Ea; cbn [py_bind]; [| discriminate].
  intros [= <- _]. exact (apply_custom_rules_nonneg _ _ _ _ Hw _ _ Hres Ea).
Qed.

(** The two failures of [a / b]. *)
Lemma int_true_divide_raise (a b : Z) e :
  int_true_divide a b = Raise e <->
  (e = ZeroDivisionError /\ b = 0)
  \/ (e = OverflowError /\ b <> 0
      /\ float_overflow_bound * Z.abs b <= Z.abs a).
Proof.
  unfold int_true_divide.
  destruct (Z.eqb_spec b 0) as [Hb | Hb].
  - split.
    + intros [= <-]. left. now split.
    + intros [[-> _] | (_ & Hne & _)]; [reflexivity | contradiction].
  - destruct (Z.leb_spec (float_overflow_bound * Z.abs b) (Z.abs a))
      as [Hover | Hin].
    + split.
      * intros [= <-]. right. repeat split; assumption.
      * intros [[_ H0] | (-> & _)]; [contradiction | reflexivity].
    + split; [discriminate |].
      intros [[_ H0] | (_ & _ & Hover)]; [contradiction | lia].
Qed.

(** The key [max] returns is a key of the table with the largest score. *)
Lemma final_category_winner scores k0 rest :
  map fst scores = k0 :: rest ->
  let final := max_key_loop scores k0 (score_of scores k0) rest in
  In final (map fst scores)
  /\ forall k, In k (map fst scores) -> score_of scores k <= score_of scores final.
Proof.
  intros Hk final.
  destruct (max_key_loop_spec scores rest k0) as (Hin & Hle & Hall).
  fold final in Hin, Hle, Hall. rewrite Hk. split.
  - destruct Hin as [-> | Hin]; [now left | now right].
  - intros k [<- | Hin']; [exact Hle | now apply Hall].
Qed.

Lemma final_category_raise scores e :
  final_category scores = Raise e <->
  exists k,
    In k (map fst scores)
    /\ (forall k', In k' (map fst scores) ->
          score_of scores k' <= score_of scores k)
    /\ ((e = ZeroDivisionError /\ sum_values scores = 0)
        \/ (e = OverflowError /\ sum_values scores <> 0
            /\ float_overflow_bound * Z.abs (sum_values scores)
               <= Z.abs (score_of scores k))).
Proof.
  unfold final_category.
  destruct (map fst scores) as [| k0 rest] eqn:Ek.
  - split; [discriminate | intros (k & [] & _)].
  - cbv zeta.
    destruct (final_category_winner scores k0 rest Ek) as (Hin & Hmax).
    rewrite Ek in Hin, Hmax.
    set (final := max_key_loop scores k0 (score_of scores k0) rest) in *.
    split.
    + intros H.
      destruct (int_true_divide (score_of scores final) (sum_values scores))
        as [q | e'] eqn:Ed; cbn [py_bind] in H; [discriminate |].
      injection H as ->. apply int_true_divide_raise in Ed.
      exists final. split; [exact Hin |]. split; [exact Hmax | exact Ed].
    + intros (k & Hk & Hkmax & Hcase).
      assert (Heq : score_of scores k = score_of scores final).
      { specialize (Hmax k Hk). specialize (Hkmax final Hin). lia. }
      rewrite Heq in Hcase. apply int_true_divide_raise in Hcase.
      now rewrite Hcase.
Qed.

(** X7. [classify_process] fails in three ways only: with [KeyError],
    exactly when some custom rule without a category matches the sample;
    with [ZeroDivisionError], exactly when the scores of a non-empty score
    table add up to 0; and with [OverflowError], exactly when the largest
    score is, in absolute value, at least [2^1024 - 2^970] times the
    non-zero sum of the scores, so that the quotient is no finite float.
    When no custom rule has a negative weight the last failure cannot
    occur. *)
Theorem classify_process_failures c name cpu memory :
  (forall e, classify_process c name cpu memory = Raise e ->
             e = KeyError "category" \/ e = ZeroDivisionError
             \/ e = OverflowError)
  /\ (classify_process c name cpu memory = Raise (KeyError "category") <->
      exists r, In r (custom_rules c) /\ rule_category r = None
                /\ _match_rule r name cpu memory = true)
  /\ (classify_process c name cpu memory = Raise ZeroDivisionError <->
      exists scores suggested,
        category_scores c name cpu memory = Ok (scores, suggested)
        /\ scores <> [] /\ sum_values scores = 0)
  /\ (classify_process c name cpu memory = Raise OverflowError <->
      exists scores suggested k,
        category_scores c name cpu memory = Ok (scores, suggested)
        /\ In k (map fst scores)
        /\ (forall k', In k' (map fst scores) ->
              score_of scores k' <= score_of scores k)
        /\ sum_values scores <> 0
        /\ float_overflow_bound * Z.abs (sum_values scores)
           <= Z.abs (score_of scores k))
  /\ ((forall r, In r (custom_rules c) -> 0 <= default 1 (weight r)) ->
      classify_process c name cpu memory <> Raise OverflowError).
Proof.
  assert (Hcs : forall e,
             category_scores c name cpu memory = Raise e ->
             e = KeyError "category"
             /\ exists r, In r (custom_rules c) /\ rule_category r = None
                          /\ _match_rule r name cpu memory = true).
  { intros e. unfold category_scores.
    destruct (resource_pattern cpu memory
                (match_names (process_categories c) name []) []) as [s2 tg].
    destruct (apply_custom_rules (custom_rules c) name cpu memory s2)
      as [s3 | e'] eqn:Ea; cbn [py_bind]; [discriminate |].
    intros [= <-]. exact (apply_custom_rules_raise _ _ _ _ _ _ Ea). }
  assert (Hkey : (exists r, In r (custom_rules c) /\ rule_category r = None
                            /\ _match_rule r name cpu memory = true) ->
                 category_scores c name cpu memory = Raise (KeyError "category")).
  { intros Hex. unfold category_scores.
    destruct (resource_pattern cpu memory
                (match_names (process_categories c) name []) []) as [s2 tg].
    now rewrite (rule_without_category_raises _ _ _ _ s2 Hex). }
  assert (Hcp : forall e,
             classify_process c name cpu memory = Raise e <->
             category_scores c name cpu memory = Raise e
             \/ exists scores suggested,
                  category_scores c name cpu memory = Ok (scores, suggested)
                  /\ final_category scores = Raise e).
  { intros e. unfold classify_process.
    destruct (category_scores c name cpu memory) as [[scores sg] | e'];
      cbn [py_bind].
    - destruct (final_category scores) as [[f cf] | e''] eqn:Ef;
        cbn [py_bind].
      + split; [discriminate |].
        intros [H | (s' & g' & [= <- _] & H)]; [discriminate |].
        rewrite Ef in H. discriminate.
      + split.
        * intros [= <-]. right. exists scores, sg. now split.
        * intros [H | (s' & g' & [= <- _] & H)]; [discriminate |].
          rewrite Ef in H. injection H as ->. reflexivity.
    - split; [intros [= ->]; now left |].
      intros [[= ->] | (s' & g' & H & _)]; [reflexivity | discriminate]. }
  split; [| split; [| split; [| split]]].
  - intros e H. apply Hcp in H.
    destruct H as [H | (scores & sg & _ & H)].
    + left. exact (proj1 (Hcs _ H)).
    + apply final_category_raise in H.
      destruct H as (k & _ & _ & [[-> _] | (-> & _)]); tauto.
  - rewrite Hcp. split.
    + intros [H | (scores & sg & _ & H)]; [exact (proj2 (Hcs _ H)) |].
      apply final_category_raise in H.
      destruct H as (k & _ & _ & [[H _] | (H & _)]); discriminate H.
    + intros Hex. left. exact (Hkey Hex).
  - rewrite Hcp. split.
    + intros [H | (scores & sg & Hs & H)].
      * destruct (Hcs _ H) as [Hd _]. discriminate Hd.
      * apply final_category_raise in H.
        destruct H as (k & Hk & _ & [[_ H0] | (H & _)]); [| discriminate H].
        exists scores, sg. split; [exact Hs |]. split; [| exact H0].
        intros ->. destruct Hk.
    + intros (scores & sg & Hs & Hne & Hsum). right.
      exists scores, sg. split; [exact Hs |].
      apply final_category_raise.
      destruct (map fst scores) as [| k0 rest] eqn:Ek;
        [destruct scores; [congruence | discriminate] |].
      destruct (final_category_winner scores k0 rest Ek) as (Hin & Hmax).
      rewrite Ek in Hin, Hmax.
      eexists. split; [exact Hin |]. split; [exact Hmax |].
      left. now split.
  - rewrite Hcp. split.
    + intros [H | (scores & sg & Hs & H)].
      * destruct (Hcs _ H) as [Hd _]. discriminate Hd.
      * apply final_category_raise in H.
        destruct H as (k & Hk & Hmax & [[H _] | (_ & Hne & Hover)]);
          [discriminate H |].
        exists scores, sg, k. repeat split; assumption.
    + intros (scores & sg & k & Hs & Hk & Hmax & Hne & Hover). right.
      exists scores, sg. split; [exact Hs |].
      apply final_category_raise. exists k.
      split; [exact Hk |]. split; [exact Hmax |]. right.
      repeat split; assumption.
  - intros Hw H. apply Hcp in H.
    destruct H as [H | (scores & sg & Hs & H)].
    + destruct (Hcs _ H) as [Hd _]. discriminate Hd.
    + pose proof (category_scores_nonneg c name cpu memory scores sg Hw Hs)
        as Hpos.
      apply final_category_raise in H.
      destruct H as (k & Hk & _ & [[H _] | (_ & Hne & Hover)]);
        [discriminate H |].
      assert (Hin : In (k, score_of scores k) scores).
      { unfold score_of. destruct (dict_get k scores) as [v |] eqn:Eg.
        - apply dict_get_In in Eg. exact Eg.
        - apply dict_get_None in Eg. contradiction. }
      pose proof (Hpos _ _ Hin) as Hk0.
      pose proof (sum_values_In_le scores k _ Hpos Hin) as Hle.
      pose proof float_overflow_bound_large as Hb.
      rewrite (Z.abs_eq (sum_values scores)), (Z.abs_eq (score_of scores k))
        in Hover by lia.
      nia.
Qed.

(** Two rules of weights [10^400] and [1 - 10^400] that both match: the
    scores add up to 1 and the quotient [10^400 / 1] is no float. *)
Lemma huge_weights_overflow :
  let c := add_custom_rule
             (add_custom_rule init "a" ["tmp"] None None (10 ^ 400))
             "b" ["tmp"] None None (1 - 10 ^ 400) in
  classify_process c "tmpfile" 2 1 = Raise OverflowError.
Proof. vm_compute. reflexivity. Qed.

(** X8. [batch_classify] returns exactly when every sample classifies, and
    then gives one result per sample, in the order of the samples, each
    with the sample's pid, or ['N/A'] when the sample has none. *)
Theorem batch_classify_results c (process_list : list sample) rs :
  batch_classify c process_list = Ok rs <->
  List.Forall2
    (fun s pr =>
       fst pr = default (PidStr "N/A") (s_pid s)
       /\ classify_process c (default "" (s_name s)) (default 0%Q (s_cpu s))
            (default 0%Q (s_memory s)) = Ok (snd pr))
    process_list rs.
Proof.
  revert rs. induction process_list as [| s rest IH]; intros rs.
  - cbn. split.
    + intros [= <-]. constructor.
    + intros H. inversion H. reflexivity.
  - cbn [batch_classify]. split.
    + intros H.
      destruct (classify_process c (default "" (s_name s))
                  (default 0%Q (s_cpu s)) (default 0%Q (s_memory s)))
        as [r |] eqn:Er; cbn [py_bind] in H; [| discriminate].
      destruct (batch_classify c rest) as [rs' |] eqn:Eb; cbn [py_bind] in H;
        [| discriminate].
      injection H as <-. constructor.
      * split; [reflexivity | exact Er].
      * now apply IH.
    + intros H. inversion H as [| s' pr l l' [Hpid Hr] Hrest]; subst.
      rewrite Hr. cbn [py_bind].
      apply IH in Hrest. rewrite Hrest. cbn [py_bind].
      destruct pr as [p r]. cbn in Hpid. subst p. reflexivity.
Qed.

End Outcomes.

(** ** Configuration *)

Section Configuration.
Import ProcessClassifier.

Implicit Types (d items : list (string * list string)) (k : string)
               (v : list string).

Lemma categories_get_set_eq d k v :
  categories_get k (categories_set k v d) = Some v.
Proof.
  induction d as [| [k' v'] d IH]; cbn.
  - now rewrite String.eqb_refl.
  - destruct (String.eqb_spec k' k) as [-> | Hne]; cbn.
    + now rewrite String.eqb_refl.
    + destruct (String.eqb_spec k' k); [congruence | exact IH].
Qed.

Lemma categories_get_set_ne d k k' v :
  k <> k' -> categories_get k' (categories_set k v d) = categories_get k' d.
Proof.
  intros Hne. induction d as [| [k0 v0] d IH]; cbn.
  - destruct (String.eqb_spec k k'); [congruence | reflexivity].
  - destruct (String.eqb_spec k0 k) as [-> | Hk0]; cbn.
    + destruct (String.eqb_spec k k'); [congruence | reflexivity].
    + destruct (String.eqb_spec k0 k'); [reflexivity | exact IH].
Qed.

Lemma categories_set_keys d k v :
  exists extra, map fst (categories_set k v d) = (map fst d ++ extra)%list.
Proof.
  induction d as [| [k' v'] d IH]; cbn.
  - exists [k]. reflexivity.
  - destruct (String.eqb_spec k' k) as [-> | Hne]; cbn.
    + exists []. now rewrite app_nil_r.
    + destruct IH as [extra ->]. exists extra. reflexivity.
Qed.

Lemma categories_set_same d k v :
  categories_get k d = Some v -> categories_set k v d = d.
Proof.
  induction d as [| [k' v'] d IH]; cbn; [discriminate |].
  destruct (String.eqb_spec k' k) as [-> | Hne].
  - now intros [= ->].
  - intros H. now rewrite IH.
Qed.

Lemma categories_get_NoDup d k v :
  List.NoDup (map fst d) -> In (k, v) d -> categories_get k d = Some v.
Proof.
  induction d as [| [k' v'] d IH]; cbn; [tauto |].
  intros Hnd Hin. inversion Hnd as [| ? ? Hnotin Hnd']; subst.
  destruct (String.eqb_spec k' k) as [-> | Hne].
  - destruct Hin as [[= ->] | Hin]; [reflexivity |].
    exfalso. apply Hnotin. apply (in_map fst) in Hin. exact Hin.
  - destruct Hin as [[= -> _] | Hin]; [congruence | now apply IH].
Qed.

Lemma categories_update_keys items :
  forall d,
    exists extra,
      map fst (categories_update d items) = (map fst d ++ extra)%list.
Proof.
  unfold categories_update.
  induction items as [| [k v] items IH]; intros d; cbn [fold_left fst snd].
  - exists []. now rewrite app_nil_r.
  - destruct (IH (categories_set k v d)) as [extra1 H1].
    destruct (categories_set_keys d k v) as [extra2 H2].
    exists (extra2 ++ extra1)%list. rewrite H1, H2, app_assoc. reflexivity.
Qed.

Lemma categories_update_other items k :
  ~ In k (map fst items) ->
  forall d, categories_get k (categories_update d items) = categories_get k d.
Proof.
  unfold categories_update.
  induction items as [| [k0 v0] items IH]; intros Hnin d;
    cbn [fold_left fst snd]; [reflexivity |].
  cbn in Hnin. rewrite IH by tauto.
  apply categories_get_set_ne. tauto.
Qed.

Lemma categories_update_listed items k v :
  List.NoDup (map fst items) -> In (k, v) items ->
  forall d, categories_get k (categories_update d items) = Some v.
Proof.
  unfold categories_update.
  induction items as [| [k0 v0] items IH]; intros Hnd Hin d; [destruct Hin |].
  cbn [fold_left fst snd]. cbn in Hnd.
  inversion Hnd as [| ? ? Hnotin Hnd']; subst.
  destruct Hin as [[= -> ->] | Hin].
  - fold (categories_update (categories_set k v d) items).
    rewrite categories_update_other by exact Hnotin.
    apply categories_get_set_eq.
  - now apply IH.
Qed.

Lemma categories_update_same items :
  forall d,
    (forall k v, In (k, v) items -> categories_get k d = Some v) ->
    categories_update d items = d.
Proof.
  unfold categories_update.
  induction items as [| [k v] items IH]; intros d H; [reflexivity |].
  cbn [fold_left fst snd].
  rewrite categories_set_same by (apply H; now left).
  apply IH. intros k' v' Hin. apply H. now right.
Qed.

(** X9. [load_config] merges the keyword table and replaces the rules: the
    categories present before keep their place (new ones go to the end), a
    category listed in the document gets the document's keywords, a
    category not listed keeps its own, and the custom rules become those
    of the document, none when the document has no [custom_rules]. *)
Theorem load_config_merges_categories c (config : config_document) :
  let items := default [] (cfg_process_categories config) in
  let c' := snd (load_config c (ConfigJson config)) in
  List.NoDup (map fst items) ->
  fst (load_config c (ConfigJson config)) = true
  /\ (exists extra,
       map fst (process_categories c')
       = (map fst (process_categories c) ++ extra)%list)
  /\ (forall k v, In (k, v) items ->
        categories_get k (process_categories c') = Some v)
  /\ (forall k, ~ In k (map fst items) ->
        categories_get k (process_categories c')
        = categories_get k (process_categories c))
  /\ custom_rules c' = default [] (cfg_custom_rules config).
Proof.
  intros items c' Hnd.
  assert (Hcat : process_categories c'
                 = categories_update (process_categories c) items).
  { subst c'. unfold load_config, _update_performance_tags_from_config.
    cbn [snd performance_thresholds].
    destruct (default [] (cfg_performance_thresholds config)); reflexivity. }
  assert (Hrules : custom_rules c' = default [] (cfg_custom_rules config)).
  { subst c'. unfold load_config, _update_performance_tags_from_config.
    cbn [snd performance_thresholds].
    destruct (default [] (cfg_performance_thresholds config)); reflexivity. }
  rewrite Hcat. split; [reflexivity |].
  split; [apply categories_update_keys |].
  split; [intros k v Hin; now apply categories_update_listed |].
  split; [intros k Hk; now apply categories_update_other | exact Hrules].
Qed.

Lemma load_config_merges_categories_witness :
  let config := {| cfg_process_categories :=
                     Some [("network_services", ["haproxy"]);
                           ("databases", ["mongod"])];
                   cfg_custom_rules := None;
                   cfg_performance_thresholds := None;
                   cfg_tag_definitions := None;
                   cfg_system_settings := None |} in
  let c := add_custom_rule init "batch" ["backup"] None None 2 in
  let c' := snd (load_config c (ConfigJson config)) in
  categories_get "network_services" (process_categories c') = Some ["haproxy"]
  /\ categories_get "databases" (process_categories c') = Some ["mongod"]
  /\ custom_rules c' = [].
Proof.
  intros config c c'.
  destruct (load_config_merges_categories c config)
    as (_ & _ & Hl & _ & Hr).
  - cbn. repeat constructor; cbn; intuition discriminate.
  - split; [apply Hl; left; reflexivity |].
    split; [apply Hl; right; left; reflexivity | exact Hr].
Defined.

(** X10. Writing the configuration with [save_config] and loading it back
    into the same classifier returns [True] and keeps the keyword table,
    the custom rules and the performance-tag table, but empties
    [performance_thresholds], [tag_definitions] and [system_settings],
    which [save_config] does not write: the classifier is unchanged exactly
    when these three were empty.  Loaded into a fresh classifier, the
    saved document restores the custom rules and the keywords of every
    saved category. *)
Theorem save_then_load_config c :
  List.NoDup (map fst (process_categories c)) ->
  let c' := snd (load_config c (save_config c)) in
  fst (load_config c (save_config c)) = true
  /\ process_categories c' = process_categories c
  /\ custom_rules c' = custom_rules c
  /\ performance_tags c' = performance_tags c
  /\ performance_thresholds c' = []
  /\ tag_definitions c' = JObject []
  /\ system_settings c' = JObject []
  /\ (c' = c <->
      performance_thresholds c = [] /\ tag_definitions c = JObject []
      /\ system_settings c = JObject [])
  /\ custom_rules (snd (load_config init (save_config c))) = custom_rules c
  /\ forall k v,
       In (k, v) (process_categories c) ->
       categories_get k (process_categories (snd (load_config init (save_config c))))
       = Some v.
Proof.
  intros Hnd c'.
  assert (Hsame : categories_update (process_categories c) (process_categories c)
                  = process_categories c).
  { apply categories_update_same.
    intros k v Hin. now apply categories_get_NoDup. }
  assert (Hc' : c' = {| process_categories := process_categories c;
                        performance_tags := performance_tags c;
                        custom_rules := custom_rules c;
                        performance_thresholds := [];
                        tag_definitions := JObject [];
                        system_settings := JObject [] |}).
  { subst c'. unfold load_config, save_config, _update_performance_tags_from_config.
    cbn [snd cfg_process_categories cfg_custom_rules cfg_performance_thresholds
         cfg_tag_definitions cfg_system_settings from_option id
         performance_thresholds].
    now rewrite Hsame. }
  split; [reflexivity |].
  rewrite Hc'. cbn [process_categories custom_rules performance_tags
                    performance_thresholds tag_definitions system_settings].
  do 6 (split; [reflexivity |]).
  split; [| split].
  - split.
    + intros <-. repeat split.
    + intros (Ht & Hd & Hs). destruct c. cbn in Ht, Hd, Hs. now subst.
  - reflexivity.
  - intros k v Hin. unfold load_config, save_config,
      _update_performance_tags_from_config.
    cbn [cfg_process_categories cfg_custom_rules cfg_performance_thresholds
         cfg_tag_definitions cfg_system_settings from_option id snd
         process_categories performance_thresholds].
    now apply categories_update_listed.
Qed.

Lemma save_then_load_config_witness :
  let config := {| cfg_process_categories := None;
                   cfg_custom_rules :=
                     Some [ {| rule_category := Some "batch";
                               keywords := Some ["backup"];
                               cpu_threshold := None; memory_threshold := None;
                               weight := Some 2 |} ];
                   cfg_performance_thresholds := Some [("cpu_intensive", 90%Q)];
                   cfg_tag_definitions :=
                     Some (JObject [("ops", JString "red")]);
                   cfg_system_settings := None |} in
  let c := snd (load_config init (ConfigJson config)) in
  let c' := snd (load_config c (save_config c)) in
  process_categories c' = process_categories c
  /\ custom_rules c' = custom_rules c
  /\ performance_tags c' = performance_tags c
  /\ performance_thresholds c = [("cpu_intensive", 90%Q)]
  /\ performance_thresholds c' = []
  /\ c' <> c.
Proof.
  intros config c c'.
  destruct (save_then_load_config c)
    as (_ & Hcat & Hrules & Htags & Hthr & _ & _ & Hiff & _).
  - cbn. repeat constructor; cbn; intuition discriminate.
  - split; [exact Hcat |]. split; [exact Hrules |]. split; [exact Htags |].
    split; [reflexivity |]. split; [exact Hthr |].
    intros Heq. apply Hiff in Heq. destruct Heq as (Habs & _).
    discriminate Habs.
Defined.

End Configuration.

(** ** Label store operations *)

Section LabelOperations.
Import LabelManager.

Implicit Types (lm : label_manager) (pid : Z) (label tag : string).

(** X11. [add_label] always succeeds; it adds the label to the labels of
    its pid, replaces the note when a non-empty one is given and keeps it
    otherwise, and leaves the record of every other pid as it was. *)
Theorem add_label_touches_one_pid lm pid label note now :
  let lm' := snd (add_label lm pid label note now) in
  fst (add_label lm pid label note now) = true
  /\ get_process_labels lm' pid = get_process_labels lm pid ∪ {[label]}
  /\ (notes <$> labels_db lm' !! pid) =
     Some (if note_truthy note then default "" note
           else default "" (notes <$> labels_db lm !! pid))
  /\ forall pid', pid' <> pid -> labels_db lm' !! pid' = labels_db lm !! pid'.
Proof.
  intros lm'. subst lm'. split; [reflexivity |]. split; [| split].
  - unfold get_process_labels at 1. rewrite add_label_lookup.
    rewrite decide_True by reflexivity. reflexivity.
  - rewrite add_label_lookup, decide_True by reflexivity.
    cbn [fmap option_fmap option_map notes].
    destruct (note_truthy note); [reflexivity |].
    destruct (labels_db lm !! pid); reflexivity.
  - intros pid' Hne. rewrite add_label_lookup.
    rewrite decide_False by congruence. reflexivity.
Qed.

(** X12. [remove_label] returns [False], and changes nothing, exactly when
    the pid does not carry the label; otherwise it returns [True], the
    labels of the pid lose that label and no other, and the record of every
    other pid is as it was. *)
Theorem remove_label_outcome lm pid label now :
  let lm' := snd (remove_label lm pid label now) in
  (fst (remove_label lm pid label now) = true <->
   label ∈ get_process_labels lm pid)
  /\ (fst (remove_label lm pid label now) = false -> lm' = lm)
  /\ get_process_labels lm' pid = get_process_labels lm pid ∖ {[label]}
  /\ forall pid', pid' <> pid -> labels_db lm' !! pid' = labels_db lm !! pid'.
Proof.
  intros lm'. subst lm'. unfold get_process_labels.
  destruct (labels_db lm !! pid) as [info |] eqn:Hdb.
  - destruct (decide (label ∈ tags info)) as [Hin | Hnin].
    + pose proof (remove_label_lookup lm pid label now info) as Hlk.
      destruct (Hlk pid Hdb Hin) as [Hret Hpid].
      rewrite Hret, Hpid, decide_True by reflexivity.
      split; [tauto |]. split; [discriminate |]. split.
      * destruct (decide (tags info ∖ {[label]} = ∅)) as [He | Hn];
          [now rewrite He | reflexivity].
      * intros pid' Hne. destruct (Hlk pid' Hdb Hin) as [_ H'].
        rewrite H', decide_False by congruence. reflexivity.
    + unfold remove_label. rewrite Hdb.
      rewrite bool_decide_eq_false_2 by exact Hnin. cbn [fst snd].
      rewrite Hdb. split; [split; [discriminate | tauto] |].
      split; [reflexivity |]. split; [| reflexivity].
      apply leibniz_equiv. intros x. rewrite elem_of_difference, elem_of_singleton.
      split; [| tauto]. intros Hx. split; [exact Hx | congruence].
  - unfold remove_label. rewrite Hdb. cbn [fst snd]. rewrite Hdb.
    split; [split; [discriminate | intros H; exfalso; revert H; apply not_elem_of_empty] |].
    split; [reflexivity |]. split; [| reflexivity].
    apply leibniz_equiv. intros x. rewrite elem_of_difference.
    split; [intros H; exfalso; revert H; apply not_elem_of_empty | tauto].
Qed.

(** X13. Adding a label a pid does not carry and removing it again gives
    every pid the labels it had; when the pid had no record at all, the
    database itself is as before. *)
Theorem add_then_remove_restores_labels lm pid label note now now' :
  label ∉ get_process_labels lm pid ->
  let lm2 := snd (remove_label (snd (add_label lm pid label note now))
                    pid label now') in
  (forall pid', get_process_labels lm2 pid' = get_process_labels lm pid')
  /\ (labels_db lm !! pid = None -> labels_db lm2 = labels_db lm).
Proof.
  intros Hnin lm2. subst lm2.
  set (lm1 := snd (add_label lm pid label note now)).
  assert (H1 : forall pid', labels_db lm1 !! pid' = _)
    by (intros pid'; apply add_label_lookup).
  pose proof (H1 pid) as Hp. rewrite decide_True in Hp by reflexivity.
  assert (Hin : label ∈ get_process_labels lm pid ∪ {[label]})
    by (apply elem_of_union_r, elem_of_singleton; reflexivity).
  assert (Hdiff : (get_process_labels lm pid ∪ {[label]}) ∖ {[label]}
                  = get_process_labels lm pid).
  { apply leibniz_equiv. intros x.
    rewrite elem_of_difference, elem_of_union, elem_of_singleton.
    split; [tauto |]. intros Hx. split; [now left | congruence]. }
  assert (H2 : forall pid',
             labels_db (snd (remove_label lm1 pid label now')) !! pid' = _)
    by (intros pid'; exact (proj2 (remove_label_lookup lm1 pid label now' _ pid'
                                     Hp Hin))).
  cbn [tags notes] in H2. rewrite Hdiff in H2.
  split.
  - intros pid'. unfold get_process_labels at 1. rewrite H2.
    destruct (decide (pid = pid')) as [<- | Hne].
    + destruct (decide (get_process_labels lm pid = ∅)) as [He | Hn];
        [now rewrite He | reflexivity].
    + rewrite H1, decide_False by exact Hne. reflexivity.
  - intros Hnone. apply map_eq. intros pid'. rewrite H2.
    destruct (decide (pid = pid')) as [<- | Hne].
    + rewrite decide_True; [now rewrite Hnone |].
      unfold get_process_labels. now rewrite Hnone.
    + rewrite H1, decide_False by exact Hne. reflexivity.
Qed.

Lemma add_then_remove_restores_labels_witness :
  let lm := snd (add_label (init Missing) 42 "monitor_closely" None "t0") in
  let lm2 := snd (remove_label (snd (add_label lm 42 "experimental" None "t1"))
                    42 "experimental" "t2") in
  get_process_labels lm2 42 = {["monitor_closely"]}.
Proof.
  intros lm lm2.
  destruct (add_then_remove_restores_labels lm 42 "experimental" None "t1" "t2")
    as [H _].
  - vm_compute. intros H. discriminate H.
  - subst lm2. rewrite H. vm_compute. reflexivity.
Defined.

End LabelOperations.

(** ** Persistence of the label store *)

Section LabelPersistence.
Import LabelManager.

Implicit Types (lm : label_manager) (pid : Z) (label tag : string).

Lemma load_saved_labels lm lm0 now :
  storage_file lm = storage_file (save_labels lm0 now) ->
  labels_db (load_labels lm) = labels_db lm0.
Proof.
  intros Hf. unfold load_labels. rewrite Hf. unfold save_labels.
  cbn -[load_items map_to_list map].
  rewrite load_items_saved, fold_left_insert_map_to_list. reflexivity.
Qed.

(** X14. Every successful mutation is on disk when it returns: a manager
    opened on the storage file after [add_label], or after a [remove_label]
    that returned [True], holds the same database as the manager that did
    the mutation; a [remove_label] that returned [False] wrote nothing. *)
Theorem mutations_are_persisted lm pid label note now :
  labels_db (init (storage_file (snd (add_label lm pid label note now))))
  = labels_db (snd (add_label lm pid label note now))
  /\ (if fst (remove_label lm pid label now)
      then labels_db (init (storage_file (snd (remove_label lm pid label now))))
           = labels_db (snd (remove_label lm pid label now))
      else storage_file (snd (remove_label lm pid label now)) = storage_file lm).
Proof.
  split.
  - unfold add_label. cbn [snd]. unfold init.
    erewrite load_saved_labels; [| reflexivity]. reflexivity.
  - unfold remove_label.
    destruct (labels_db lm !! pid) as [info |]; [| reflexivity].
    destruct (bool_decide (label ∈ tags info)); [| reflexivity].
    cbn [fst snd]. unfold init.
    erewrite load_saved_labels; [| reflexivity]. reflexivity.
Qed.

(** A character outside the syntax of numerals survives the stripping and
    stops the scan. *)
Lemma outside_numeral_spec c :
  outside_numeral c = true ->
  is_space c = false /\ is_digit c = false
  /\ Ascii.eqb c "-" = false /\ Ascii.eqb c "+" = false
  /\ Ascii.eqb c "_" = false.
Proof.
  unfold outside_numeral. cbv zeta. intros H.
  repeat (apply andb_prop in H; destruct H as [H ?]).
  repeat match goal with
         | Hn : negb _ = true |- _ => apply negb_true_iff in Hn
         end.
  apply Nat.leb_le in H.
  repeat split; try assumption.
  unfold is_space. cbv zeta.
  destruct (Nat.leb_spec (nat_of_ascii c) 13), (Nat.eqb_spec (nat_of_ascii c) 32);
    try lia; rewrite ?andb_false_r; reflexivity.
Qed.

Lemma lstrip_keeps c s :
  is_space c = false -> In c (list_ascii_of_string s) -> In c (list_ascii_of_string (lstrip s)).
Proof.
  intros Hc. induction s as [| a rest IH]; [intros [] |].
  intros Hin. cbn [lstrip].
  destruct (is_space a) eqn:Ea; [| exact Hin].
  destruct Hin as [-> | Hin]; [congruence | exact (IH Hin)].
Qed.

Lemma rstrip_keeps c s :
  is_space c = false -> In c (list_ascii_of_string s) -> In c (list_ascii_of_string (rstrip s)).
Proof.
  intros Hc. induction s as [| a rest IH]; [intros [] |].
  intros Hin. cbn [rstrip].
  destruct Hin as [-> | Hin].
  - destruct (rstrip rest); [rewrite Hc |]; now left.
  - specialize (IH Hin).
    destruct (rstrip rest); [destruct IH | now right].
Qed.

Lemma numeral_digits_outside c s :
  is_digit c = false -> Ascii.eqb c "_" = false -> In c (list_ascii_of_string s) ->
  forall b, numeral_digits b s = None.
Proof.
  intros Hd Hu. induction s as [| a rest IH]; [intros [] |].
  intros Hin b. cbn [numeral_digits].
  destruct Hin as [-> | Hin].
  - now rewrite Hd, Hu.
  - destruct (is_digit a); [now rewrite (IH Hin) |].
    destruct (Ascii.eqb a "_"); [| reflexivity].
    destruct b; [exact (IH Hin _) | reflexivity].
Qed.

Lemma py_int_outside_numeral c s :
  outside_numeral c = true -> In c (list_ascii_of_string s) -> py_int s = Raise ValueError.
Proof.
  intros Hc Hin.
  destruct (outside_numeral_spec c Hc) as (Hsp & Hd & Hminus & Hplus & Hu).
  pose proof (rstrip_keeps c _ Hsp (lstrip_keeps c s Hsp Hin)) as Hk.
  unfold py_int. destruct (rstrip (lstrip s)) as [| a rest]; [destruct Hk |].
  assert (Hbody : forall body, In c (list_ascii_of_string body) ->
            match numeral_digits false body with
            | Some digits =>
                match NilZero.uint_of_string digits with
                | Some d => Ok (if false then - Z.of_uint d else Z.of_uint d)
                | None => Raise ValueError
                end
            | None => Raise ValueError
            end = Raise ValueError).
  { intros body Hb. now rewrite (numeral_digits_outside c body Hd Hu Hb). }
  assert (Hrest : a <> c -> In c (list_ascii_of_string rest)).
  { intros Hne. destruct Hk as [He | Hr]; [congruence | exact Hr]. }
  destruct (Ascii.eqb_spec a "-") as [-> | Hn1].
  - rewrite (numeral_digits_outside c rest Hd Hu); [reflexivity |].
    apply Hrest. intros <-. discriminate.
  - destruct (Ascii.eqb_spec a "+") as [-> | Hn2].
    + rewrite (numeral_digits_outside c rest Hd Hu); [reflexivity |].
      apply Hrest. intros <-. discriminate.
    + now rewrite (numeral_digits_outside c _ Hd Hu Hk).
Qed.

Lemma py_int_raises s e : py_int s = Raise e -> e = ValueError.
Proof.
  unfold py_int.
  destruct (rstrip (lstrip s)) as [| a rest].
  - cbn. congruence.
  - destruct (Ascii.eqb a "-"); [| destruct (Ascii.eqb a "+")];
      (destruct (numeral_digits false _); [| congruence]);
      (destruct (NilZero.uint_of_string _); congruence).
Qed.

Lemma load_items_bad_key items :
  forall db k info,
    In (k, info) items -> py_int k = Raise ValueError ->
    load_items items db = Raise ValueError.
Proof.
  induction items as [| [k0 info0] rest IH]; intros db k info Hin Hbad;
    [destruct Hin |].
  cbn [load_items].
  destruct Hin as [[= -> ->] | Hin].
  - rewrite Hbad. reflexivity.
  - destruct (py_int k0) as [z | e] eqn:Ek; cbn [py_bind].
    + exact (IH _ k info Hin Hbad).
    + now rewrite (py_int_raises _ _ Ek).
Qed.

(** X15. A storage file that cannot be read, or whose label table has a
    key that is no integer numeral (the empty string, or a string with a
    printable ASCII character other than a digit, a sign or an underscore,
    such as ['N/A'] or ['1.5']), loads as an empty store: no record of the
    file is kept, not even those under well-formed keys, and the tag
    definitions stay as they were. *)
Theorem load_labels_bad_file lm :
  (storage_file lm = Unreadable ->
   labels_db (load_labels lm) = ∅
   /\ tag_definitions (load_labels lm) = tag_definitions lm)
  /\ forall data items k info,
       storage_file lm = Json data ->
       doc_labels data = Some items ->
       In (k, info) items ->
       k = ""
       \/ (exists c, In c (list_ascii_of_string k)
                     /\ outside_numeral c = true) ->
       labels_db (load_labels lm) = ∅
       /\ tag_definitions (load_labels lm) = tag_definitions lm.
Proof.
  split.
  - intros Hf. unfold load_labels. rewrite Hf. split; reflexivity.
  - intros data items k info Hf Hd Hin Hbad.
    assert (Hk : py_int k = Raise ValueError).
    { destruct Hbad as [-> | (c & Hc & Hout)]; [reflexivity |].
      exact (py_int_outside_numeral c k Hout Hc). }
    unfold load_labels. rewrite Hf, Hd. cbn [from_option id].
    rewrite (load_items_bad_key items ∅ k info Hin Hk).
    split; reflexivity.
Qed.

Lemma load_labels_bad_file_witness :
  let data := {| doc_labels :=
                   Some [("42", {| saved_tags := ["experimental"];
                                   saved_notes := ""; saved_last_updated := "t0" |});
                         ("N/A", {| saved_tags := ["high_priority"];
                                    saved_notes := ""; saved_last_updated := "t1" |})];
                 doc_tag_definitions := None; last_saved := Some "t1" |} in
  labels_db (init (Json data)) = ∅
  /\ tag_definitions (init (Json data)) = default_tag_definitions.
Proof.
  intros data.
  eapply (proj2 (load_labels_bad_file
                   {| labels_db := ∅; tag_definitions := default_tag_definitions;
                      storage_file := Json data |})
            data _ "N/A" _ eq_refl eq_refl).
  - right. left. reflexivity.
  - right. exists "N"%char. split; [left; reflexivity | reflexivity].
Defined.

(** Keys that [int] accepts although [str] never writes them: a sign, white
    space around the numeral, underscores between digits, leading zeros. *)
Lemma load_labels_signed_key :
  let info := {| saved_tags := ["experimental"]; saved_notes := "";
                 saved_last_updated := "t0" |} in
  map py_int ["+7"; " 7 "; "0_7"; "007"; "-7_1"] = [Ok 7; Ok 7; Ok 7; Ok 7; Ok (-71)]
  /\ map py_int ["7_"; "_7"; "7__7"; "+ 7"; "--7"; "+"]
     = repeat (Raise ValueError) 6
  /\ labels_db (init (Json {| doc_labels := Some [("+7", info)];
                              doc_tag_definitions := None;
                              last_saved := None |}))
     = {[ 7 := load_record info ]}.
Proof. cbv zeta. repeat split; vm_compute; reflexivity. Qed.

Lemma update_union (l : list (string * tag_definition)) :
  forall d, update d l = list_to_map (rev l) ∪ d.
Proof.
  unfold update. induction l as [| [k v] l IH]; intros d.
  - cbn. now rewrite (left_id_L ∅ (∪)).
  - cbn [fold_left fst snd rev]. rewrite IH, list_to_map_app.
    cbn [list_to_map foldr fst snd].
    rewrite <- (assoc_L (∪)). f_equal.
    rewrite insert_union_singleton_l, insert_empty. reflexivity.
Qed.

Lemma opened_tag_definitions lm now :
  tag_definitions (init (storage_file (save_labels lm now)))
  = tag_definitions lm ∪ default_tag_definitions.
Proof.
  unfold init, load_labels, save_labels.
  cbn -[load_items map_to_list map update].
  rewrite load_items_saved. cbn [tag_definitions].
  rewrite update_union. f_equal.
  rewrite <- (list_to_map_to_list (tag_definitions lm)) at 2.
  apply list_to_map_proper.
  - apply NoDup_ListNoDup.
    change (List.NoDup (map fst (rev (map_to_list (tag_definitions lm))))).
    rewrite map_rev. apply List.NoDup_rev, NoDup_ListNoDup.
    apply NoDup_fst_map_to_list.
  - symmetry. apply Permutation_rev.
Qed.

(** X16. The tag catalogue after opening a saved store is the saved
    catalogue laid over the six default definitions: every saved definition
    is there with its saved colour and description, and a default that the
    saved catalogue does not name is still there. *)
Theorem opened_catalogue_is_union lm now :
  let opened := init (storage_file (save_labels lm now)) in
  tag_definitions opened = tag_definitions lm ∪ default_tag_definitions
  /\ (forall tag def, tag_definitions lm !! tag = Some def ->
        tag_definitions opened !! tag = Some def)
  /\ (forall tag, tag_definitions lm !! tag = None ->
        tag_definitions opened !! tag = default_tag_definitions !! tag).
Proof.
  intros opened. subst opened. rewrite opened_tag_definitions.
  split; [reflexivity |]. split.
  - intros tag def H. now apply lookup_union_Some_l.
  - intros tag H. now apply lookup_union_r.
Qed.

(** X27. [add_tag_definition] writes nothing by itself, so a manager opened
    on the file right after it has the catalogue it would have had before;
    the next [add_label] writes the catalogue, and from then on a manager
    opened on the file has the added definition, also in place of a default
    of the same name. *)
Theorem tag_definition_written_by_next_mutation lm tag c d pid label note now :
  tag_definitions (init (storage_file (add_tag_definition lm tag c d)))
  = tag_definitions (init (storage_file lm))
  /\ tag_definitions
       (init (storage_file
                (snd (add_label (add_tag_definition lm tag c d)
                        pid label note now)))) !! tag
     = Some {| color := c; description := d |}.
Proof.
  split; [reflexivity |].
  unfold add_label. cbn [snd]. rewrite opened_tag_definitions.
  apply lookup_union_Some_l. cbn [tag_definitions with_labels_db add_tag_definition].
  apply lookup_insert_eq.
Qed.

End LabelPersistence.

(** ** Searching, counting and merging labels *)

Section LabelQueries.
Import LabelManager.

Implicit Types (lm : label_manager) (pid : Z) (label tag : string).

Lemma NoDup_map_fst_filter {A B} (f : A * B -> bool) (l : list (A * B)) :
  List.NoDup (map fst l) -> List.NoDup (map fst (List.filter f l)).
Proof.
  induction l as [| x l IH]; cbn; [trivial |].
  intros Hnd. inversion Hnd as [| ? ? Hnotin Hnd']; subst.
  destruct (f x); cbn; [| now apply IH].
  constructor; [| now apply IH].
  intros Hin. apply Hnotin. apply in_map_iff in Hin.
  destruct Hin as (y & Hy & Hf). apply filter_In in Hf.
  apply in_map_iff. exists y. tauto.
Qed.

(** X17. [search_by_tag] returns each pid at most once, and exactly the
    pids whose labels contain the tag. *)
Theorem search_by_tag_finds_labelled_pids lm tag :
  List.NoDup (search_by_tag lm tag)
  /\ forall pid,
       In pid (search_by_tag lm tag) <-> tag ∈ get_process_labels lm pid.
Proof.
  split.
  - unfold search_by_tag. apply NoDup_map_fst_filter.
    apply NoDup_ListNoDup, NoDup_fst_map_to_list.
  - intros pid. rewrite search_by_tag_In. unfold get_process_labels.
    destruct (labels_db lm !! pid) as [info |].
    + split; [intros (info' & [= <-] & H); exact H | eauto].
    + split; [intros (info' & H & _); discriminate H |].
      intros H. exfalso. revert H. apply not_elem_of_empty.
Qed.

Lemma count_tags_lookup (ts : list string) tag :
  NoDup ts ->
  forall stats,
    count_tags ts stats !! tag
    = if decide (tag ∈ ts) then Some (default 0 (stats !! tag) + 1)
      else stats !! tag.
Proof.
  unfold count_tags. induction ts as [| t ts IH]; intros Hnd stats.
  - cbn. rewrite decide_False; [reflexivity | apply not_elem_of_nil].
  - cbn [fold_left]. apply NoDup_cons in Hnd. destruct Hnd as [Hnotin Hnd].
    rewrite (IH Hnd).
    destruct (decide (tag = t)) as [-> | Hne].
    + rewrite decide_False by exact Hnotin.
      rewrite decide_True by (apply list_elem_of_here).
      now rewrite lookup_insert_eq.
    + rewrite lookup_insert_ne by congruence.
      destruct (decide (tag ∈ ts)) as [Hin | Hnin].
      * rewrite decide_True by (now apply list_elem_of_further). reflexivity.
      * rewrite decide_False; [reflexivity |].
        intros H. apply elem_of_cons in H. tauto.
Qed.

Lemma tag_statistics_fold (l : list (Z * label_record)) tag :
  forall stats,
    let n := length (List.filter
                       (fun kv => bool_decide (tag ∈ tags (snd kv))) l) in
    fold_left (fun stats kv => count_tags (elements (tags (snd kv))) stats)
              l stats !! tag
    = if (n =? 0)%nat then stats !! tag
      else Some (default 0 (stats !! tag) + Z.of_nat n).
Proof.
  induction l as [| [k info] l IH]; intros stats; [reflexivity |].
  cbn [fold_left List.filter snd]. cbv zeta in IH |- *. rewrite IH.
  rewrite count_tags_lookup by apply NoDup_elements.
  destruct (decide (tag ∈ tags info)) as [Hin | Hnin].
  - rewrite bool_decide_eq_true_2 by exact Hin.
    rewrite decide_True by (now apply elem_of_elements).
    cbn [length from_option id].
    destruct (length (List.filter
                (fun kv => bool_decide (tag ∈ tags (snd kv))) l)) as [| n'];
      cbn [Nat.eqb]; f_equal; lia.
  - rewrite bool_decide_eq_false_2 by exact Hnin.
    rewrite decide_False by (now rewrite elem_of_elements). reflexivity.
Qed.

(** X18. [get_tag_statistics] counts, for every tag, the pids that
    [search_by_tag] finds for it; a tag carried by no pid has no entry. *)
Theorem tag_statistics_count_searches lm tag :
  get_tag_statistics lm !! tag
  = if (length (search_by_tag lm tag) =? 0)%nat then None
    else Some (Z.of_nat (length (search_by_tag lm tag))).
Proof.
  unfold get_tag_statistics, search_by_tag. rewrite length_map.
  rewrite tag_statistics_fold. rewrite lookup_empty. reflexivity.
Qed.

(** X19. In every merged result the flag [has_manual_labels] is set exactly
    when the attached label list is not empty; the list has no duplicate;
    for a non-zero integer pid it lists exactly the labels of that pid in
    the store, and for a string pid it is empty. *)
Theorem merged_labels_match_store {R : Type}
    (get_pid : R -> option pid_value) lm (results : list R) :
  forall m,
    In m (merge_with_classification get_pid lm results) ->
    (has_manual_labels m = true <-> manual_labels m <> [])
    /\ List.NoDup (manual_labels m)
    /\ (forall z, get_pid (result m) = Some (PidInt z) -> z <> 0 ->
          forall t, In t (manual_labels m) <-> t ∈ get_process_labels lm z)
    /\ (forall s, get_pid (result m) = Some (PidStr s) -> manual_labels m = []).
Proof.
  intros m Hm. unfold merge_with_classification in Hm.
  apply in_map_iff in Hm. destruct Hm as (r & <- & _).
  unfold merge_one.
  destruct (pid_truthy (get_pid r)) eqn:Et; cbn [result manual_labels has_manual_labels].
  - split; [| split; [| split]].
    + destruct (elements _) as [| x l]; cbn; split;
        congruence || discriminate || (intros; reflexivity).
    + apply NoDup_ListNoDup, NoDup_elements.
    + intros z Hz Hnz t. rewrite Hz. cbn [labels_of].
      rewrite <- list_elem_of_In. apply elem_of_elements.
    + intros s Hs. rewrite Hs. cbn [labels_of]. apply elements_empty.
  - split; [split; [discriminate | congruence] |].
    split; [constructor |].
    split; [| reflexivity].
    intros z Hz Hnz. rewrite Hz in Et. cbn in Et.
    apply negb_false_iff, Z.eqb_eq in Et. contradiction.
Qed.

Lemma merged_labels_match_store_witness :
  let lm := snd (add_label (init Missing) 42 "monitor_closely" None "t0") in
  let get_pid := fun r : option pid_value * string => fst r in
  let m := merge_one get_pid lm (Some (PidInt 42), "nginx") in
  In m (merge_with_classification get_pid lm [(Some (PidInt 42), "nginx")])
  /\ has_manual_labels m = true
  /\ forall t, In t (manual_labels m) <-> t ∈ get_process_labels lm 42.
Proof.
  intros lm get_pid m.
  assert (Hm : In m (merge_with_classification get_pid lm
                       [(Some (PidInt 42), "nginx")])) by (left; reflexivity).
  destruct (merged_labels_match_store get_pid lm
              [(Some (PidInt 42), "nginx")] m Hm) as (Hflag & _ & Hlist & _).
  split; [exact Hm |].
  split; [apply Hflag; vm_compute; discriminate |].
  apply Hlist; [reflexivity | discriminate].
Defined.

End LabelQueries.

(** ** Visual hints and statistics *)

Section Hints.
Import ApiServer.

Lemma color_map_not_gray cat col :
  assoc_get cat color_map = Some col -> String.eqb col "gray" = false.
Proof.
  unfold color_map. cbn [assoc_get].
  repeat match goal with
         | |- context [if String.eqb ?a cat then _ else _] =>
             destruct (String.eqb a cat)
         end;
    intros [= <-] || discriminate; reflexivity.
Qed.

(** X20. The colour of the visual hint follows a strict precedence: the
    label [high_priority] gives [darkred] whatever else holds; otherwise
    [monitor_closely] gives [orange]; otherwise a category of the colour
    table gives its colour, and cpu and memory usage never change it; only
    a process without these gets [orange] for cpu > 70, else [purple] for
    memory > 50, else [gray]. *)
Theorem visual_color_precedence (p : process_info) :
  let labels := default [] (user_labels p) in
  let cat := default "unknown" (category p) in
  let cpu := default 0%Q (cpu_usage p) in
  let memory := default 0%Q (memory_usage p) in
  (In "high_priority" labels -> visual_color p = "darkred")
  /\ (~ In "high_priority" labels -> In "monitor_closely" labels ->
      visual_color p = "orange")
  /\ (~ In "high_priority" labels -> ~ In "monitor_closely" labels ->
      match assoc_get cat color_map with
      | Some col => visual_color p = col
      | None =>
          visual_color p
          = if Qltb 70 cpu then "orange"
            else if Qltb 50 memory then "purple" else "gray"
      end).
Proof.
  intros labels cat cpu memory. unfold visual_color.
  fold labels cat cpu memory. rewrite <- !str_in_In.
  split; [| split].
  - intros H. rewrite H. cbn -[Qltb]. rewrite !andb_false_r. reflexivity.
  - intros H1 H2. apply not_true_is_false in H1. rewrite H1, H2.
    cbn -[Qltb]. rewrite !andb_false_r. reflexivity.
  - intros H1 H2. apply not_true_is_false in H1, H2. rewrite H1, H2.
    destruct (assoc_get cat color_map) as [col |] eqn:Ec.
    + rewrite (color_map_not_gray cat col Ec), !andb_false_r.
      now rewrite (color_map_not_gray cat col Ec), !andb_false_r.
    + destruct (Qltb 70 cpu); cbn -[Qltb].
      * now rewrite andb_false_r.
      * destruct (Qltb 50 memory); reflexivity.
Qed.

(** X21. The priority is 9 for a process labelled [high_priority] or of
    category [system_critical]; otherwise 8 for one labelled
    [business_critical] or with cpu > 80; otherwise 5.  It takes no other
    value: the final cap at 10 never applies. *)
Theorem priority_takes_three_values (p : process_info) :
  let labels := default [] (user_labels p) in
  let cat := default "" (category p) in
  let cpu := default 0%Q (cpu_usage p) in
  calculate_priority p
  = if str_in "high_priority" labels || String.eqb cat "system_critical" then 9
    else if str_in "business_critical" labels || Qltb 80 cpu then 8
    else 5.
Proof.
  intros labels cat cpu. unfold calculate_priority. fold labels cat cpu.
  destruct (str_in "high_priority" labels),
           (str_in "business_critical" labels),
           (String.eqb cat "system_critical"), (Qltb 80 cpu); reflexivity.
Qed.

Lemma dict_get_set (d : list (string * Z)) k v k' :
  ProcessClassifier.dict_get k' (ProcessClassifier.dict_set k v d)
  = if String.eqb k k' then Some v else ProcessClassifier.dict_get k' d.
Proof.
  induction d as [| [k0 v0] d IH]; cbn.
  - destruct (String.eqb k k'); reflexivity.
  - destruct (String.eqb_spec k0 k) as [-> | Hne]; cbn.
    + destruct (String.eqb k k'); reflexivity.
    + destruct (String.eqb_spec k0 k') as [-> | Hne'].
      * destruct (String.eqb_spec k k'); [congruence | reflexivity].
      * exact IH.
Qed.

Lemma sum_values_bump (d : list (string * Z)) k w :
  ProcessClassifier.sum_values (ProcessClassifier.bump k w d)
  = ProcessClassifier.sum_values d + w.
Proof.
  unfold ProcessClassifier.bump.
  induction d as [| [k0 v0] d IH].
  - cbn. unfold ProcessClassifier.sum_values. cbn. lia.
  - cbn [ProcessClassifier.dict_get ProcessClassifier.dict_set].
    destruct (String.eqb k0 k).
    + rewrite !sum_values_cons. cbn. lia.
    + rewrite !sum_values_cons, IH. lia.
Qed.

Lemma bump_keys_NoDup (d : list (string * Z)) k w :
  List.NoDup (map fst d) ->
  List.NoDup (map fst (ProcessClassifier.bump k w d)).
Proof.
  intros Hnd. unfold ProcessClassifier.bump.
  destruct (ProcessClassifier.dict_get k d) as [v0 |] eqn:Eg.
  - rewrite dict_set_present; [exact Hnd |].
    apply dict_get_In in Eg. apply (in_map fst) in Eg. exact Eg.
  - apply dict_get_None in Eg. rewrite dict_set_absent by exact Eg.
    rewrite map_app. cbn. apply NoDup_ListNoDup, NoDup_app.
    split; [apply NoDup_ListNoDup, Hnd |].
    split; [| apply NoDup_singleton].
    intros x Hx Hx'. apply list_elem_of_In in Hx.
    apply list_elem_of_singleton in Hx'. subst. tauto.
Qed.

Local Abbreviation category_of proc :=
  (default "unknown" (category (row proc))).

Lemma statistics_fold (processes : list stat_row) :
  forall st,
    let st' := fold_left statistics_step processes st in
    ProcessClassifier.sum_values (by_category st')
    = ProcessClassifier.sum_values (by_category st)
      + Z.of_nat (length processes)
    /\ (List.NoDup (map fst (by_category st)) ->
        List.NoDup (map fst (by_category st')))
    /\ (forall c,
          ProcessClassifier.score_of (by_category st') c
          = ProcessClassifier.score_of (by_category st) c
            + Z.of_nat (length (List.filter
                                  (fun proc => String.eqb (category_of proc) c)
                                  processes)))
    /\ tagged_processes st'
       = tagged_processes st
         + Z.of_nat (length (List.filter
                               (fun proc => default false (is_tagged proc))
                               processes))
    /\ cpu_intensive st'
       = cpu_intensive st
         + Z.of_nat (length (List.filter
                               (fun proc =>
                                  Qltb 70 (default 0%Q (cpu_usage (row proc))))
                               processes))
    /\ memory_intensive st'
       = memory_intensive st
         + Z.of_nat (length (List.filter
                               (fun proc =>
                                  Qltb 30 (default 0%Q (memory_usage (row proc))))
                               processes)).
Proof.
  induction processes as [| proc rest IH]; intros st.
  - cbn. repeat split; intros; try lia; trivial.
  - cbn [fold_left]. cbv zeta in IH |- *.
    destruct (IH (statistics_step st proc))
      as (Hsum & Hnd & Hcnt & Htag & Hcpu & Hmem).
    rewrite Hsum. split; [| split; [| split; [| split; [| split]]]].
    + cbn [statistics_step by_category length]. rewrite sum_values_bump. lia.
    + intros H. apply Hnd. cbn [statistics_step by_category].
      now apply bump_keys_NoDup.
    + intros c. rewrite Hcnt. cbn [statistics_step by_category List.filter].
      unfold ProcessClassifier.score_of at 1, ProcessClassifier.bump.
      rewrite dict_get_set.
      destruct (String.eqb (category_of proc) c) eqn:Ec.
      * apply String.eqb_eq in Ec. subst c.
        cbn [from_option id length]. unfold ProcessClassifier.score_of. lia.
      * fold (ProcessClassifier.score_of (by_category st) c). lia.
    + rewrite Htag. cbn [statistics_step tagged_processes List.filter].
      destruct (default false (is_tagged proc)); cbn [length]; lia.
    + rewrite Hcpu. cbn [statistics_step cpu_intensive List.filter].
      destruct (Qltb 70 (default 0%Q (cpu_usage (row proc)))); cbn [length]; lia.
    + rewrite Hmem. cbn [statistics_step memory_intensive List.filter].
      destruct (Qltb 30 (default 0%Q (memory_usage (row proc))));
        cbn [length]; lia.
Qed.

(** X22. [calculate_statistics] counts every process once under its
    category, [unknown] when it has none: the counts by category add up to
    the number of processes, no category is listed twice, the count of a
    category is the number of processes of that category, and
    [tagged_processes] is the number of processes whose [is_tagged] flag is
    set; the [cpu_intensive] and [memory_intensive] counters count the
    processes with cpu > 70 and with memory > 30, whatever their
    category. *)
Theorem statistics_count_every_process (processes : list stat_row) :
  let st := calculate_statistics processes in
  ProcessClassifier.sum_values (by_category st)
  = Z.of_nat (length processes)
  /\ List.NoDup (map fst (by_category st))
  /\ (forall c,
        ProcessClassifier.score_of (by_category st) c
        = Z.of_nat (length (List.filter
                              (fun proc => String.eqb (category_of proc) c)
                              processes)))
  /\ tagged_processes st
     = Z.of_nat (length (List.filter
                           (fun proc => default false (is_tagged proc))
                           processes))
  /\ cpu_intensive st
     = Z.of_nat (length (List.filter
                           (fun proc =>
                              Qltb 70 (default 0%Q (cpu_usage (row proc))))
                           processes))
  /\ memory_intensive st
     = Z.of_nat (length (List.filter
                           (fun proc =>
                              Qltb 30 (default 0%Q (memory_usage (row proc))))
                           processes)).
Proof.
  intros st. subst st. unfold calculate_statistics.
  destruct (statistics_fold processes
              {| by_category := []; tagged_processes := 0;
                 cpu_intensive := 0; memory_intensive := 0 |})
    as (Hsum & Hnd & Hcnt & Htag & Hcpu & Hmem).
  split; [exact Hsum |].
  split; [apply Hnd; constructor |].
  split; [intros c; rewrite Hcnt; reflexivity |].
  split; [exact Htag |]. split; [exact Hcpu | exact Hmem].
Qed.

End Hints.

(** ** The default vocabulary *)

Section Vocabulary.
Import ProcessClassifier.

(** X23. Without a configuration file the category of every process is one
    of the six keyword categories, [idle_process], [cpu_intensive] or
    [unknown]; [memory_intensive] is never a category; and every category
    but [unknown] has a glyph of its own in the icon table. *)
Theorem default_categories_vocabulary name cpu memory :
  exists r,
    classify_process init name cpu memory = Ok r
    /\ In (category r)
          ["system_critical"; "network_services"; "user_applications";
           "background_workers"; "development_tools"; "security_services";
           "idle_process"; "cpu_intensive"; "unknown"]
    /\ category r <> "memory_intensive"
    /\ (category r = "unknown"
        \/ ApiServer.get_category_icon (category r) <> "❓").
Proof.
  destruct (config_ok_scores init name cpu memory eq_refl)
    as (scores & suggested & Hs & Hok).
  destruct (classify_process_from_scores init name cpu memory (score_keys init)
              scores suggested Hs Hok) as (r & Hr & _ & Hnone & Hsome).
  - vm_compute. intuition discriminate.
  - vm_compute. lia.
  - exists r. split; [exact Hr |].
    assert (Hcat : category r = "unknown" \/ In (category r) (score_keys init)).
    { destruct scores as [| kv rest] eqn:E.
      - left. exact (proj1 (Hnone eq_refl)).
      - right. destruct (Hsome ltac:(discriminate)) as (_ & Hin & _).
        destruct Hok as (_ & Hincl & _). apply Hincl.
        apply (in_map fst) in Hin. exact Hin. }
    destruct Hcat as [-> | Hin].
    + split; [cbn; tauto |]. split; [discriminate | now left].
    + cbn in Hin.
      repeat (destruct Hin as [<- | Hin];
              [split; [cbn; tauto |];
               split; [discriminate | right; vm_compute; discriminate] |]).
      destruct Hin.
Qed.

End Vocabulary.

(** ** Scoring batches *)

Section AnalyzerBatches.
Import Analyzer.

Variable model : Type.
Variable fit_predict : model -> list (list Q) -> model * list Z.
Variable decision_function : model -> list (list Q) -> list Q.

Lemma annotate_answered (processes : list process) (preds : list Z)
    (scores : list Q) :
  forall i,
    (i + length processes <= length preds)%nat ->
    (i + length processes <= length scores)%nat ->
    exists results,
      annotate i processes preds scores = Ok results
      /\ length results = length processes
      /\ forall j p,
           processes !! j = Some p ->
           exists pr sc,
             preds !! (i + j)%nat = Some pr /\ scores !! (i + j)%nat = Some sc
             /\ results !! j = Some (set_verdict (pr =? -1) sc p).
Proof.
  induction processes as [| p rest IH]; intros i Hp Hs.
  - exists []. split; [reflexivity |]. split; [reflexivity |].
    intros j q Hq. discriminate Hq.
  - cbn [length] in Hp, Hs. cbn [annotate].
    destruct (lookup_lt_is_Some_2 preds i ltac:(lia)) as [pr Hpr].
    destruct (lookup_lt_is_Some_2 scores i ltac:(lia)) as [sc Hsc].
    rewrite Hpr, Hsc.
    destruct (IH (S i) ltac:(lia) ltac:(lia)) as (rs & Hrs & Hlen & Hall).
    rewrite Hrs. cbn [py_bind]. eexists. split; [reflexivity |].
    split; [cbn; now rewrite Hlen |].
    intros [| j] q Hq.
    + cbn in Hq. injection Hq as <-. exists pr, sc.
      rewrite Nat.add_0_r. repeat split; assumption || reflexivity.
    + cbn in Hq. destruct (Hall j q Hq) as (pr' & sc' & H1 & H2 & H3).
      exists pr', sc'. rewrite <- Nat.add_succ_comm.
      repeat split; assumption.
Qed.

Lemma annotate_unanswered (processes : list process) (preds : list Z)
    (scores : list Q) :
  forall i,
    (i <= length preds)%nat -> (i <= length scores)%nat ->
    (length preds < i + length processes)%nat
    \/ (length scores < i + length processes)%nat ->
    annotate i processes preds scores = Raise IndexError.
Proof.
  induction processes as [| p rest IH]; intros i Hp Hs H.
  - cbn [length] in H. lia.
  - cbn [length] in H. cbn [annotate].
    destruct (preds !! i) as [pr |] eqn:Hpr; [| reflexivity].
    destruct (scores !! i) as [sc |] eqn:Hsc; [| reflexivity].
    apply lookup_lt_Some in Hpr. apply lookup_lt_Some in Hsc.
    rewrite IH; [reflexivity | lia | lia | lia].
Qed.

(** X24. On a batch of 10 or more processes [detect] refits the model on
    the feature rows [cpu, memory, threads, nice] of the batch and asks it
    for predictions and scores, once each.  When the model answers for
    every row, process [j] comes back, in place, with [anomaly] set exactly
    when prediction [j] is -1 and with score [j]; when it answers for fewer
    rows, the call fails with [IndexError] and returns no result. *)
Theorem detect_large_batch (m : model) (processes : list process) :
  (10 <= length processes)%nat ->
  let X := map feature_row processes in
  let m' := fst (fit_predict m X) in
  let preds := snd (fit_predict m X) in
  let scores := decision_function m' X in
  fst (detect model fit_predict decision_function m processes)
  = (m', [FitPredict X; DecisionFunction X])
  /\ ((length processes <= length preds)%nat ->
      (length processes <= length scores)%nat ->
      exists results,
        snd (detect model fit_predict decision_function m processes)
        = Ok results
        /\ length results = length processes
        /\ forall j p,
             processes !! j = Some p ->
             exists pr sc,
               preds !! j = Some pr /\ scores !! j = Some sc
               /\ results !! j = Some (set_verdict (pr =? -1) sc p))
  /\ ((length preds < length processes)%nat
      \/ (length scores < length processes)%nat ->
      snd (detect model fit_predict decision_function m processes)
      = Raise IndexError).
Proof.
  intros Hlen X m' preds scores. unfold detect.
  destruct (Nat.ltb_spec (length processes) 10) as [Hlt | _]; [lia |].
  fold X. subst m' preds scores.
  destruct (fit_predict m X) as [m1 preds1]. cbn [fst snd].
  split; [reflexivity |]. split.
  - intros Hp Hs.
    destruct (annotate_answered processes preds1 (decision_function m1 X) 0
                ltac:(lia) ltac:(lia)) as (rs & Hrs & Hl & Hall).
    exists rs. split; [exact Hrs |]. split; [exact Hl | exact Hall].
  - intros H. apply annotate_unanswered; [lia | lia | cbn; exact H].
Qed.

End AnalyzerBatches.

Lemma detect_large_batch_witness :
  let p := {| Analyzer.pid := 1; Analyzer.name := "worker";
              Analyzer.cpu := 3%Q; Analyzer.memory := 2%Q;
              Analyzer.threads := 8; Analyzer.nice := 0;
              Analyzer.anomaly := None; Analyzer.score := None |} in
  let fit := fun (m : unit) (X : list (list Q)) => (m, map (fun _ => -1) X) in
  let df := fun (m : unit) (X : list (list Q)) => map (fun _ => (-1 # 5)%Q) X in
  fst (Analyzer.detect unit fit df tt (repeat p 10))
  = (tt, [Analyzer.FitPredict (map Analyzer.feature_row (repeat p 10));
          Analyzer.DecisionFunction (map Analyzer.feature_row (repeat p 10))]).
Proof.
  intros p fit df.
  apply (detect_large_batch unit fit df tt (repeat p 10)).
  simpl. lia.
Defined.

Section DetectorBatches.
Import Detector.

Variable predict : list (list Q) -> list Z.
Variable decision_function : list (list Q) -> list Q.
Variable rng : Type.
Variable random : rng -> Q * rng.
Variable random_rate : Q.

Lemma detect_loop_index (processes : list process) (preds : list Z)
    (scores : list Q) :
  forall i g rs g',
    detect_loop rng random random_rate i processes preds scores g
      = Ok (rs, g') ->
    forall j p,
      processes !! j = Some p ->
      exists pred sc g0,
        preds !! (i + j)%nat = Some pred /\ scores !! (i + j)%nat = Some sc
        /\ rs !! j
           = Some (detect_one random_rate p pred sc (fst (random g0))).
Proof.
  induction processes as [| p rest IH]; intros i g rs g' H j q Hq;
    [discriminate Hq |].
  cbn [detect_loop] in H.
  destruct (preds !! i) as [pred |] eqn:Hpred; [| discriminate].
  destruct (random g) as [draw g1] eqn:Hdraw.
  destruct (scores !! i) as [sc |] eqn:Hsc; [| discriminate].
  destruct (detect_loop rng random random_rate (S i) rest preds scores g1)
    as [[rs1 g2] |] eqn:E; [| discriminate].
  cbn [py_bind] in H. injection H as <- <-.
  destruct j as [| j].
  - cbn in Hq. injection Hq as <-. exists pred, sc, g.
    rewrite Nat.add_0_r, Hdraw. repeat split; assumption || reflexivity.
  - cbn in Hq. destruct (IH _ _ _ _ E j q Hq) as (pred' & sc' & g0 & H1 & H2 & H3).
    exists pred', sc', g0. rewrite <- Nat.add_succ_comm.
    repeat split; assumption.
Qed.

Lemma detect_loop_unanswered (processes : list process) (preds : list Z)
    (scores : list Q) :
  forall i g,
    (i <= length preds)%nat -> (i <= length scores)%nat ->
    (length preds < i + length processes)%nat
    \/ (length scores < i + length processes)%nat ->
    detect_loop rng random random_rate i processes preds scores g
    = Raise IndexError.
Proof.
  induction processes as [| p rest IH]; intros i g Hp Hs H.
  - cbn [length] in H. lia.
  - cbn [length] in H. cbn [detect_loop].
    destruct (preds !! i) as [pred |] eqn:Hpred; [| reflexivity].
    destruct (random g) as [draw g1].
    destruct (scores !! i) as [sc |] eqn:Hsc; [| reflexivity].
    apply lookup_lt_Some in Hpred. apply lookup_lt_Some in Hsc.
    rewrite IH; [reflexivity | lia | lia | lia].
Qed.

(** X25. [AnomalyDetector.detect] fails the whole batch with [IndexError]
    when the model answers for fewer processes than the batch holds.  When
    it returns, result [j] carries the pid, name and usage of process [j]
    and the model's score [j]; it is an anomaly whenever the model's
    prediction [j] is -1; and when the random rate is not positive and the
    generator draws no negative number, it is an anomaly only then. *)
Theorem detect_results_follow_model (processes : list process) (g : rng) :
  let feats := map features processes in
  ((length (predict feats) < length processes)%nat
   \/ (length (decision_function feats) < length processes)%nat ->
   detect predict decision_function rng random random_rate processes g
   = Raise IndexError)
  /\ forall results g',
       detect predict decision_function rng random random_rate processes g
       = Ok (results, g') ->
       forall j p,
         processes !! j = Some p ->
         exists r pred sc,
           results !! j = Some r
           /\ predict feats !! j = Some pred
           /\ decision_function feats !! j = Some sc
           /\ r_pid r = pid p /\ r_name r = name p
           /\ r_cpu r = cpu p /\ r_memory r = memory p
           /\ score r = sc
           /\ (pred = -1 -> anomaly r = true)
           /\ ((random_rate <= 0)%Q -> (forall g0, (0 <= fst (random g0))%Q) ->
               anomaly r = (pred =? -1)).
Proof.
  intros feats. split.
  - intros H. unfold detect, detect_with_source. fold feats.
    rewrite detect_loop_unanswered; [reflexivity | lia | lia | cbn; exact H].
  - intros results g' H j p Hp.
    unfold detect, detect_with_source in H. fold feats in H.
    destruct (detect_loop rng random random_rate 0 processes (predict feats)
                (decision_function feats) g) as [[rs g1] |] eqn:E;
      [| discriminate].
    cbn [py_bind] in H. injection H as <- <-.
    destruct (detect_loop_index _ _ _ _ _ _ _ E j p Hp)
      as (pred & sc & g0 & H1 & H2 & H3).
    cbn in H1, H2.
    exists (snd (detect_one random_rate p pred sc (fst (random g0)))), pred, sc.
    split; [rewrite list_lookup_fmap, H3; reflexivity |].
    split; [exact H1 |]. split; [exact H2 |].
    unfold detect_one.
    cbn [snd r_pid r_name r_cpu r_memory score anomaly].
    repeat (split; [reflexivity |]).
    split.
    + intros ->. reflexivity.
    + intros Hrate Hdraw.
      assert (Hr : Qltb (fst (random g0)) random_rate = false).
      { apply Qltb_ge. eapply Qle_trans; [exact Hrate | apply Hdraw]. }
      rewrite Hr. apply orb_false_r.
Qed.

End DetectorBatches.

Lemma detect_results_follow_model_witness :
  let p := {| Detector.pid := 7; Detector.name := "sshd"; Detector.cpu := 2%Q;
              Detector.memory := 1%Q; Detector.threads := 4; Detector.nice := 0;
              Detector.features := [2%Q; 1%Q; 4%Q; 0%Q] |} in
  let predict := fun X : list (list Q) => @nil Z in
  let decision_function := fun X : list (list Q) => map (fun _ => (1 # 10)%Q) X in
  let random := fun n : nat => ((1 # 100)%Q, S n) in
  Detector.detect predict decision_function nat random (3 # 100)%Q [p] 0%nat
  = Raise IndexError.
Proof.
  intros p predict decision_function random.
  apply (proj1 (detect_results_follow_model predict decision_function nat
                  random (3 # 100)%Q [p] 0%nat)).
  left. simpl. lia.
Defined.

(** ** Collecting processes *)

Section Collecting.
Import Collector.

Local Abbreviation live procs :=
  (flat_map (fun pr =>
               match pr with
               | NoSuchProcess => []
               | ProcInfo pid name cpu memory threads nice =>
                   [make_process pid name cpu memory threads nice]
               end) procs).

Lemma collect_loop_take (procs : list proc_read) (limit : Z) :
  forall processes,
    Z.of_nat (length processes) < Z.max limit 1 ->
    collect_loop procs limit processes
    = (processes
       ++ firstn (Z.to_nat (Z.max limit 1) - length processes) (live procs))%list.
Proof.
  induction procs as [| pr rest IH]; intros processes Hlen.
  - cbn. now rewrite firstn_nil, app_nil_r.
  - destruct pr as [| pid name cpu memory threads nice].
    + cbn [collect_loop flat_map]. rewrite app_nil_l. now apply IH.
    + cbn [collect_loop flat_map].
      set (p := make_process pid name cpu memory threads nice).
      rewrite length_app. cbn [length].
      destruct (Z.leb_spec limit (Z.of_nat (length processes + 1))) as [Hle | Hgt].
      * assert (Hone : (Z.to_nat (Z.max limit 1) - length processes = 1)%nat)
          by lia.
        rewrite Hone. cbn. reflexivity.
      * rewrite IH by (rewrite length_app; cbn [length]; lia).
        rewrite length_app. cbn [length]. rewrite <- app_assoc.
        destruct (Z.to_nat (Z.max limit 1) - length processes)%nat
          as [| n] eqn:En; [lia |].
        cbn. repeat f_equal. lia.
Qed.

(** X26. [collect_processes] returns the processes that could be read, in
    the order of the iterator and without those that vanished, cut after
    [limit] of them, and after one when [limit] is below 1: the limit is
    tested only after a process was appended.  Each of them carries the
    feature vector [cpu, memory, threads, nice]. *)
Theorem collect_processes_takes_limit (procs : list proc_read) (limit : Z) :
  collect_processes procs limit
  = firstn (Z.to_nat (Z.max limit 1)) (live procs)
  /\ (length (collect_processes procs limit) <= Z.to_nat (Z.max limit 1))%nat
  /\ forall p,
       In p (collect_processes procs limit) ->
       Detector.features p
       = [Detector.cpu p; Detector.memory p;
          inject_Z (Detector.threads p); inject_Z (Detector.nice p)].
Proof.
  assert (H : collect_processes procs limit
              = firstn (Z.to_nat (Z.max limit 1)) (live procs)).
  { unfold collect_processes. rewrite collect_loop_take by (cbn; lia).
    cbn. now rewrite Nat.sub_0_r. }
  split; [exact H |]. split.
  - rewrite H. apply firstn_le_length.
  - rewrite H. intros p Hp.
    assert (Hlive : In p (live procs)).
    { rewrite <- (firstn_skipn (Z.to_nat (Z.max limit 1)) (live procs)).
      apply in_or_app. now left. }
    clear Hp. rename Hlive into Hp. apply in_flat_map in Hp. destruct Hp as (pr & _ & Hpr).
    destruct pr; [destruct Hpr |]. destruct Hpr as [<- | []]. reflexivity.
Qed.

End Collecting.
